(** * parse_xml.py: Burp Intruder XML to HTML report, payload decoding

    A shallow embedding of [parse_xml.py].  Python values are modelled as
    follows.

    - [str] is a list of Unicode code points ([N]); [bytes] is a list of
      [Byte.byte]; [int] is [Z].
    - Exceptions are explicit: a computation that may raise returns a
      [result]; [try ... except Exception] is [try_except].
    - The BeautifulSoup trees are inductive rose trees.  XML tags carry an
      object identity, because the request/response fallback moves
      elements between trees ([Tag.append] extracts its argument first).
    - Library functions used by the script ([str.strip], [re], [base64],
      [bytes.decode], [bytes.hex], BeautifulSoup's [find_all], [.string],
      [.strings], [append] and output formatter) are modelled after
      CPython 3.11 and bs4 4.x; each definition names what it models. *)

From Stdlib Require Import String Ascii.
From Stdlib Require Import List NArith ZArith Bool Lia Permutation.
From Stdlib Require Import Strings.Byte.
From Stdlib Require Import DecimalString.
From Stdlib Require Import Floats.SpecFloat.
Import ListNotations.

Set Implicit Arguments.
Set Warnings "-register-all".

(** ** Python strings and bytes *)

Module Py.

(** A Python [str]: a sequence of Unicode code points. *)
Definition str := list N.

(** A Python [bytes] object. *)
Definition bytes := list byte.

(** String literals of the script, written as Rocq strings. *)
Definition lit (s : string) : str := map N_of_ascii (list_ascii_of_string s).

Definition len {A} (l : list A) : Z := Z.of_nat (length l).

Fixpoint eqb (a b : str) : bool :=
  match a, b with
  | [], [] => true
  | x :: a', y :: b' => (x =? y)%N && eqb a' b'
  | _, _ => false
  end.

(** [Py_UNICODE_ISSPACE]: the predicate behind [str.strip()],
    [str.isspace()] and the [\s] class of [re] on [str] patterns. *)
Definition isspace (c : N) : bool :=
  ((9 <=? c) && (c <=? 13) || (28 <=? c) && (c <=? 32)
   || (c =? 133) || (c =? 160) || (c =? 5760)
   || (8192 <=? c) && (c <=? 8202)
   || (c =? 8232) || (c =? 8233) || (c =? 8239) || (c =? 8287)
   || (c =? 12288))%N.

Fixpoint lstrip (s : str) : str :=
  match s with
  | c :: s' => if isspace c then lstrip s' else s
  | [] => []
  end.

Definition rstrip (s : str) : str := rev (lstrip (rev s)).

(** [s.strip()] *)
Definition strip (s : str) : str := rstrip (lstrip s).

(** [s.replace(c, "")] for a one-character [c]. *)
Definition remove_char (c : N) (s : str) : str :=
  filter (fun x => negb (x =? c)%N) s.

(** [s.lower()], on the ASCII letters.  Outside ASCII only U+212A and
    U+0130 lower-case to something containing an ASCII letter ([k] and
    [i]); neither occurs in ['base64'], the only string the script
    compares a lower-cased value with. *)
Definition lower (s : str) : str :=
  map (fun c => if ((65 <=? c) && (c <=? 90))%N then (c + 32)%N else c) s.

(** [str(n)] for a non-negative [int]. *)
Definition str_of_nat (n : nat) : str :=
  lit (NilEmpty.string_of_uint (Nat.to_uint n)).

(** Truthiness of a [str]. *)
Definition truthy (s : str) : bool :=
  match s with [] => false | _ => true end.

End Py.

Definition LF : N := 10.
Definition CR : N := 13.

(** ** Exceptions *)

Inductive exn : Type :=
| SystemExit (code : Z)        (* a BaseException, not an Exception *)
| ValueError
| BinasciiError
| UnicodeDecodeError
| OSError
| ParserError.

(** [isinstance(e, Exception)] *)
Definition is_Exception (e : exn) : bool :=
  match e with SystemExit _ => false | _ => true end.

Definition is_UnicodeDecodeError (e : exn) : bool :=
  match e with UnicodeDecodeError => true | _ => false end.

Inductive result (A : Type) : Type :=
| Ok (a : A)
| Raise (e : exn).
Arguments Ok {A} a.
Arguments Raise {A} e.

Definition bind {A B} (m : result A) (k : A -> result B) : result B :=
  match m with
  | Ok a => k a
  | Raise e => Raise e
  end.

Declare Scope py_scope.
Delimit Scope py_scope with py.
Notation "x <- m ;; k" := (bind m (fun x => k))
  (at level 61, m at next level, right associativity) : py_scope.
Notation "' p <- m ;; k" := (bind m (fun x => let p := x in k))
  (at level 61, p pattern, m at next level, right associativity) : py_scope.
Local Open Scope py_scope.

(** [try: body  except <class>: handler], the class given by [catches]. *)
Definition try_catch {A} (catches : exn -> bool)
    (body : result A) (handler : result A) : result A :=
  match body with
  | Ok a => Ok a
  | Raise e => if catches e then handler else Raise e
  end.

(** [try: body  except Exception: handler] *)
Definition try_except {A} := @try_catch A is_Exception.

(** ** Binary64 arithmetic of [valid_chars / max(1, len(s)) > 0.9] *)

Module Float.

Definition prec : Z := 53.
Definition emax : Z := 1024.

(** [float(z)]: exact for [|z| <= 2^53]. *)
Definition of_int (z : Z) : spec_float := binary_normalize prec emax z 0 false.

(** [a / b] on two [int]s: CPython's true division returns the
    correctly rounded quotient, which for operands of at most 53 bits is
    the IEEE quotient of the two conversions. *)
Definition truediv (a b : Z) : spec_float :=
  SFdiv prec emax (of_int a) (of_int b).

(** The literal [0.9]: the double nearest to 9/10,
    [8106479329266893 * 2^-53]. *)
Definition lit_0_9 : spec_float := S754_finite false 8106479329266893 (-53).

(** The mantissa of [lit_0_9]. *)
Definition M0 : Z := 8106479329266893.

(** [x > y] *)
Definition gt (x y : spec_float) : bool := SFltb y x.

End Float.

(** ** [base64], [bytes.decode] and [bytes.hex] *)

Definition byte_of_N (n : N) : byte :=
  match Byte.of_N (n mod 256) with
  | Some b => b
  | None => x00
  end.

(** [s.encode('ascii')], as [base64._bytes_from_decode_data] applies it to a
    [str] argument; its [UnicodeEncodeError] is re-raised as [ValueError]. *)
Fixpoint encode_ascii (s : Py.str) : result Py.bytes :=
  match s with
  | [] => Ok []
  | c :: s' =>
      if (c <? 128)%N
      then bs <- encode_ascii s' ;; Ok (byte_of_N c :: bs)
      else Raise ValueError
  end.

(** [table_a2b_base64]: the value of a Base64 digit. *)
Definition b64_value (c : N) : option N :=
  (if (65 <=? c) && (c <=? 90) then Some (c - 65)
   else if (97 <=? c) && (c <=? 122) then Some (c - 71)
   else if (48 <=? c) && (c <=? 57) then Some (c + 4)
   else if c =? 43 then Some 62
   else if c =? 47 then Some 63
   else None)%N.

Definition BASE64_PAD : N := 61.

(** The registers of the decoding loop of [binascii.a2b_base64]. *)
Record a2b_state : Type := mk_a2b {
  quad_pos : N;
  leftchar : N;
  pads : N;
  padding_started : bool
}.

Definition a2b_init : a2b_state := mk_a2b 0 0 0 false.

(** The loop of [binascii.a2b_base64(data, strict_mode=True)] as in
    CPython 3.11, one iteration per input byte; [out] is the output buffer
    written so far.  A [=] counts as padding only where at least two
    digits of the group have been read: elsewhere it is passed over, and
    from then on no digit may follow. *)
Fixpoint a2b_loop (data : list N) (st : a2b_state) (out : Py.bytes)
  : result Py.bytes :=
  match data with
  | [] =>
      if (quad_pos st =? 0)%N then Ok out else Raise BinasciiError
  | this_ch :: rest =>
      if (this_ch =? BASE64_PAD)%N then
        if (2 <=? quad_pos st)%N then
          let pads' := (pads st + 1)%N in
          if (4 <=? quad_pos st + pads')%N then
            match rest with
            | [] => Ok out
            | _ :: _ => Raise BinasciiError
            end
          else a2b_loop rest (mk_a2b (quad_pos st) (leftchar st) pads' true) out
        else a2b_loop rest (mk_a2b (quad_pos st) (leftchar st) (pads st) true) out
      else
        match b64_value this_ch with
        | None => Raise BinasciiError
        | Some v =>
            if padding_started st then Raise BinasciiError
            else
              match quad_pos st with
              | 0%N => a2b_loop rest (mk_a2b 1 v 0 false) out
              | 1%N =>
                  a2b_loop rest (mk_a2b 2 (N.land v 15) 0 false)
                    (out ++ [byte_of_N (N.lor (N.shiftl (leftchar st) 2) (N.shiftr v 4))])
              | 2%N =>
                  a2b_loop rest (mk_a2b 3 (N.land v 3) 0 false)
                    (out ++ [byte_of_N (N.lor (N.shiftl (leftchar st) 4) (N.shiftr v 2))])
              | _ =>
                  a2b_loop rest (mk_a2b 0 0 0 false)
                    (out ++ [byte_of_N (N.lor (N.shiftl (leftchar st) 6) v)])
              end
        end
  end.

(** [binascii.a2b_base64(data, strict_mode=True)] as in CPython 3.11:
    data that starts with [=] is refused before the loop is entered. *)
Definition a2b_base64 (data : Py.bytes) : result Py.bytes :=
  match map Byte.to_N data with
  | c :: _ =>
      if (c =? BASE64_PAD)%N then Raise BinasciiError
      else a2b_loop (map Byte.to_N data) a2b_init []
  | [] => a2b_loop [] a2b_init []
  end.

(** [base64.b64decode(s, validate=True)] on a [str] *)
Definition b64decode (s : Py.str) : result Py.bytes :=
  data <- encode_ascii s ;; a2b_base64 data.

Definition is_cont (b : N) : bool := ((128 <=? b) && (b <=? 191))%N.

Definition cont_bits (b : N) : N := N.land b 63.

(** [b.decode('utf-8')] with strict error handling, on byte values. *)
Fixpoint utf8_decode (bs : list N) : option Py.str :=
  match bs with
  | [] => Some []
  | b0 :: r0 =>
      if (b0 <? 128)%N then option_map (cons b0) (utf8_decode r0)
      else if ((194 <=? b0) && (b0 <=? 223))%N then
        match r0 with
        | b1 :: r1 =>
            if is_cont b1
            then option_map
                   (cons (N.lor (N.shiftl (N.land b0 31) 6) (cont_bits b1)))
                   (utf8_decode r1)
            else None
        | _ => None
        end
      else if ((224 <=? b0) && (b0 <=? 239))%N then
        match r0 with
        | b1 :: b2 :: r2 =>
            if ((if b0 =? 224 then 160 else 128) <=? b1)%N
               && (b1 <=? (if b0 =? 237 then 159 else 191))%N
               && is_cont b2
            then option_map
                   (cons (N.lor (N.shiftl (N.land b0 15) 12)
                            (N.lor (N.shiftl (cont_bits b1) 6) (cont_bits b2))))
                   (utf8_decode r2)
            else None
        | _ => None
        end
      else if ((240 <=? b0) && (b0 <=? 244))%N then
        match r0 with
        | b1 :: b2 :: b3 :: r3 =>
            if ((if b0 =? 240 then 144 else 128) <=? b1)%N
               && (b1 <=? (if b0 =? 244 then 143 else 191))%N
               && is_cont b2 && is_cont b3
            then option_map
                   (cons (N.lor (N.shiftl (N.land b0 7) 18)
                            (N.lor (N.shiftl (cont_bits b1) 12)
                               (N.lor (N.shiftl (cont_bits b2) 6) (cont_bits b3)))))
                   (utf8_decode r3)
            else None
        | _ => None
        end
      else None
  end.

(** [b.decode('utf-8')] *)
Definition bytes_decode_utf8 (b : Py.bytes) : result Py.str :=
  match utf8_decode (map Byte.to_N b) with
  | Some s => Ok s
  | None => Raise UnicodeDecodeError
  end.

Definition hex_digit (n : N) : N := (if n <? 10 then 48 + n else 87 + n)%N.

(** [b.hex()] *)
Definition bytes_hex (b : Py.bytes) : Py.str :=
  flat_map (fun x => [hex_digit (Byte.to_N x / 16); hex_digit (Byte.to_N x mod 16)]) b.

(** ** The payload decoder *)

(** The second component of the pairs returned by the decoder:
    ['text'], ['hex'] or ['raw']. *)
Inductive kind : Type := KText | KHex | KRaw.

Definition kind_str (k : kind) : Py.str :=
  match k with
  | KText => Py.lit "text"
  | KHex => Py.lit "hex"
  | KRaw => Py.lit "raw"
  end.

(** The character class [[A-Za-z0-9+/=]]. *)
Definition is_b64char (c : N) : bool :=
  ((65 <=? c) && (c <=? 90) || (97 <=? c) && (c <=? 122)
   || (48 <=? c) && (c <=? 57) || (c =? 43) || (c =? 47) || (c =? 61))%N.

(** [re.fullmatch(r'[A-Za-z0-9+/=\s\r\n]+', s)], as a truth value. *)
Definition fullmatch_b64_ws (s : Py.str) : bool :=
  Py.truthy s &&
  forallb (fun c => is_b64char c || Py.isspace c || (c =? CR)%N || (c =? LF)%N) s.

(** [re.findall(r'[A-Za-z0-9+/=]', s)] *)
Definition findall_b64 (s : Py.str) : list N := filter is_b64char s.

(** [re.sub(r'\s+', '', s)] *)
Definition sub_ws (s : Py.str) : Py.str := filter (fun c => negb (Py.isspace c)) s.

Definition is_likely_base64 (s0 : Py.str) : bool :=
  let s := Py.strip s0 in
  if negb (Py.truthy s) then false
  else if (Py.len s <? 8)%Z then false
  else if fullmatch_b64_ws s
          && (Py.len (Py.remove_char CR (Py.remove_char LF s)) mod 4 =? 0)%Z
  then
    let valid_chars := Py.len (findall_b64 s) in
    Float.gt (Float.truediv valid_chars (Z.max 1 (Py.len s))) Float.lit_0_9
  else false.

Definition try_decode_base64 (s : Py.str) : result (Py.str * kind) :=
  let s_clean := sub_ws s in
  try_except
    (b <- b64decode s_clean ;;
     try_catch is_UnicodeDecodeError
       (t <- bytes_decode_utf8 b ;; Ok (t, KText))
       (Ok (bytes_hex b, KHex)))
    (Ok (s, KRaw)).

(** ** BeautifulSoup trees of the parsed XML *)

(** The classes of string nodes: [.strings] yields [NavigableString] and
    [CData] objects only; comments, processing instructions and
    declarations are strings too, but of other classes. *)
Inductive strclass : Type := NavigableString | CData | Comment | OtherString.

Inductive node : Type :=
| Str (c : strclass) (s : Py.str)
| Tag (id : nat) (name : Py.str) (attrs : list (Py.str * Py.str))
      (contents : list node).

Definition forest := list node.

Module Soup.

(** [tag.get(key)] *)
Fixpoint get_attr (key : Py.str) (attrs : list (Py.str * Py.str))
  : option Py.str :=
  match attrs with
  | [] => None
  | (k, v) :: rest => if Py.eqb k key then Some v else get_attr key rest
  end.

Definition get (key : Py.str) (n : node) : option Py.str :=
  match n with
  | Tag _ _ attrs _ => get_attr key attrs
  | Str _ _ => None
  end.

(** [tag.descendants]: every node below [n], in document order. *)
Fixpoint descendants (n : node) : list node :=
  match n with
  | Str _ _ => []
  | Tag _ _ _ cs =>
      (fix go (l : list node) : list node :=
         match l with
         | [] => []
         | c :: l' => c :: descendants c ++ go l'
         end) cs
  end.

Definition is_named (name : Py.str) (n : node) : bool :=
  match n with
  | Tag _ nm _ _ => Py.eqb nm name
  | Str _ _ => false
  end.

(** [tag.find_all(name)] *)
Definition find_all (name : Py.str) (n : node) : list node :=
  filter (is_named name) (descendants n).

(** [tag.find(name)] *)
Definition find (name : Py.str) (n : node) : option node :=
  hd_error (find_all name n).

(** [tag.strings] *)
Fixpoint strings (n : node) : list Py.str :=
  match n with
  | Str NavigableString s | Str CData s => [s]
  | Str _ _ => []
  | Tag _ _ _ cs =>
      (fix go (l : list node) : list Py.str :=
         match l with
         | [] => []
         | c :: l' => strings c ++ go l'
         end) cs
  end.

(** [''.join(tag.strings)] *)
Definition joined_strings (n : node) : Py.str := concat (strings n).

(** [tag.string]: the single string child, looked for through chains of
    single tag children. *)
Fixpoint string (n : node) : option Py.str :=
  match n with
  | Str _ s => Some s
  | Tag _ _ _ [c] => string c
  | Tag _ _ _ _ => None
  end.

(** Identity and name of every element at and below [n], in document
    order. *)
Fixpoint tags (n : node) : list (nat * Py.str) :=
  match n with
  | Str _ _ => []
  | Tag i nm _ cs =>
      (i, nm) :: (fix go (l : list node) : list (nat * Py.str) :=
                    match l with
                    | [] => []
                    | c :: l' => tags c ++ go l'
                    end) cs
  end.

Definition forest_tags (f : forest) : list (nat * Py.str) := flat_map tags f.

(** Object identities at and below [n]. *)
Definition ids (n : node) : list nat := map fst (tags n).

Definition forest_ids (f : forest) : list nat := map fst (forest_tags f).

(** Identity and name of an element. *)
Definition label (n : node) : option (nat * Py.str) :=
  match n with
  | Tag i nm _ _ => Some (i, nm)
  | Str _ _ => None
  end.

Definition has_id (i : nat) (n : node) : bool :=
  match n with
  | Tag j _ _ _ => Nat.eqb i j
  | Str _ _ => false
  end.

(** The element with identity [i] in the tree [n], as it is now. *)
Fixpoint lookup (i : nat) (n : node) : option node :=
  match n with
  | Str _ _ => None
  | Tag j _ _ cs =>
      if Nat.eqb i j then Some n
      else (fix go (l : list node) : option node :=
              match l with
              | [] => None
              | c :: l' =>
                  match lookup i c with
                  | Some t => Some t
                  | None => go l'
                  end
              end) cs
  end.

Fixpoint lookup_forest (i : nat) (f : forest) : option node :=
  match f with
  | [] => None
  | n :: f' =>
      match lookup i n with
      | Some t => Some t
      | None => lookup_forest i f'
      end
  end.

(** [n] without the element of identity [i] below it. *)
Fixpoint detach (i : nat) (n : node) : node :=
  match n with
  | Str _ _ => n
  | Tag j nm at_ cs =>
      Tag j nm at_
        ((fix go (l : list node) : list node :=
            match l with
            | [] => []
            | c :: l' =>
                if has_id i c then go l' else detach i c :: go l'
            end) cs)
  end.

Fixpoint detach_forest (i : nat) (f : forest) : forest :=
  match f with
  | [] => []
  | n :: f' =>
      if has_id i n then detach_forest i f'
      else detach i n :: detach_forest i f'
  end.

(** [n] with [child] appended to the contents of the element [w]. *)
Fixpoint attach (w : nat) (child : node) (n : node) : node :=
  match n with
  | Str _ _ => n
  | Tag j nm at_ cs =>
      if Nat.eqb w j then Tag j nm at_ (cs ++ [child])
      else Tag j nm at_ (map (attach w child) cs)
  end.

(** The object a reference denotes: the element of that identity as the
    forest has it now.  Every element found by [find_all] is in the
    forest; the fall-back to the element as found is never taken when
    identities are distinct. *)
Definition deref (f : forest) (x : node) : node :=
  match x with
  | Tag i _ _ _ =>
      match lookup_forest i f with
      | Some t => t
      | None => x
      end
  | Str _ _ => x
  end.

(** [x.extract()]: [x] leaves the tree it is in. *)
Definition extract (x : node) (f : forest) : node * forest :=
  match x with
  | Tag i _ _ _ => (deref f x, detach_forest i f)
  | Str _ _ => (x, f)
  end.

(** [w.append(x)] for an element [w] of the forest: [x] is extracted
    from wherever it is, then added at the end of [w.contents]. *)
Definition append (w : nat) (x : node) (f : forest) : forest :=
  let '(x', f') := extract x f in
  map (attach w x') f'.

(** An identity no object of the forest has. *)
Definition fresh (f : forest) : nat := S (list_max (forest_ids f)).

End Soup.

(** ** The HTML tree under construction *)

Inductive html : Type :=
| HString (s : Py.str)
| HDoctype (s : Py.str)
| HTag (name : Py.str) (attrs : list (Py.str * Py.str)) (contents : list html).

Module Html.

(** [html_soup.new_tag(name, **{"class": cls})] *)
Definition new_tag (name cls : Py.str) : html :=
  HTag name [(Py.lit "class", cls)] [].

(** [tag.string = s] *)
Definition set_string (s : Py.str) (t : html) : html :=
  match t with
  | HTag nm at_ _ => HTag nm at_ [HString s]
  | _ => t
  end.

(** [tag.append(child)], for a freshly made [child] *)
Definition append (child : html) (t : html) : html :=
  match t with
  | HTag nm at_ cs => HTag nm at_ (cs ++ [child])
  | _ => t
  end.

Definition contents (t : html) : list html :=
  match t with
  | HTag _ _ cs => cs
  | _ => []
  end.

(** [EntitySubstitution.substitute_xml], the work of the ['minimal']
    output formatter. *)
Definition substitute_xml (s : Py.str) : Py.str :=
  flat_map (fun c =>
              if (c =? 38)%N then Py.lit "&amp;"
              else if (c =? 60)%N then Py.lit "&lt;"
              else if (c =? 62)%N then Py.lit "&gt;"
              else [c]) s.

Definition mem (c : N) (s : Py.str) : bool := existsb (N.eqb c) s.

(** [EntitySubstitution.quoted_attribute_value] *)
Definition quoted_attribute_value (v : Py.str) : Py.str :=
  if mem 34 v then
    if mem 39 v
    then [34%N] ++ flat_map (fun c => if (c =? 34)%N then Py.lit "&quot;" else [c]) v
                ++ [34%N]
    else [39%N] ++ v ++ [39%N]
  else [34%N] ++ v ++ [34%N].

Definition decode_attrs (attrs : list (Py.str * Py.str)) : Py.str :=
  flat_map (fun kv => Py.lit " " ++ fst kv ++ Py.lit "="
                        ++ quoted_attribute_value (substitute_xml (snd kv)))
           attrs.

Definition mem_str (x : Py.str) (l : list Py.str) : bool := existsb (Py.eqb x) l.

(** [HTMLTreeBuilder.empty_element_tags] *)
Definition empty_element_tags : list Py.str :=
  map Py.lit
    ["area"; "base"; "br"; "col"; "embed"; "hr"; "img"; "input"; "keygen";
     "link"; "menuitem"; "meta"; "param"; "source"; "track"; "wbr";
     "basefont"; "bgsound"; "command"; "frame"; "image"; "isindex";
     "nextid"; "spacer"]%string.

(** [HTMLFormatter.cdata_containing_tags] *)
Definition cdata_containing_tags : list Py.str :=
  map Py.lit ["script"; "style"]%string.

(** [str(tag)]: [Tag.decode] with the default formatter; [raw] tells
    that the parent is a [script] or [style] element, whose strings are
    written as they are. *)
Fixpoint decode (raw : bool) (t : html) : Py.str :=
  match t with
  | HString s => if raw then s else substitute_xml s
  | HDoctype s => Py.lit "<!DOCTYPE " ++ s ++ [62%N; LF]
  | HTag nm at_ cs =>
      match cs with
      | [] =>
          if mem_str nm empty_element_tags
          then Py.lit "<" ++ nm ++ decode_attrs at_ ++ Py.lit "/>"
          else Py.lit "<" ++ nm ++ decode_attrs at_ ++ Py.lit ">"
                 ++ Py.lit "</" ++ nm ++ Py.lit ">"
      | _ =>
          Py.lit "<" ++ nm ++ decode_attrs at_ ++ Py.lit ">"
            ++ (fix go (l : list html) : Py.str :=
                  match l with
                  | [] => []
                  | c :: l' => decode (mem_str nm cdata_containing_tags) c ++ go l'
                  end) cs
            ++ Py.lit "</" ++ nm ++ Py.lit ">"
      end
  end.

(** [str(html_soup)] for the document's top-level nodes *)
Definition decode_document (top : list html) : Py.str :=
  flat_map (decode false) top.

End Html.

(** ** The script: payload extraction and rendering *)

Definition opt_truthy (o : option Py.str) : bool :=
  match o with
  | Some s => Py.truthy s
  | None => false
  end.

Definition extract_node_text (node : option node)
  : result (option Py.str * option kind) :=
  match node with
  | None => Ok (None, None)
  | Some node =>
      let enc_attr := Soup.get (Py.lit "encoding") node in
      if opt_truthy enc_attr
         && Py.eqb (Py.lower (match enc_attr with Some e => e | None => [] end))
                   (Py.lit "base64")
      then
        let raw := Soup.joined_strings node in
        '(decoded, kind) <- try_decode_base64 raw ;;
        Ok (Some decoded, Some kind)
      else
        let raw := Soup.joined_strings node in
        if is_likely_base64 raw then
          '(decoded, kind) <- try_decode_base64 raw ;;
          Ok (Some decoded, Some kind)
        else Ok (Some (Py.strip raw), Some KText)
  end.

(** The helper of [add_entry]; [entry] is the element it appends to. *)
Definition add_block (title_text : Py.str) (node : option node) (entry : html)
  : result html :=
  match node with
  | None => Ok entry
  | Some nd =>
      '(decoded, kind) <- extract_node_text node ;;
      let block :=
        Html.new_tag (Py.lit "div")
          (if Py.eqb title_text (Py.lit "Request")
           then Py.lit "req" else Py.lit "resp") in
      let title := Html.new_tag (Py.lit "div") (Py.lit "kv") in
      let title := Html.set_string title_text title in
      let title :=
        match kind with
        | Some KText | None => title
        | Some k =>
            let btag := Html.new_tag (Py.lit "span") (Py.lit "badge") in
            let btag := Html.set_string (kind_str k) btag in
            Html.append btag title
        end in
      let block := Html.append title block in
      let pre := Html.new_tag (Py.lit "pre") (Py.lit "pre") in
      let pre :=
        Html.set_string (match decoded with Some d => d | None => [] end) pre in
      let block := Html.append pre block in
      let entry := Html.append block entry in
      if opt_truthy (Soup.get (Py.lit "encoding") nd) then
        let note := Html.new_tag (Py.lit "div") (Py.lit "note") in
        let note :=
          Html.set_string
            (Py.lit "Original node encoding attribute: "
               ++ match Soup.get (Py.lit "encoding") nd with
                  | Some e => e
                  | None => Py.lit "None"
                  end) note in
        Ok (Html.append note entry)
      else Ok entry
  end.

(** [x and x.string], for the result [x] of a [find]: a [Tag] is always
    true. *)
Definition found_string (x : option node) : option Py.str :=
  match x with
  | Some t =>
      match Soup.string t with
      | Some s => if Py.truthy s then Some s else None
      | None => None
      end
  | None => None
  end.

(** One header line of [add_entry]: a [div] of class [cls] reading
    [label ++ field.string], when the field is there. *)
Definition add_field (cls label : Py.str) (field : option node) (parent : html)
  : html :=
  match found_string field with
  | Some s =>
      Html.append
        (Html.set_string (label ++ s) (Html.new_tag (Py.lit "div") cls)) parent
  | None => parent
  end.

(** [add_entry(idx, item)]; returns the [container] with the new entry. *)
Definition add_entry (idx : nat) (item : node) (container : html) : result html :=
  let entry := Html.new_tag (Py.lit "div") (Py.lit "entry") in
  let hdr := Html.new_tag (Py.lit "div") (Py.lit "hdr") in
  let eidx := Html.new_tag (Py.lit "div") (Py.lit "kv") in
  let eidx := Html.set_string (Py.lit "Item #" ++ Py.str_of_nat idx) eidx in
  let hdr := Html.append eidx hdr in
  let hdr := add_field (Py.lit "small") (Py.lit "Position: ")
               (Soup.find (Py.lit "position") item) hdr in
  let hdr := add_field (Py.lit "status") (Py.lit "Status: ")
               (Soup.find (Py.lit "status") item) hdr in
  let hdr := add_field (Py.lit "small") (Py.lit "Length: ")
               (Soup.find (Py.lit "length") item) hdr in
  let entry := Html.append hdr entry in
  entry <- add_block (Py.lit "Request") (Soup.find (Py.lit "request") item) entry ;;
  entry <- add_block (Py.lit "Response") (Soup.find (Py.lit "response") item) entry ;;
  let entry := add_field (Py.lit "small") (Py.lit "Host: ")
                 (Soup.find (Py.lit "host") item) entry in
  Ok (Html.append entry container).

(** [for i, it in enumerate(items, i): add_entry(i, it)] *)
Fixpoint items_loop (i : nat) (items : list node) (container : html)
  : result html :=
  match items with
  | [] => Ok container
  | it :: rest =>
      container <- add_entry i it container ;;
      items_loop (S i) rest container
  end.

(** The body of the loop over [pairs], up to the call of [add_entry]: a
    new [<item>] wrapper, which [r] and then [s] are moved into.  Returns
    the wrapper as it is after both moves, and the forest. *)
Definition make_wrapper (r s : node) (f : forest) : node * forest :=
  let w := Soup.fresh f in
  let wrapper := Tag w (Py.lit "item") [] [] in
  let f := wrapper :: f in
  let f := Soup.append w r f in
  let f := Soup.append w s f in
  (Soup.deref f wrapper, f).

(** [for i, (r, s) in enumerate(pairs, i): ...] *)
Fixpoint pairs_loop (i : nat) (pairs : list (node * node)) (f : forest)
    (container : html) : result html :=
  match pairs with
  | [] => Ok container
  | (r, s) :: rest =>
      let '(wrapper, f) := make_wrapper r s f in
      container <- add_entry i wrapper container ;;
      pairs_loop (S i) rest f container
  end.

Definition is_empty {A} (l : list A) : bool :=
  match l with [] => true | _ => false end.

(** The value of [items] after the two [find_all] steps. *)
Definition items (soup_xml : node) : list node :=
  let items := Soup.find_all (Py.lit "item") soup_xml in
  if is_empty items
  then Soup.find_all (Py.lit "attackitem") soup_xml
         ++ Soup.find_all (Py.lit "row") soup_xml
         ++ Soup.find_all (Py.lit "requestitem") soup_xml
  else items.

(** [list(zip(soup_xml.find_all("request"), soup_xml.find_all("response")))] *)
Definition pairs (soup_xml : node) : list (node * node) :=
  combine (Soup.find_all (Py.lit "request") soup_xml)
          (Soup.find_all (Py.lit "response") soup_xml).

Definition no_items_message : html :=
  Html.set_string
    (Py.lit "No <item> or recognizable request/response pairs found in XML.")
    (Html.new_tag (Py.lit "div") (Py.lit "entry")).

(** The part of the script from [# Find items] to the end of the loops:
    fills [container] from the parsed document. *)
Definition fill_container (soup_xml : node) (container : html) : result html :=
  let items := items soup_xml in
  if is_empty items then
    let pairs := pairs soup_xml in
    if negb (is_empty pairs)
    then pairs_loop 1 pairs [soup_xml] container
    else Ok (Html.append no_items_message container)
  else items_loop 1 items container.

Definition style_text : Py.str := Py.lit "
body{font-family:Segoe UI,Roboto,Arial;margin:18px;background:#f7f9fb;color:#111}
.container{max-width:1100px;margin:0 auto}
.entry{border:1px solid #ddd;background:#fff;padding:12px;margin:12px 0;border-radius:6px}
.hdr{display:flex;gap:12px;flex-wrap:wrap;margin-bottom:8px;font-size:13px}
.kv{font-weight:600;color:#333}
.pre{background:#0f1724;color:#e6fffa;padding:10px;border-radius:6px;overflow:auto;font-family:monospace;font-size:13px;white-space:pre}
.req{border-left:4px solid #0b6; padding-left:8px}
.resp{border-left:4px solid #06c; padding-left:8px}
.status{font-weight:700;color:#b91c1c}
.url{color:#0b5}
.small{font-size:12px;color:#555}
.note{font-size:12px;color:#444;margin-top:6px}
.badge{display:inline-block;padding:2px 6px;border-radius:4px;background:#eee;font-size:12px;margin-left:6px}
".

(** The top-level nodes of [html_soup]: the parsed skeleton, with the
    [style] element in [head] and [container] in [body]. *)
Definition html_soup (container : html) : list html :=
  [ HDoctype (Py.lit "html");
    HTag (Py.lit "html") []
      [ HTag (Py.lit "head") []
          [ HTag (Py.lit "meta") [(Py.lit "charset", Py.lit "utf-8")] [];
            HTag (Py.lit "title") []
              [HString (Py.lit "Burp Intruder Results (decoded)")];
            HTag (Py.lit "style") [] [HString style_text] ];
        HTag (Py.lit "body") [] [container] ] ].

Definition empty_container : html :=
  Html.new_tag (Py.lit "div") (Py.lit "container").

(** ** The process: arguments, files and standard streams *)

Record world : Type := mk_world {
  (** what [open(path, 'r', encoding='utf-8', errors='ignore').read()]
      gives for each path *)
  read_text : Py.str -> result Py.str;
  (** whether [open(path, 'w', encoding='utf-8')] succeeds *)
  can_write : Py.str -> bool;
  (** paths given to [open], latest first *)
  opened : list Py.str;
  (** files written so far, latest first *)
  written : list (Py.str * Py.str);
  stdout : Py.str;
  stderr : Py.str
}.

(** [print(s)]: to standard output, with a newline. *)
Definition print (s : Py.str) (w : world) : world :=
  mk_world (read_text w) (can_write w) (opened w) (written w)
           (stdout w ++ s ++ [LF]) (stderr w).

Definition eprint (s : Py.str) (w : world) : world :=
  mk_world (read_text w) (can_write w) (opened w) (written w)
           (stdout w) (stderr w ++ s ++ [LF]).

Definition log_open (path : Py.str) (w : world) : world :=
  mk_world (read_text w) (can_write w) (path :: opened w) (written w)
           (stdout w) (stderr w).

Definition write_file (path text : Py.str) (w : world) : world :=
  mk_world (read_text w) (can_write w) (opened w) ((path, text) :: written w)
           (stdout w) (stderr w).

Definition usage : Py.str :=
  Py.lit "Usage: python3 burp_to_html_decode.py <intruder_xml_file> <output_html_file>".

Section Script.

(** [BeautifulSoup(xml, "xml")]: the XML parser is a library. *)
Variable xml_parser : Py.str -> result node.

(** The module body, run with [sys.argv = argv]. *)
Definition script (argv : list Py.str) (w : world) : result unit * world :=
  if negb (Nat.eqb (length argv) 3) then
    let w := print usage w in
    (Raise (SystemExit 1), w)
  else
    let infile := nth 1 argv [] in
    let outfile := nth 2 argv [] in
    let w := log_open infile w in
    match read_text w infile with
    | Raise e => (Raise e, w)
    | Ok xml =>
        match xml_parser xml with
        | Raise e => (Raise e, w)
        | Ok soup_xml =>
            match fill_container soup_xml empty_container with
            | Raise e => (Raise e, w)
            | Ok container =>
                let w := log_open outfile w in
                if can_write w outfile then
                  let w := write_file outfile
                             (Html.decode_document (html_soup container)) w in
                  let w := print (Py.lit "Wrote " ++ outfile) w in
                  (Ok tt, w)
                else (Raise OSError, w)
            end
        end
    end.

(** The interpreter around the module body: the exit status, with the
    traceback of an uncaught exception on standard error. *)
Definition main (argv : list Py.str) (w : world) : Z * world :=
  match script argv w with
  | (Ok _, w') => (0%Z, w')
  | (Raise (SystemExit code), w') => (code, w')
  | (Raise _, w') =>
      (1%Z, eprint (Py.lit "Traceback (most recent call last):") w')
  end.

End Script.

(** ** Reference encodings the claims are stated against *)

(** [table_b2a_base64]: the Base64 digit of a 6-bit value. *)
Definition b64_char (v : N) : N :=
  (if v <? 26 then 65 + v
   else if v <? 52 then 71 + v
   else if v <? 62 then v - 4
   else if v =? 62 then 43
   else 47)%N.

(** The standard Base64 encoding (RFC 4648, section 4) of a byte
    sequence, as [base64.b64encode(b).decode('ascii')] gives it. *)
Fixpoint b64encode (b : Py.bytes) : Py.str :=
  match b with
  | [] => []
  | [x] =>
      let x := Byte.to_N x in
      [b64_char (N.shiftr x 2); b64_char (N.shiftl (N.land x 3) 4);
       BASE64_PAD; BASE64_PAD]
  | [x; y] =>
      let x := Byte.to_N x in
      let y := Byte.to_N y in
      [b64_char (N.shiftr x 2);
       b64_char (N.lor (N.shiftl (N.land x 3) 4) (N.shiftr y 4));
       b64_char (N.shiftl (N.land y 15) 2);
       BASE64_PAD]
  | x :: y :: z :: rest =>
      let x := Byte.to_N x in
      let y := Byte.to_N y in
      let z := Byte.to_N z in
      b64_char (N.shiftr x 2)
        :: b64_char (N.lor (N.shiftl (N.land x 3) 4) (N.shiftr y 4))
        :: b64_char (N.lor (N.shiftl (N.land y 15) 2) (N.shiftr z 6))
        :: b64_char (N.land z 63)
        :: b64encode rest
  end.

Definition hex_value (c : N) : option N :=
  (if (48 <=? c) && (c <=? 57) then Some (c - 48)
   else if (97 <=? c) && (c <=? 102) then Some (c - 87)
   else if (65 <=? c) && (c <=? 70) then Some (c - 55)
   else None)%N.

Definition is_ascii_space (c : N) : bool :=
  ((9 <=? c) && (c <=? 13) || (c =? 32))%N.

(** [bytes.fromhex(s)]: pairs of hexadecimal digits, ASCII whitespace
    between the pairs skipped; [None] for its [ValueError]. *)
Fixpoint bytes_fromhex (s : Py.str) : option Py.bytes :=
  match s with
  | [] => Some []
  | c :: r =>
      if is_ascii_space c then bytes_fromhex r
      else
        match r with
        | d :: r' =>
            match hex_value c, hex_value d with
            | Some h, Some l =>
                option_map (cons (byte_of_N (16 * h + l))) (bytes_fromhex r')
            | _, _ => None
            end
        | [] => None
        end
  end.

(** ** Shapes of rendered elements, for stating the results *)

Definition block_class (title_text : Py.str) : Py.str :=
  if Py.eqb title_text (Py.lit "Request") then Py.lit "req" else Py.lit "resp".

Definition pre_element (decoded : Py.str) : html :=
  HTag (Py.lit "pre") [(Py.lit "class", Py.lit "pre")] [HString decoded].

(** A request or response block without a badge. *)
Definition plain_block (title_text decoded : Py.str) : html :=
  HTag (Py.lit "div") [(Py.lit "class", block_class title_text)]
    [ HTag (Py.lit "div") [(Py.lit "class", Py.lit "kv")] [HString title_text];
      pre_element decoded ].

(** A request or response block whose title carries a badge. *)
Definition badged_block (title_text badge decoded : Py.str) : html :=
  HTag (Py.lit "div") [(Py.lit "class", block_class title_text)]
    [ HTag (Py.lit "div") [(Py.lit "class", Py.lit "kv")]
        [ HString title_text;
          HTag (Py.lit "span") [(Py.lit "class", Py.lit "badge")] [HString badge] ];
      pre_element decoded ].

Definition encoding_note (enc : Py.str) : html :=
  HTag (Py.lit "div") [(Py.lit "class", Py.lit "note")]
    [HString (Py.lit "Original node encoding attribute: " ++ enc)].

(** ** Exhaustive checks over byte values, used by the Base64 proofs *)

Definition range256 : list N := map N.of_nat (seq 0 256).

(** What the decoder needs of a Base64 digit. *)
Definition digit_ok (v : N) : bool :=
  (match b64_value (b64_char v) with Some v' => (v' =? v)%N | None => false end)
  && negb (b64_char v =? BASE64_PAD)%N
  && (b64_char v <? 128)%N
  && negb (Py.isspace (b64_char v)).

(** The sextets of the first two bytes of a group, re-assembled. *)
Definition group_check_xy (x y : N) : bool :=
  let v0 := N.shiftr x 2 in
  let v1 := N.lor (N.shiftl (N.land x 3) 4) (N.shiftr y 4) in
  let v1' := N.shiftl (N.land x 3) 4 in
  ((v0 <? 64) && (v1 <? 64) && (v1' <? 64)
   && (N.lor (N.shiftl v0 2) (N.shiftr v1 4) =? x)
   && (N.lor (N.shiftl v0 2) (N.shiftr v1' 4) =? x)
   && (N.land v1 15 =? N.shiftr y 4))%N.

(** The sextets of the last two bytes of a group, re-assembled. *)
Definition group_check_yz (y z : N) : bool :=
  let v2 := N.lor (N.shiftl (N.land y 15) 2) (N.shiftr z 6) in
  let v2' := N.shiftl (N.land y 15) 2 in
  let v3 := N.land z 63 in
  ((v2 <? 64) && (v2' <? 64) && (v3 <? 64)
   && (N.lor (N.shiftl (N.shiftr y 4) 4) (N.shiftr v2 2) =? y)
   && (N.lor (N.shiftl (N.shiftr y 4) 4) (N.shiftr v2' 2) =? y)
   && (N.land v2 3 =? N.shiftr z 6)
   && (N.lor (N.shiftl (N.shiftr z 6) 6) v3 =? z))%N.

Definition hex_check (x : N) : bool :=
  (match hex_value (hex_digit (x / 16)), hex_value (hex_digit (x mod 16)) with
   | Some h, Some l => (16 * h + l =? x)%N
   | _, _ => false
   end)
  && negb (is_ascii_space (hex_digit (x / 16))).

(** An ASCII character that is not whitespace. *)
Definition plain_ascii (c : N) : Prop :=
  (c <? 128)%N = true /\ Py.isspace c = false.

(** ** The checks of [is_likely_base64], for stating the results *)

(** The tests a trimmed string passes before the ratio is looked at, as
    the code makes them. *)
Definition passes_gate (t : Py.str) : bool :=
  Py.truthy t && (8 <=? Py.len t)%Z && fullmatch_b64_ws t
  && (Py.len (Py.remove_char CR (Py.remove_char LF t)) mod 4 =? 0)%Z.

Definition SPACE : N := 32.

(** Rules 1 to 3 in the words of the specification: length at least 8,
    only Base64-alphabet characters, space, CR and LF, and a whitespace-free
    length that is a multiple of 4. *)
Definition rules_1_3 (t : Py.str) : bool :=
  (8 <=? Py.len t)%Z
  && forallb (fun c => is_b64char c || (c =? SPACE)%N || (c =? CR)%N || (c =? LF)%N) t
  && (Py.len (sub_ws t) mod 4 =? 0)%Z.

(** Whitespace other than CR and LF does not occur. *)
Definition only_line_breaks (t : Py.str) : bool :=
  forallb (fun c => negb (Py.isspace c) || (c =? CR)%N || (c =? LF)%N) t.

(** [container] after [entries] were appended one by one. *)
Definition append_all (entries : list html) (container : html) : html :=
  fold_left (fun c e => Html.append e c) entries container.

(** ** The wrappers of the request/response fallback, for stating the results *)

(** The wrappers that the loop over [pairs] hands to [add_entry], in
    order. *)
Fixpoint wrappers (ps : list (node * node)) (f : forest) : list node :=
  match ps with
  | [] => []
  | (r, s) :: rest =>
      let '(wrapper, f') := make_wrapper r s f in
      wrapper :: wrappers rest f'
  end.

(** Two references to the same element: same identity, same name. *)
Definition same_element (x y : node) : Prop :=
  Soup.label x = Soup.label y /\ Soup.label x <> None.

(** A pair of references to a request and a response of the forest. *)
Definition pair_in_forest (f : forest) (p : node * node) : Prop :=
  exists i k,
    Soup.label (fst p) = Some (i, Py.lit "request")
    /\ Soup.label (snd p) = Some (k, Py.lit "response")
    /\ In (i, Py.lit "request") (Soup.forest_tags f)
    /\ In (k, Py.lit "response") (Soup.forest_tags f).

(** What the wrapper made for a pair looks like. *)
Definition wraps (p : node * node) (w : node) : Prop :=
  exists wid r' s',
    w = Tag wid (Py.lit "item") [] [r'; s']
    /\ same_element (fst p) r' /\ same_element (snd p) s'.

(** ** A reference reader of the serialized HTML, for stating the results

    The reader splits the text of a document into tags and character
    data, resolves the character references [&amp;], [&lt;] and [&gt;]
    in character data, takes the text of [script] and [style] elements as
    it stands, and rebuilds the element tree from the tags.  Attributes
    are kept as the text of the start tag.  This is the lexical layer
    only: character data is handed on as it is written.  What an HTML
    parser does to line ends, to NUL characters and to the start of a
    [pre] element is added on top of it, in [Html5] below. *)

Module Reader.


















End Reader.

(** ** The documents the reader is shown to read back *)

Module Wf.












End Wf.







(** The block rendered for a request or response. *)
Definition block_of (title_text : Py.str) (k : kind) (decoded : Py.str) : html :=
  match k with
  | KText => plain_block title_text decoded
  | _ => badged_block title_text (kind_str k) decoded
  end.

(** The entry with the block of a node and, if the node has a non-empty
    [encoding] attribute, the note that quotes it. *)
Definition with_block (block : html) (nd : node) (entry : html) : html :=
  match Soup.get (Py.lit "encoding") nd with
  | Some enc =>
      if Py.truthy enc
      then Html.append (encoding_note enc) (Html.append block entry)
      else Html.append block entry
  | None => Html.append block entry
  end.


(** ** Strict Base64, for stating when decoding fails *)

(** A Base64 digit: a character of [[A-Za-z0-9+/]]. *)
Definition is_b64digit (c : N) : bool :=
  match b64_value c with Some _ => true | None => false end.

(** [s] without its leading Base64 digits. *)
Fixpoint drop_digits (s : Py.str) : Py.str :=
  match s with
  | c :: r => if is_b64digit c then drop_digits r else s
  | [] => []
  end.

(** The strings of RFC 4648, section 4: Base64 digits followed by at most
    two [=], of a total length that is a multiple of 4. *)
Definition strict_b64 (s : Py.str) : bool :=
  (Py.len s mod 4 =? 0)%Z
  && (Py.eqb (drop_digits s) []
      || Py.eqb (drop_digits s) [BASE64_PAD]
      || Py.eqb (drop_digits s) [BASE64_PAD; BASE64_PAD]).

(** The padding strict Base64 ends with. *)
Definition pad_ok (p : Py.str) : Prop :=
  p = [] \/ p = [BASE64_PAD] \/ p = [BASE64_PAD; BASE64_PAD].

(** Whether [=] is the first character. *)
Definition starts_with_pad (s : Py.str) : bool :=
  match s with
  | c :: _ => (c =? BASE64_PAD)%N
  | [] => false
  end.

(** What may follow the digits when [q] of them are left over after the
    last whole group of four: nothing but [=]; any number of them after a
    whole group, exactly two after two digits, exactly one after three,
    and no end at all after one. *)
Definition tail_ok (q : N) (pad : Py.str) : bool :=
  forallb (fun c => (c =? BASE64_PAD)%N) pad
  && match q with
     | 0%N => true
     | 2%N => Nat.eqb (length pad) 2
     | 3%N => Nat.eqb (length pad) 1
     | _ => false
     end.

(** The strings that [b64decode(s, validate=True)] decodes: Base64
    digits, then [=] signs as [tail_ok] has them, and no [=] in the first
    place.  Next to the strings of [strict_b64] these are the strings of
    whole groups of digits followed by [=] signs. *)
Definition accepted_b64 (s : Py.str) : bool :=
  negb (starts_with_pad s)
  && tail_ok (N.of_nat (length s - length (drop_digits s)) mod 4)
             (drop_digits s).

(** ** The declaration of an encoding, for stating the results *)

(** The test [enc_attr and enc_attr.lower() == 'base64'] of
    [extract_node_text]. *)
Definition declares_base64 (nd : node) : bool :=
  let enc_attr := Soup.get (Py.lit "encoding") nd in
  opt_truthy enc_attr
  && Py.eqb (Py.lower (match enc_attr with Some e => e | None => [] end))
            (Py.lit "base64").

(** ** UTF-8 encoding, for stating what the decoder recovers *)

(** A Unicode scalar value: a code point that is no surrogate. *)
Definition is_scalar (c : N) : bool :=
  ((c <? 55296) || (57344 <=? c) && (c <? 1114112))%N.

(** The UTF-8 form of a scalar value (RFC 3629, section 3), as byte
    values. *)
Definition utf8_encode_char (c : N) : list N :=
  (if c <? 128 then [c]
   else if c <? 2048 then [192 + c / 64; 128 + c mod 64]
   else if c <? 65536 then
     [224 + c / 4096; 128 + (c / 64) mod 64; 128 + c mod 64]
   else
     [240 + c / 262144; 128 + (c / 4096) mod 64; 128 + (c / 64) mod 64;
      128 + c mod 64])%N.

(** [t.encode('utf-8')], for a string of scalar values. *)
Definition utf8_encode (t : Py.str) : Py.bytes :=
  map byte_of_N (flat_map utf8_encode_char t).

(** ** The parts of an entry, for stating the results *)

(** The label of the entry numbered [idx]. *)
Definition item_label (idx : nat) : html :=
  HTag (Py.lit "div") [(Py.lit "class", Py.lit "kv")]
    [HString (Py.lit "Item #" ++ Py.str_of_nat idx)].

(** A line [label ++ field.string] of class [cls]: there when the field
    was found and has a non-empty [.string]. *)
Definition field_line (cls label : Py.str) (field : option node) : list html :=
  match found_string field with
  | Some s => [HTag (Py.lit "div") [(Py.lit "class", cls)] [HString (label ++ s)]]
  | None => []
  end.

(** The note that quotes a non-empty [encoding] attribute. *)
Definition note_part (nd : node) : list html :=
  match Soup.get (Py.lit "encoding") nd with
  | Some enc => if Py.truthy enc then [encoding_note enc] else []
  | None => []
  end.

(** The decoded text and the kind that [extract_node_text] returns for a
    node. *)
Definition payload_of (nd : node) : Py.str * kind :=
  match extract_node_text (Some nd) with
  | Ok (Some decoded, Some k) => (decoded, k)
  | _ => ([], KText)
  end.

(** The block of a request or response and its note: there when the node
    was found. *)
Definition block_part (title_text : Py.str) (nd : option node) : list html :=
  match nd with
  | Some n =>
      block_of title_text (snd (payload_of n)) (fst (payload_of n)) :: note_part n
  | None => []
  end.

(** The entry of an item: the header with the label and the position,
    status and length lines, then the request with its note, the response
    with its note, and the host line. *)
Definition entry_of (idx : nat) (item : node) : html :=
  HTag (Py.lit "div") [(Py.lit "class", Py.lit "entry")]
    (HTag (Py.lit "div") [(Py.lit "class", Py.lit "hdr")]
       (item_label idx
          :: field_line (Py.lit "small") (Py.lit "Position: ")
               (Soup.find (Py.lit "position") item)
          ++ field_line (Py.lit "status") (Py.lit "Status: ")
               (Soup.find (Py.lit "status") item)
          ++ field_line (Py.lit "small") (Py.lit "Length: ")
               (Soup.find (Py.lit "length") item))
     :: block_part (Py.lit "Request") (Soup.find (Py.lit "request") item)
     ++ block_part (Py.lit "Response") (Soup.find (Py.lit "response") item)
     ++ field_line (Py.lit "small") (Py.lit "Host: ")
          (Soup.find (Py.lit "host") item)).

(** The entries of a list of items, numbered from [i]. *)
Fixpoint entries_from (i : nat) (items : list node) : list html :=
  match items with
  | [] => []
  | it :: rest => entry_of i it :: entries_from (S i) rest
  end.

(** The entries of the report of a document. *)
Definition report_entries (soup_xml : node) : list html :=
  if negb (is_empty (items soup_xml)) then entries_from 1 (items soup_xml)
  else if negb (is_empty (pairs soup_xml))
       then entries_from 1 (wrappers (pairs soup_xml) [soup_xml])
       else [no_items_message].

(** ** Documents whose requests and responses hold no request or response *)

(** No request or response element inside [x]. *)
Definition is_flat (x : node) : bool :=
  is_empty (Soup.find_all (Py.lit "request") x)
  && is_empty (Soup.find_all (Py.lit "response") x).

(** An item that holds a request and a response, as the fallback builds
    it; which identity the wrapper has plays no part in its entry. *)
Definition pair_item (p : node * node) : node :=
  Tag 0 (Py.lit "item") [] [fst p; snd p].

(** The label of an element, as a list. *)
Definition own_label (x : node) : list (nat * Py.str) :=
  match Soup.label x with
  | Some l => [l]
  | None => []
  end.

(** The labels of the elements of a list of nodes. *)
Definition labels (l : list node) : list (nat * Py.str) := flat_map own_label l.

(** The element with the identity of [x] in the forest is [x] itself. *)
Definition placed (f : forest) (x : node) : Prop :=
  match x with
  | Tag i _ _ _ => Soup.lookup_forest i f = Some x
  | Str _ _ => False
  end.

(** Neither element is inside the other. *)
Definition apart (x y : node) : Prop :=
  match x, y with
  | Tag i _ _ _, Tag k _ _ _ => ~ In i (Soup.ids y) /\ ~ In k (Soup.ids x)
  | _, _ => False
  end.

(** The requests and responses of the pairs, in the order in which the
    loop moves them. *)
Definition pair_elements (ps : list (node * node)) : list node :=
  flat_map (fun p => [fst p; snd p]) ps.

(** Taking the element [i] out leaves the element [k] as it is, when
    neither is inside the other. *)
Definition detach_keeps (n : node) : Prop :=
  forall i k s,
  NoDup (Soup.ids n) ->
  Soup.lookup k n = Some s -> ~ In i (Soup.ids s) ->
  (forall t, Soup.lookup i n = Some t -> ~ In k (Soup.ids t)) ->
  Soup.lookup k (Soup.detach i n) = Some s.

(** ** The elements of the report *)

(** Name and attributes of every element of a tree, in document order. *)
Fixpoint elements (t : html) : list (Py.str * list (Py.str * Py.str)) :=
  match t with
  | HTag nm at_ cs =>
      (nm, at_)
        :: (fix go (l : list html) : list (Py.str * list (Py.str * Py.str)) :=
              match l with
              | [] => []
              | c :: l' => elements c ++ go l'
              end) cs
  | _ => []
  end.

Definition div_of (cls : string) : Py.str * list (Py.str * Py.str) :=
  (Py.lit "div", [(Py.lit "class", Py.lit cls)]).

(** The elements that the script makes, with their attributes. *)
Definition vocabulary : list (Py.str * list (Py.str * Py.str)) :=
  [ (Py.lit "html", []); (Py.lit "head", []);
    (Py.lit "meta", [(Py.lit "charset", Py.lit "utf-8")]);
    (Py.lit "title", []); (Py.lit "style", []); (Py.lit "body", []);
    div_of "container"; div_of "entry"; div_of "hdr"; div_of "kv";
    div_of "small"; div_of "status"; div_of "req"; div_of "resp"; div_of "note";
    (Py.lit "span", [(Py.lit "class", Py.lit "badge")]);
    (Py.lit "pre", [(Py.lit "class", Py.lit "pre")]) ].

(** Every element of the tree is one of the vocabulary. *)
Definition in_vocabulary (t : html) : Prop :=
  Forall (fun e => In e vocabulary) (elements t).

(** ** References for the decoded forms, for stating the results *)

(** The sixteen hexadecimal digits in lower case. *)
Definition lower_hex_digits : Py.str := Py.lit "0123456789abcdef".

(** The lower-case hexadecimal form of a byte sequence: two digits for
    each byte, the high half first. *)
Definition hex_lower (b : Py.bytes) : Py.str :=
  flat_map (fun x =>
              [nth (N.to_nat (Byte.to_N x / 16)) lower_hex_digits 0%N;
               nth (N.to_nat (Byte.to_N x mod 16)) lower_hex_digits 0%N]) b.

(** Valid UTF-8: the bytes are the UTF-8 encoding of a string of Unicode
    scalar values. *)
Definition valid_utf8 (b : Py.bytes) : Prop :=
  exists t, forallb is_scalar t = true /\ utf8_encode t = b.

(** The two digits of a byte in [bytes.hex] are those of the reference. *)
Definition hex_lower_check (x : N) : bool :=
  ((hex_digit (x / 16) =? nth (N.to_nat (x / 16)) lower_hex_digits 0)
   && (hex_digit (x mod 16) =? nth (N.to_nat (x mod 16)) lower_hex_digits 0))%N.

(** ** Reading a document as an HTML parser does, for stating the results

    [Reader] gives the tags and the character data of a text.  An HTML
    parser does three things more to the character data of the documents
    the script writes (HTML standard, sections 13.2.3.5, 13.2.5 and
    13.2.6.4): it normalises the line ends of its input, so that a CR LF
    pair and a lone CR both arrive as one LF; it drops the NUL characters
    of the text of the body and replaces those of the text of [title] and
    [style] by U+FFFD; and it drops a LF that comes right after the start
    tag of a [pre] element.  It also leaves out the white space between
    the document type and the [html] element.

    [Html5.read] is this reading.  It accepts only the documents in which
    nothing else of the standard comes into play, and refuses every
    other text: after the document type [html] there is one [html]
    element made of a [head] of [meta], [title] and [style] elements and
    a [body] of [div], [span] and [pre] elements and text; every start tag
    is a name followed by attributes [name="value"] of letters, digits and
    hyphens; every [&] is the start of [&amp;], [&lt;] or [&gt;]. *)

Module Html5.
































End Html5.

(** ** What is to be read of the tree that the script built *)











(** * Properties *)

(** ** Exceptions of the decoder *)

Lemma encode_ascii_raises (s : Py.str) (e : exn) :
  encode_ascii s = Raise e -> e = ValueError.
Proof.
  induction s as [|c s IH]; simpl; [discriminate|].
  destruct (c <? 128)%N; [|congruence].
  destruct (encode_ascii s); simpl; [discriminate|].
  intros H; apply IH; congruence.
Qed.

Lemma a2b_loop_raises (data : list N) :
  forall st out e, a2b_loop data st out = Raise e -> e = BinasciiError.
Proof.
  induction data as [|c rest IH]; intros st out e; simpl.
  - destruct (quad_pos st =? 0)%N; congruence.
  - destruct (c =? BASE64_PAD)%N.
    + destruct (2 <=? quad_pos st)%N; [|apply IH].
      destruct (4 <=? quad_pos st + (pads st + 1))%N; [|apply IH].
      destruct rest; congruence.
    + destruct (b64_value c); [|congruence].
      destruct (padding_started st); [congruence|].
      destruct (quad_pos st) as [|[[p|p|]|[p|p|]|]]; apply IH.
Qed.

Lemma b64decode_raises (s : Py.str) (e : exn) :
  b64decode s = Raise e -> is_Exception e = true.
Proof.
  unfold b64decode, bind.
  destruct (encode_ascii s) as [data|e'] eqn:E.
  - unfold a2b_base64. destruct (map Byte.to_N data) as [|c r].
    + intros H. apply a2b_loop_raises in H. subst. reflexivity.
    + destruct (c =? BASE64_PAD)%N.
      * intros H. injection H as <-. reflexivity.
      * intros H. apply a2b_loop_raises in H. subst. reflexivity.
  - intros H. injection H as <-. apply encode_ascii_raises in E. subst. reflexivity.
Qed.

Lemma try_decode_base64_cases (s : Py.str) :
  (exists b t, b64decode (sub_ws s) = Ok b /\ utf8_decode (map Byte.to_N b) = Some t
               /\ try_decode_base64 s = Ok (t, KText))
  \/ (exists b, b64decode (sub_ws s) = Ok b /\ utf8_decode (map Byte.to_N b) = None
                /\ try_decode_base64 s = Ok (bytes_hex b, KHex))
  \/ (exists e, b64decode (sub_ws s) = Raise e /\ try_decode_base64 s = Ok (s, KRaw)).
Proof.
  unfold try_decode_base64, try_except, try_catch, bytes_decode_utf8.
  destruct (b64decode (sub_ws s)) as [b|e] eqn:E; simpl.
  - destruct (utf8_decode (map Byte.to_N b)) as [t|] eqn:U; simpl.
    + left. exists b, t. auto.
    + right. left. exists b. auto.
  - right. right. exists e. rewrite (b64decode_raises _ E). auto.
Qed.

Lemma try_decode_base64_never_raises_aux (s : Py.str) :
  exists t k, try_decode_base64 s = Ok (t, k).
Proof.
  destruct (try_decode_base64_cases s)
    as [(b & t & _ & _ & H) | [(b & _ & _ & H) | (e & _ & H)]];
    rewrite H; eauto.
Qed.

(** C1.  [try_decode_base64] returns a pair for every input string, never
    an exception; a result of kind ['raw'] carries the input unchanged. *)
Theorem try_decode_base64_never_raises (s : Py.str) :
  exists t k, try_decode_base64 s = Ok (t, k) /\ (k = KRaw -> t = s).
Proof.
  destruct (try_decode_base64_cases s)
    as [(b & t & _ & _ & H) | [(b & _ & _ & H) | (e & _ & H)]];
    rewrite H; eexists _, _; (split; [reflexivity|]); congruence.
Qed.

(** ** Empty and undeclared payloads *)

Lemma sub_ws_all_space (s : Py.str) :
  forallb Py.isspace s = true -> sub_ws s = [].
Proof.
  induction s as [|c s IH]; simpl; [reflexivity|].
  intros H. apply andb_true_iff in H as [Hc Hs].
  rewrite Hc. simpl. auto.
Qed.

Lemma try_decode_base64_all_space (s : Py.str) :
  forallb Py.isspace s = true -> try_decode_base64 s = Ok ([], KText).
Proof.
  intros H. unfold try_decode_base64. rewrite (sub_ws_all_space _ H). reflexivity.
Qed.

(** C10.  On the empty string and on every whitespace-only string
    [try_decode_base64] returns [('', 'text')]; hence a node that declares
    [encoding="base64"] (in any letter case) and has no content, or only
    whitespace, is rendered as a block with an empty [pre], without badge,
    followed by the encoding note. *)
Theorem empty_base64_payload_is_empty_text :
  (forall s, forallb Py.isspace s = true -> try_decode_base64 s = Ok ([], KText))
  /\ (forall nd enc title_text entry,
        Soup.get (Py.lit "encoding") nd = Some enc ->
        Py.lower enc = Py.lit "base64" ->
        forallb Py.isspace (Soup.joined_strings nd) = true ->
        extract_node_text (Some nd) = Ok (Some [], Some KText)
        /\ add_block title_text (Some nd) entry
           = Ok (Html.append (encoding_note enc)
                   (Html.append (plain_block title_text []) entry))).
Proof.
  split; [exact try_decode_base64_all_space|].
  intros nd enc title_text entry Hget Hlow Hws.
  assert (Htr : Py.truthy enc = true).
  { destruct enc; [discriminate Hlow|reflexivity]. }
  assert (Hx : extract_node_text (Some nd) = Ok (Some [], Some KText)).
  { unfold extract_node_text. rewrite Hget. simpl opt_truthy. rewrite Htr, Hlow.
    simpl. rewrite (try_decode_base64_all_space _ Hws). reflexivity. }
  split; [exact Hx|].
  unfold add_block. rewrite Hx. simpl bind. rewrite Hget. simpl opt_truthy.
  rewrite Htr. destruct entry; reflexivity.
Qed.

Lemma empty_base64_payload_is_empty_text_witness :
  try_decode_base64 [32; 10; 9]%N = Ok ([], KText)
  /\ add_block (Py.lit "Request")
       (Some (Tag 1 (Py.lit "request") [(Py.lit "encoding", Py.lit "Base64")] []))
       (Html.new_tag (Py.lit "div") (Py.lit "entry"))
     = Ok (Html.append (encoding_note (Py.lit "Base64"))
             (Html.append (plain_block (Py.lit "Request") [])
                (Html.new_tag (Py.lit "div") (Py.lit "entry")))).
Proof.
  split.
  - apply (proj1 empty_base64_payload_is_empty_text). reflexivity.
  - apply (proj2 empty_base64_payload_is_empty_text
             (Tag 1 (Py.lit "request") [(Py.lit "encoding", Py.lit "Base64")] [])
             (Py.lit "Base64")); reflexivity.
Defined.

(** C9.  The string [AAAA=AAA] sits in a node without an [encoding]
    attribute; [is_likely_base64] accepts it, strict decoding fails, so
    [extract_node_text] returns it unchanged with kind ['raw'] and the
    rendered block carries the badge [raw]. *)
Theorem undeclared_payload_can_render_raw :
  let s := Py.lit "AAAA=AAA" in
  let nd := Tag 1 (Py.lit "request") [] [Str NavigableString s] in
  Soup.get (Py.lit "encoding") nd = None
  /\ is_likely_base64 s = true
  /\ b64decode (sub_ws s) = Raise BinasciiError
  /\ extract_node_text (Some nd) = Ok (Some s, Some KRaw)
  /\ forall entry,
       add_block (Py.lit "Request") (Some nd) entry
       = Ok (Html.append (badged_block (Py.lit "Request") (Py.lit "raw") s) entry).
Proof.
  cbv zeta. do 4 (split; [vm_compute; reflexivity|]).
  intros entry.
  assert (Hx : extract_node_text
                 (Some (Tag 1 (Py.lit "request") []
                          [Str NavigableString (Py.lit "AAAA=AAA")]))
               = Ok (Some (Py.lit "AAAA=AAA"), Some KRaw))
    by (vm_compute; reflexivity).
  unfold add_block. rewrite Hx. destruct entry; reflexivity.
Qed.

(** ** Base64 and hexadecimal round trips *)

Lemma range256_complete (P : N -> bool) :
  forallb P range256 = true -> forall n, (n < 256)%N -> P n = true.
Proof.
  intros H n Hn. rewrite forallb_forall in H. apply H.
  unfold range256. rewrite <- (N2Nat.id n). apply in_map.
  apply in_seq. lia.
Qed.

Lemma to_N_lt (b : byte) : (Byte.to_N b < 256)%N.
Proof. pose proof (Byte.to_N_bounded b). lia. Qed.

Lemma byte_of_to_N (b : byte) : byte_of_N (Byte.to_N b) = b.
Proof.
  unfold byte_of_N. rewrite N.mod_small by apply to_N_lt.
  rewrite Byte.of_to_N. reflexivity.
Qed.

Lemma to_N_byte_of_N (n : N) : (n < 256)%N -> Byte.to_N (byte_of_N n) = n.
Proof.
  intros H. unfold byte_of_N. rewrite N.mod_small by exact H.
  destruct (Byte.of_N n) as [b|] eqn:E.
  - apply Byte.to_of_N. exact E.
  - apply Byte.of_N_None_iff in E. lia.
Qed.

Lemma digit_ok_all (v : N) : (v < 64)%N -> digit_ok v = true.
Proof.
  intros H.
  assert (H' : negb (v <? 64)%N || digit_ok v = true).
  { apply (range256_complete (fun v => negb (v <? 64)%N || digit_ok v)); [|lia].
    vm_compute. reflexivity. }
  destruct (N.ltb_spec v 64); [exact H'|lia].
Qed.

Lemma group_check_xy_all (x y : byte) :
  group_check_xy (Byte.to_N x) (Byte.to_N y) = true.
Proof.
  apply (range256_complete (fun a => group_check_xy a (Byte.to_N y))); [|apply to_N_lt].
  generalize (Byte.to_N y) (to_N_lt y). intros n Hn.
  apply (range256_complete (fun b => forallb (fun a => group_check_xy a b) range256));
    [|exact Hn].
  vm_compute. reflexivity.
Qed.

Lemma group_check_yz_all (y z : byte) :
  group_check_yz (Byte.to_N y) (Byte.to_N z) = true.
Proof.
  apply (range256_complete (fun a => group_check_yz a (Byte.to_N z))); [|apply to_N_lt].
  generalize (Byte.to_N z) (to_N_lt z). intros n Hn.
  apply (range256_complete (fun b => forallb (fun a => group_check_yz a b) range256));
    [|exact Hn].
  vm_compute. reflexivity.
Qed.

Lemma hex_check_all (x : byte) : hex_check (Byte.to_N x) = true.
Proof.
  apply (range256_complete hex_check); [|apply to_N_lt].
  vm_compute. reflexivity.
Qed.

Lemma list_ind3 (A : Type) (P : list A -> Prop) :
  P [] -> (forall x, P [x]) -> (forall x y, P [x; y]) ->
  (forall x y z l, P l -> P (x :: y :: z :: l)) ->
  forall l, P l.
Proof.
  intros H0 H1 H2 H3. fix IH 1.
  intros [|x [|y [|z l]]];
    [exact H0 | exact (H1 x) | exact (H2 x y) | exact (H3 x y z l (IH l))].
Qed.

Lemma digit_facts (v : N) :
  (v < 64)%N ->
  b64_value (b64_char v) = Some v
  /\ (b64_char v =? BASE64_PAD)%N = false
  /\ (b64_char v <? 128)%N = true
  /\ Py.isspace (b64_char v) = false.
Proof.
  intros H. pose proof (digit_ok_all H) as D. unfold digit_ok in D.
  repeat (apply andb_true_iff in D as [D ?]).
  destruct (b64_value (b64_char v)) as [v'|]; [|discriminate].
  apply N.eqb_eq in D. subst v'.
  repeat split; auto using negb_true_iff; now apply negb_true_iff.
Qed.

Lemma group_xy_facts (x y : byte) :
  let a := Byte.to_N x in
  let b := Byte.to_N y in
  let v0 := N.shiftr a 2 in
  let v1 := N.lor (N.shiftl (N.land a 3) 4) (N.shiftr b 4) in
  let v1' := N.shiftl (N.land a 3) 4 in
  (v0 < 64 /\ v1 < 64 /\ v1' < 64
   /\ N.lor (N.shiftl v0 2) (N.shiftr v1 4) = a
   /\ N.lor (N.shiftl v0 2) (N.shiftr v1' 4) = a
   /\ N.land v1 15 = N.shiftr b 4)%N.
Proof.
  pose proof (group_check_xy_all x y) as D. unfold group_check_xy in D.
  cbv zeta. repeat (apply andb_true_iff in D as [D ?]).
  repeat match goal with
         | H : (_ <? _)%N = true |- _ => apply N.ltb_lt in H
         | H : (_ =? _)%N = true |- _ => apply N.eqb_eq in H
         end.
  auto 10.
Qed.

Lemma group_yz_facts (y z : byte) :
  let b := Byte.to_N y in
  let c := Byte.to_N z in
  let v2 := N.lor (N.shiftl (N.land b 15) 2) (N.shiftr c 6) in
  let v2' := N.shiftl (N.land b 15) 2 in
  let v3 := N.land c 63 in
  (v2 < 64 /\ v2' < 64 /\ v3 < 64
   /\ N.lor (N.shiftl (N.shiftr b 4) 4) (N.shiftr v2 2) = b
   /\ N.lor (N.shiftl (N.shiftr b 4) 4) (N.shiftr v2' 2) = b
   /\ N.land v2 3 = N.shiftr c 6
   /\ N.lor (N.shiftl (N.shiftr c 6) 6) v3 = c)%N.
Proof.
  pose proof (group_check_yz_all y z) as D. unfold group_check_yz in D.
  cbv zeta. repeat (apply andb_true_iff in D as [D ?]).
  repeat match goal with
         | H : (_ <? _)%N = true |- _ => apply N.ltb_lt in H
         | H : (_ =? _)%N = true |- _ => apply N.eqb_eq in H
         end.
  auto 10.
Qed.

(** One iteration of the decoding loop on a Base64 digit, before any
    padding. *)
Lemma a2b_loop_digit (v : N) (rest : list N) (q l p : N) (out : Py.bytes) :
  (v < 64)%N ->
  a2b_loop (b64_char v :: rest) (mk_a2b q l p false) out
  = match q with
    | 0%N => a2b_loop rest (mk_a2b 1 v 0 false) out
    | 1%N => a2b_loop rest (mk_a2b 2 (N.land v 15) 0 false)
               (out ++ [byte_of_N (N.lor (N.shiftl l 2) (N.shiftr v 4))])
    | 2%N => a2b_loop rest (mk_a2b 3 (N.land v 3) 0 false)
               (out ++ [byte_of_N (N.lor (N.shiftl l 4) (N.shiftr v 2))])
    | _ => a2b_loop rest (mk_a2b 0 0 0 false)
             (out ++ [byte_of_N (N.lor (N.shiftl l 6) v)])
    end.
Proof.
  intros H. destruct (digit_facts H) as (Hv & Hp & _ & _).
  cbn [a2b_loop quad_pos leftchar pads padding_started].
  rewrite Hp, Hv. reflexivity.
Qed.

Lemma snoc3 (A : Type) (out : list A) (x y z : A) (l : list A) :
  (((out ++ [x]) ++ [y]) ++ [z]) ++ l = out ++ x :: y :: z :: l.
Proof. repeat rewrite <- app_assoc. reflexivity. Qed.

(** The decoding loop inverts the standard encoding. *)
Lemma a2b_loop_b64encode (b : Py.bytes) :
  forall out, a2b_loop (b64encode b) a2b_init out = Ok (out ++ b).
Proof.
  induction b as [|x|x y|x y z l IH] using list_ind3; intros out.
  - simpl. rewrite app_nil_r. reflexivity.
  - destruct (group_xy_facts x x) as (H0 & _ & H1' & _ & E1' & _).
    cbn [b64encode]. unfold a2b_init.
    rewrite (a2b_loop_digit _ _ _ _ _ H0), (a2b_loop_digit _ _ _ _ _ H1').
    rewrite E1', byte_of_to_N. reflexivity.
  - destruct (group_xy_facts x y) as (H0 & H1 & _ & E1 & _ & E2).
    destruct (group_yz_facts y y) as (_ & H2' & _ & _ & E3' & _).
    cbn [b64encode]. unfold a2b_init.
    rewrite (a2b_loop_digit _ _ _ _ _ H0), (a2b_loop_digit _ _ _ _ _ H1),
      (a2b_loop_digit _ _ _ _ _ H2').
    rewrite E1, E2, E3', !byte_of_to_N.
    cbn. rewrite <- app_assoc. reflexivity.
  - destruct (group_xy_facts x y) as (H0 & H1 & _ & E1 & _ & E2).
    destruct (group_yz_facts y z) as (H2 & _ & H3 & E3 & _ & E4 & E5).
    cbn [b64encode]. unfold a2b_init.
    rewrite (a2b_loop_digit _ _ _ _ _ H0), (a2b_loop_digit _ _ _ _ _ H1),
      (a2b_loop_digit _ _ _ _ _ H2), (a2b_loop_digit _ _ _ _ _ H3).
    rewrite E1, E2, E3, E4, E5, !byte_of_to_N.
    fold a2b_init. rewrite IH. rewrite snoc3. reflexivity.
Qed.

Lemma plain_ascii_digit (v : N) : (v < 64)%N -> plain_ascii (b64_char v).
Proof. intros H. destruct (digit_facts H) as (_ & _ & ? & ?). split; assumption. Qed.

Lemma plain_ascii_pad : plain_ascii BASE64_PAD.
Proof. split; reflexivity. Qed.

Lemma b64encode_plain_ascii (b : Py.bytes) : Forall plain_ascii (b64encode b).
Proof.
  induction b as [|x|x y|x y z l IH] using list_ind3.
  - constructor.
  - destruct (group_xy_facts x x) as (H0 & _ & H1' & _).
    cbn [b64encode].
    repeat first [apply Forall_nil | apply Forall_cons];
      auto using plain_ascii_digit, plain_ascii_pad.
  - destruct (group_xy_facts x y) as (H0 & H1 & _).
    destruct (group_yz_facts y y) as (_ & H2' & _).
    cbn [b64encode].
    repeat first [apply Forall_nil | apply Forall_cons];
      auto using plain_ascii_digit, plain_ascii_pad.
  - destruct (group_xy_facts x y) as (H0 & H1 & _).
    destruct (group_yz_facts y z) as (H2 & _ & H3 & _).
    cbn [b64encode].
    repeat (apply Forall_cons; [now apply plain_ascii_digit|]). exact IH.
Qed.

Lemma sub_ws_plain_ascii (s : Py.str) : Forall plain_ascii s -> sub_ws s = s.
Proof.
  induction 1 as [|c s [_ Hc] _ IH]; [reflexivity|].
  simpl. rewrite Hc. simpl. now rewrite IH.
Qed.

Lemma encode_ascii_plain_ascii (s : Py.str) :
  Forall plain_ascii s ->
  exists bs, encode_ascii s = Ok bs /\ map Byte.to_N bs = s.
Proof.
  induction 1 as [|c s [Hc _] _ (bs & E & M)].
  - exists []. split; reflexivity.
  - exists (byte_of_N c :: bs). simpl. rewrite Hc, E. split; [reflexivity|].
    simpl. rewrite M, to_N_byte_of_N; [reflexivity|].
    apply N.ltb_lt in Hc. lia.
Qed.

(** The standard encoding never starts with [=]. *)
Lemma b64encode_head (b : Py.bytes) :
  match b64encode b with
  | c :: _ => (c =? BASE64_PAD)%N = false
  | [] => True
  end.
Proof.
  destruct b as [|x [|y [|z l]]]; cbn [b64encode]; [exact I| | |].
  - destruct (group_xy_facts x x) as (H0 & _).
    destruct (digit_facts H0) as (_ & Hp & _). exact Hp.
  - destruct (group_xy_facts x y) as (H0 & _).
    destruct (digit_facts H0) as (_ & Hp & _). exact Hp.
  - destruct (group_xy_facts x y) as (H0 & _).
    destruct (digit_facts H0) as (_ & Hp & _). exact Hp.
Qed.

Lemma b64decode_b64encode (b : Py.bytes) : b64decode (b64encode b) = Ok b.
Proof.
  unfold b64decode, a2b_base64.
  destruct (encode_ascii_plain_ascii (b64encode_plain_ascii b)) as (bs & E & M).
  rewrite E. cbn [bind]. rewrite M.
  pose proof (b64encode_head b) as H.
  pose proof (a2b_loop_b64encode b []) as L. cbn [app] in L.
  destruct (b64encode b) as [|c r]; [exact L|]. rewrite H. exact L.
Qed.

Lemma bytes_fromhex_hex (b : Py.bytes) : bytes_fromhex (bytes_hex b) = Some b.
Proof.
  induction b as [|x b IH]; [reflexivity|].
  pose proof (hex_check_all x) as D. unfold hex_check in D.
  apply andb_true_iff in D as [D S]. apply negb_true_iff in S.
  change (bytes_hex (x :: b))
    with (hex_digit (Byte.to_N x / 16) :: hex_digit (Byte.to_N x mod 16) :: bytes_hex b).
  cbn [bytes_fromhex]. rewrite S.
  destruct (hex_value (hex_digit (Byte.to_N x / 16))) as [h|]; [|discriminate].
  destruct (hex_value (hex_digit (Byte.to_N x mod 16))) as [l|]; [|discriminate].
  apply N.eqb_eq in D. rewrite D, IH, byte_of_to_N. reflexivity.
Qed.

(** ** The Base64 heuristic *)

Lemma lstrip_decompose (s : Py.str) :
  exists a, s = a ++ Py.lstrip s /\ forallb Py.isspace a = true.
Proof.
  induction s as [|c s (a & E & Ha)]; [exists []; split; reflexivity|].
  simpl. destruct (Py.isspace c) eqn:Hc.
  - exists (c :: a). simpl. rewrite Hc, Ha. split; [congruence|reflexivity].
  - exists []. split; reflexivity.
Qed.

Lemma strip_decompose (s : Py.str) :
  exists a b, s = a ++ Py.strip s ++ b
              /\ forallb Py.isspace a = true /\ forallb Py.isspace b = true.
Proof.
  unfold Py.strip, Py.rstrip.
  destruct (lstrip_decompose s) as (a & Ea & Ha).
  destruct (lstrip_decompose (rev (Py.lstrip s))) as (b & Eb & Hb).
  exists a, (rev b). repeat split.
  - rewrite <- rev_app_distr, <- Eb, rev_involutive. exact Ea.
  - exact Ha.
  - rewrite forallb_forall in *. intros x Hx. apply Hb. now apply in_rev.
Qed.

Lemma filter_all_false (A : Type) (f g : A -> bool) (l : list A) :
  (forall x, g x = true -> f x = false) ->
  forallb g l = true -> filter f l = [].
Proof.
  intros Hfg. induction l as [|x l IH]; simpl; [reflexivity|].
  intros H. apply andb_true_iff in H as [Hx Hl].
  rewrite (Hfg _ Hx). auto.
Qed.

(** Trimming only removes whitespace: a filter that drops whitespace sees
    the same characters before and after. *)
Lemma filter_strip (f : N -> bool) (s : Py.str) :
  (forall c, Py.isspace c = true -> f c = false) ->
  filter f (Py.strip s) = filter f s.
Proof.
  intros Hf. destruct (strip_decompose s) as (a & b & E & Ha & Hb).
  rewrite E at 2. rewrite !filter_app.
  rewrite (filter_all_false f Py.isspace a Hf Ha),
    (filter_all_false f Py.isspace b Hf Hb), app_nil_r.
  reflexivity.
Qed.

Lemma is_b64char_small (c : N) : is_b64char c = true -> (c < 256)%N.
Proof.
  unfold is_b64char.
  rewrite !orb_true_iff, !andb_true_iff, !N.leb_le, !N.eqb_eq. lia.
Qed.

Lemma space_not_b64char (c : N) : Py.isspace c = true -> is_b64char c = false.
Proof.
  intros Hs. destruct (is_b64char c) eqn:Hb; [|reflexivity].
  apply is_b64char_small in Hb as Hlt.
  assert (H : negb (is_b64char c && Py.isspace c) = true).
  { apply (range256_complete (fun c => negb (is_b64char c && Py.isspace c)));
      [vm_compute; reflexivity|exact Hlt]. }
  rewrite Hb, Hs in H. discriminate.
Qed.

Lemma findall_b64_strip (s : Py.str) : findall_b64 (Py.strip s) = findall_b64 s.
Proof. apply filter_strip, space_not_b64char. Qed.

Lemma sub_ws_strip (s : Py.str) : sub_ws (Py.strip s) = sub_ws s.
Proof.
  apply (filter_strip (fun c => negb (Py.isspace c))).
  intros c H. now rewrite H.
Qed.

Lemma is_likely_base64_unfold (s : Py.str) :
  is_likely_base64 s
  = passes_gate (Py.strip s)
    && Float.gt (Float.truediv (Py.len (findall_b64 s)) (Py.len (Py.strip s)))
                Float.lit_0_9.
Proof.
  unfold is_likely_base64, passes_gate. cbv zeta.
  rewrite findall_b64_strip.
  destruct (Py.truthy (Py.strip s)); simpl; [|reflexivity].
  destruct (Z.ltb_spec (Py.len (Py.strip s)) 8) as [Hlt|Hge].
  - destruct (Z.leb_spec 8 (Py.len (Py.strip s))); [lia|reflexivity].
  - destruct (Z.leb_spec 8 (Py.len (Py.strip s))); [|lia]. simpl.
    rewrite Z.max_r by lia.
    destruct (fullmatch_b64_ws (Py.strip s)); simpl; [|reflexivity].
    destruct (_ =? 0)%Z; reflexivity.
Qed.

Lemma sub_ws_only_line_breaks (t : Py.str) :
  only_line_breaks t = true ->
  sub_ws t = Py.remove_char CR (Py.remove_char LF t).
Proof.
  unfold only_line_breaks, sub_ws, Py.remove_char.
  induction t as [|c t IH]; simpl; [reflexivity|].
  intros H. apply andb_true_iff in H as [Hc Ht].
  rewrite (IH Ht).
  destruct (N.eqb_spec c LF) as [->|Hlf]; [reflexivity|].
  destruct (N.eqb_spec c CR) as [->|Hcr]; simpl.
  - reflexivity.
  - rewrite !orb_false_r in Hc. rewrite Hc. simpl.
    destruct (N.eqb_spec c CR); [contradiction|reflexivity].
Qed.

(** C3, as the code has it.  [is_likely_base64 s] is true only if the
    length of the trimmed string with its CR and LF characters removed is a
    multiple of 4; spaces and other whitespace inside the trimmed string
    count.  When CR and LF are the only whitespace inside it, this is the
    whitespace-free length of [s]. *)
Theorem is_likely_base64_length_rule (s : Py.str) :
  is_likely_base64 s = true ->
  (Py.len (Py.remove_char CR (Py.remove_char LF (Py.strip s))) mod 4 = 0)%Z
  /\ (only_line_breaks (Py.strip s) = true -> (Py.len (sub_ws s) mod 4 = 0)%Z).
Proof.
  rewrite is_likely_base64_unfold. intros H.
  apply andb_true_iff in H as [G _]. unfold passes_gate in G.
  apply andb_true_iff in G as [_ G]. apply Z.eqb_eq in G.
  split; [exact G|].
  intros L. rewrite <- sub_ws_strip, (sub_ws_only_line_breaks _ L). exact G.
Qed.

Lemma is_likely_base64_length_rule_witness :
  let s := Py.lit "AAAAAAAAAA" ++ [CR; LF] ++ Py.lit "AAAAAAAAAA " in
  is_likely_base64 s = true
  /\ (Py.len (Py.remove_char CR (Py.remove_char LF (Py.strip s))) mod 4 = 0)%Z.
Proof.
  intros s.
  assert (H : is_likely_base64 s = true) by (vm_compute; reflexivity).
  split; [exact H|].
  exact (proj1 (is_likely_base64_length_rule s H)).
Defined.

(** C3 as stated fails: eleven Base64 characters around one interior
    space are classified as Base64, and their whitespace-free length is
    11. *)
Lemma interior_space_counterexample :
  let s := Py.lit "AAAAAA AAAAA" in
  is_likely_base64 s = true
  /\ Py.len (sub_ws s) = 11%Z
  /\ Py.len (Py.remove_char SPACE (Py.remove_char CR (Py.remove_char LF s))) = 11%Z
  /\ (11 mod 4 <> 0)%Z.
Proof.
  cbv zeta. do 3 (split; [vm_compute; reflexivity|]).
  vm_compute. intros H; discriminate H.
Qed.

(** ** Rendering never raises *)

Lemma try_decode_base64_ok (s : Py.str) :
  exists t k, try_decode_base64 s = Ok (t, k).
Proof.
  destruct (try_decode_base64_never_raises_aux s) as (t & k & H). eauto.
Qed.

Lemma extract_node_text_ok (nd : node) :
  exists d k, extract_node_text (Some nd) = Ok (Some d, Some k).
Proof.
  unfold extract_node_text.
  destruct (opt_truthy _ && _).
  - destruct (try_decode_base64_ok (Soup.joined_strings nd)) as (t & k & H).
    rewrite H. simpl. eauto.
  - destruct (is_likely_base64 _).
    + destruct (try_decode_base64_ok (Soup.joined_strings nd)) as (t & k & H).
      rewrite H. simpl. eauto.
    + eauto.
Qed.

Lemma add_block_ok (title_text : Py.str) (nd : option node) (entry : html) :
  exists entry', add_block title_text nd entry = Ok entry'.
Proof.
  destruct nd as [nd|]; [|simpl; eauto].
  unfold add_block.
  destruct (extract_node_text_ok nd) as (d & k & H). rewrite H. simpl bind.
  destruct (opt_truthy _); eauto.
Qed.

(** [add_entry] appends exactly one element to the container. *)
Lemma add_entry_ok (idx : nat) (item : node) (container : html) :
  exists entry, add_entry idx item container = Ok (Html.append entry container).
Proof.
  unfold add_entry.
  match goal with
  | |- context [add_block ?t ?n ?e] =>
      destruct (add_block_ok t n e) as (e1 & H1); rewrite H1; simpl bind
  end.
  match goal with
  | |- context [add_block ?t ?n ?e] =>
      destruct (add_block_ok t n e) as (e2 & H2); rewrite H2; simpl bind
  end.
  eauto.
Qed.

Lemma append_all_snoc (entries : list html) (e c : html) :
  append_all (entries ++ [e]) c = Html.append e (append_all entries c).
Proof. unfold append_all. rewrite fold_left_app. reflexivity. Qed.

Lemma append_all_cons (entries : list html) (e c : html) :
  append_all (e :: entries) c = append_all entries (Html.append e c).
Proof. reflexivity. Qed.

Lemma append_all_contents (entries : list html) (nm : Py.str)
    (at_ : list (Py.str * Py.str)) (cs : list html) :
  append_all entries (HTag nm at_ cs) = HTag nm at_ (cs ++ entries).
Proof.
  revert cs. induction entries as [|e entries IH]; intros cs.
  - simpl. now rewrite app_nil_r.
  - rewrite append_all_cons. simpl. rewrite IH, <- app_assoc. reflexivity.
Qed.

(** The loop over [items] appends one entry per item, in order. *)
Lemma items_loop_ok (its : list node) :
  forall i container,
  exists entries,
    length entries = length its
    /\ items_loop i its container = Ok (append_all entries container).
Proof.
  induction its as [|it its IH]; intros i container.
  - exists []. split; reflexivity.
  - simpl. destruct (add_entry_ok i it container) as (e & He). rewrite He.
    simpl bind. destruct (IH (S i) (Html.append e container)) as (es & L & H).
    exists (e :: es). rewrite H, append_all_cons. simpl. auto.
Qed.

(** The loop over [pairs] appends one entry per pair, in order. *)
Lemma pairs_loop_ok (ps : list (node * node)) :
  forall i f container,
  exists entries,
    length entries = length ps
    /\ pairs_loop i ps f container = Ok (append_all entries container).
Proof.
  induction ps as [|[r s] ps IH]; intros i f container.
  - exists []. split; reflexivity.
  - cbn [pairs_loop]. destruct (make_wrapper r s f) as [w f']. cbv beta iota.
    destruct (add_entry_ok i w container) as (e & He). rewrite He.
    simpl bind. destruct (IH (S i) f' (Html.append e container)) as (es & L & H).
    exists (e :: es). rewrite H, append_all_cons. simpl. auto.
Qed.

Lemma fill_container_ok (soup_xml : node) (container : html) :
  exists container', fill_container soup_xml container = Ok container'.
Proof.
  unfold fill_container.
  destruct (is_empty (items soup_xml)).
  - destruct (negb (is_empty (pairs soup_xml))); [|eauto].
    destruct (pairs_loop_ok (pairs soup_xml) 1 [soup_xml] container) as (es & _ & H).
    eauto.
  - destruct (items_loop_ok (items soup_xml) 1 container) as (es & _ & H). eauto.
Qed.

(** ** The command line *)

Section CommandLine.

Variable xml_parser : Py.str -> result node.

Lemma script_usage (argv : list Py.str) (w : world) :
  length argv <> 3 ->
  script xml_parser argv w = (Raise (SystemExit 1), print usage w).
Proof.
  intros H. unfold script.
  destruct (Nat.eqb_spec (length argv) 3); [contradiction|reflexivity].
Qed.

Lemma script_success (prog infile outfile xml : Py.str) (soup_xml : node)
    (w : world) :
  read_text w infile = Ok xml ->
  xml_parser xml = Ok soup_xml ->
  can_write w outfile = true ->
  exists container,
    fill_container soup_xml empty_container = Ok container
    /\ script xml_parser [prog; infile; outfile] w
       = (Ok tt,
          print (Py.lit "Wrote " ++ outfile)
            (write_file outfile (Html.decode_document (html_soup container))
               (log_open outfile (log_open infile w)))).
Proof.
  intros Hr Hp Hw.
  destruct (fill_container_ok soup_xml empty_container) as (c & Hc).
  exists c. split; [exact Hc|].
  unfold script. cbn [length Nat.eqb negb nth].
  change (read_text (log_open infile w) infile) with (read_text w infile).
  rewrite Hr, Hp, Hc.
  change (can_write (log_open outfile (log_open infile w)) outfile)
    with (can_write w outfile).
  rewrite Hw. reflexivity.
Qed.

(** C4, as the code has it.  With an argument count other than two the
    program prints the usage message on standard output, opens and writes
    no file, leaves standard error untouched and exits with status 1.
    With two arguments, an input that can be read and parsed and an output
    that can be opened, it exits with status 0, writes the output file and
    prints [Wrote <outfile>] on standard output. *)
Theorem main_exit_status (argv : list Py.str) (w : world) :
  (length argv <> 3 ->
   exists w',
     main xml_parser argv w = (1%Z, w')
     /\ stdout w' = stdout w ++ usage ++ [LF]
     /\ stderr w' = stderr w
     /\ opened w' = opened w
     /\ written w' = written w)
  /\ (forall prog infile outfile xml soup_xml,
        argv = [prog; infile; outfile] ->
        read_text w infile = Ok xml ->
        xml_parser xml = Ok soup_xml ->
        can_write w outfile = true ->
        exists w' text,
          main xml_parser argv w = (0%Z, w')
          /\ stdout w' = stdout w ++ (Py.lit "Wrote " ++ outfile) ++ [LF]
          /\ stderr w' = stderr w
          /\ written w' = (outfile, text) :: written w).
Proof.
  split.
  - intros H. exists (print usage w). unfold main.
    rewrite (@script_usage argv w H). repeat split.
  - intros prog infile outfile xml soup_xml -> Hr Hp Hw.
    destruct (@script_success prog infile outfile xml soup_xml w Hr Hp Hw)
      as (c & _ & H).
    eexists _, _. unfold main. rewrite H. repeat split.
Qed.

End CommandLine.

Lemma main_exit_status_witness :
  let parser := fun _ : Py.str => Ok (Tag 0 (Py.lit "[document]") [] []) in
  let w := mk_world (fun _ => Ok []) (fun _ => true) [] [] [] [] in
  (exists w', main parser [Py.lit "parse_xml.py"] w = (1%Z, w')
              /\ stdout w' = usage ++ [LF] /\ opened w' = [])
  /\ (exists w', main parser [Py.lit "parse_xml.py"; Py.lit "in.xml"; Py.lit "out.html"] w
                 = (0%Z, w')
                 /\ stdout w' = Py.lit "Wrote out.html" ++ [LF]).
Proof.
  intros parser w. split.
  - destruct (proj1 (@main_exit_status parser [Py.lit "parse_xml.py"] w))
      as (w' & H & Ho & _ & Hf & _).
    + simpl. lia.
    + exists w'. repeat split; assumption.
  - destruct (proj2 (@main_exit_status parser
                       [Py.lit "parse_xml.py"; Py.lit "in.xml"; Py.lit "out.html"] w)
                (Py.lit "parse_xml.py") (Py.lit "in.xml") (Py.lit "out.html")
                [] (Tag 0 (Py.lit "[document]") [] [])
                eq_refl eq_refl eq_refl eq_refl)
      as (w' & text & H & Ho & _).
    exists w'. split; assumption.
Defined.

(** C4 as stated fails: run with one argument, the program leaves
    standard error as it was and prints the usage message on standard
    output. *)
Lemma usage_on_stdout_counterexample :
  let parser := fun _ : Py.str => Ok (Tag 0 (Py.lit "[document]") [] []) in
  let w := mk_world (fun _ => Ok []) (fun _ => true) [] [] [] [] in
  let r := main parser [Py.lit "parse_xml.py"; Py.lit "in.xml"] w in
  fst r = 1%Z
  /\ stderr (snd r) = []
  /\ stdout (snd r) = usage ++ [LF].
Proof. cbv zeta. repeat split. Qed.

(** ** Identities in a forest under [extract] and [append] *)

Unset Implicit Arguments.

Lemma node_forall_ind (P : node -> Prop) :
  (forall c s, P (Str c s)) ->
  (forall i nm at_ cs, Forall P cs -> P (Tag i nm at_ cs)) ->
  forall n, P n.
Proof.
  intros HS HT. fix IH 1. intros [c s|i nm at_ cs]; [apply HS|apply HT].
  induction cs as [|c cs IHcs]; [constructor|constructor; [apply IH|exact IHcs]].
Qed.

Lemma tags_Tag (i : nat) (nm : Py.str) (at_ : list (Py.str * Py.str))
    (cs : list node) :
  Soup.tags (Tag i nm at_ cs) = (i, nm) :: Soup.forest_tags cs.
Proof. reflexivity. Qed.

Lemma lookup_Tag (i j : nat) (nm : Py.str) (at_ : list (Py.str * Py.str))
    (cs : list node) :
  Soup.lookup i (Tag j nm at_ cs)
  = if Nat.eqb i j then Some (Tag j nm at_ cs) else Soup.lookup_forest i cs.
Proof.
  simpl. destruct (Nat.eqb i j); [reflexivity|].
  induction cs as [|c cs IH]; simpl; [reflexivity|].
  now rewrite IH.
Qed.

Lemma detach_Tag (i j : nat) (nm : Py.str) (at_ : list (Py.str * Py.str))
    (cs : list node) :
  Soup.detach i (Tag j nm at_ cs) = Tag j nm at_ (Soup.detach_forest i cs).
Proof.
  simpl. f_equal. induction cs as [|c cs IH]; simpl; [reflexivity|].
  now rewrite IH.
Qed.

Lemma descendants_Tag (i : nat) (nm : Py.str) (at_ : list (Py.str * Py.str))
    (cs : list node) :
  Soup.descendants (Tag i nm at_ cs)
  = flat_map (fun c => c :: Soup.descendants c) cs.
Proof.
  simpl. induction cs as [|c cs IH]; simpl; [reflexivity|].
  now rewrite <- IH.
Qed.

Lemma forest_tags_cons (n : node) (f : forest) :
  Soup.forest_tags (n :: f) = Soup.tags n ++ Soup.forest_tags f.
Proof. reflexivity. Qed.

Lemma forest_ids_cons (n : node) (f : forest) :
  Soup.forest_ids (n :: f) = Soup.ids n ++ Soup.forest_ids f.
Proof. unfold Soup.forest_ids, Soup.ids. rewrite forest_tags_cons. apply map_app. Qed.

Lemma has_id_in_ids (i : nat) (n : node) :
  Soup.has_id i n = true -> In i (Soup.ids n).
Proof.
  destruct n as [c s|j nm at_ cs]; simpl; [discriminate|].
  intros H. apply Nat.eqb_eq in H. auto.
Qed.

(** An identity that does not occur is neither found nor detached. *)
Lemma absent_id (i : nat) (n : node) :
  ~ In i (Soup.ids n) ->
  Soup.lookup i n = None /\ Soup.detach i n = n /\ Soup.has_id i n = false.
Proof.
  induction n as [c s|j nm at_ cs IH] using node_forall_ind; intros H.
  - repeat split.
  - unfold Soup.ids in H. rewrite tags_Tag in H. simpl in H.
    assert (Hij : Nat.eqb i j = false) by (apply Nat.eqb_neq; intuition).
    assert (Hcs : ~ In i (Soup.forest_ids cs)) by (unfold Soup.forest_ids; intuition).
    rewrite lookup_Tag, detach_Tag, Hij. simpl Soup.has_id. rewrite Hij.
    clear H Hij.
    assert (G : Soup.lookup_forest i cs = None /\ Soup.detach_forest i cs = cs).
    { induction IH as [|c cs Hc _ IHcs]; [split; reflexivity|].
      rewrite forest_ids_cons, in_app_iff in Hcs.
      destruct Hc as (L & D & I); [intuition|].
      destruct IHcs as (L' & D'); [intuition|].
      simpl. rewrite L, I, D, L', D'. split; reflexivity. }
    destruct G as (L & D). rewrite L, D. repeat split.
Qed.

Lemma absent_id_forest (i : nat) (f : forest) :
  ~ In i (Soup.forest_ids f) ->
  Soup.lookup_forest i f = None /\ Soup.detach_forest i f = f.
Proof.
  induction f as [|n f IH]; intros H; [split; reflexivity|].
  rewrite forest_ids_cons, in_app_iff in H.
  destruct (absent_id i n) as (L & D & I); [intuition|].
  destruct IH as (L' & D'); [intuition|].
  simpl. rewrite L, I, D, L', D'. split; reflexivity.
Qed.

Lemma absent_id_attach (w : nat) (child n : node) :
  ~ In w (Soup.ids n) -> Soup.attach w child n = n.
Proof.
  induction n as [c s|j nm at_ cs IH] using node_forall_ind; intros H;
    [reflexivity|].
  unfold Soup.ids in H. rewrite tags_Tag in H. simpl in H.
  assert (Hij : Nat.eqb w j = false) by (apply Nat.eqb_neq; intuition).
  assert (Hcs : ~ In w (Soup.forest_ids cs)) by (unfold Soup.forest_ids; intuition).
  simpl. rewrite Hij. f_equal. clear H Hij.
  induction IH as [|c cs Hc _ IHcs]; [reflexivity|].
  rewrite forest_ids_cons, in_app_iff in Hcs.
  simpl. rewrite Hc, IHcs; intuition.
Qed.

Lemma absent_id_attach_forest (w : nat) (child : node) (f : forest) :
  ~ In w (Soup.forest_ids f) -> map (Soup.attach w child) f = f.
Proof.
  induction f as [|n f IH]; intros H; [reflexivity|].
  rewrite forest_ids_cons, in_app_iff in H.
  simpl. rewrite absent_id_attach, IH; intuition.
Qed.

Lemma NoDup_fst_functional (A B : Type) (l : list (A * B)) (a : A) (b b' : B) :
  NoDup (map fst l) -> In (a, b) l -> In (a, b') l -> b = b'.
Proof.
  induction l as [|[x y] l IH]; simpl; [contradiction|].
  intros ND H H'. inversion ND as [|? ? Hx ND']; subst.
  destruct H as [H|H], H' as [H'|H'].
  - congruence.
  - inversion H; subst. exfalso. apply Hx.
    change a with (fst (a, b')). now apply in_map.
  - inversion H'; subst. exfalso. apply Hx.
    change a with (fst (a, b)). now apply in_map.
  - now apply IH.
Qed.

Lemma NoDup_app_parts (A : Type) (l1 l2 : list A) :
  NoDup (l1 ++ l2) ->
  NoDup l1 /\ NoDup l2 /\ (forall x, In x l1 -> ~ In x l2).
Proof.
  induction l1 as [|a l1 IH]; simpl; intros H.
  - repeat split; [constructor|exact H|contradiction].
  - inversion H as [|? ? Ha H']; subst. destruct (IH H') as (N1 & N2 & D).
    repeat split.
    + constructor; [|exact N1]. intros C. apply Ha, in_or_app. now left.
    + exact N2.
    + intros x [<-|Hx] C; [apply Ha, in_or_app; now right|exact (D x Hx C)].
Qed.

(** An element of a tree with distinct identities is found under its
    identity; detaching it removes exactly its own subtree. *)
Lemma lookup_detach (n : node) :
  forall i nm,
  NoDup (Soup.ids n) -> In (i, nm) (Soup.tags n) ->
  exists t,
    Soup.lookup i n = Some t
    /\ Soup.label t = Some (i, nm)
    /\ (Soup.has_id i n = true -> t = n)
    /\ (Soup.has_id i n = false ->
        Permutation (Soup.tags n) (Soup.tags t ++ Soup.tags (Soup.detach i n))).
Proof.
  induction n as [c s|j nm' at_ cs IH] using node_forall_ind; intros i nm ND HIn.
  - contradiction.
  - rewrite lookup_Tag, detach_Tag. simpl Soup.has_id.
    unfold Soup.ids in ND. rewrite tags_Tag in ND, HIn.
    destruct (Nat.eqb_spec i j) as [->|Hij].
    + exists (Tag j nm' at_ cs). repeat split; try discriminate.
      simpl. f_equal. f_equal.
      apply (NoDup_fst_functional _ _ _ j nm' nm ND); [now left|exact HIn].
    + destruct HIn as [E|HIn]; [congruence|].
      simpl in ND. inversion ND as [|? ? Hj ND']; subst.
      assert (G : exists t,
                 Soup.lookup_forest i cs = Some t
                 /\ Soup.label t = Some (i, nm)
                 /\ Permutation (Soup.forest_tags cs)
                      (Soup.tags t ++ Soup.forest_tags (Soup.detach_forest i cs))).
      { clear Hj ND. induction IH as [|c cs Hc _ IHcs]; [contradiction|].
        rewrite forest_tags_cons in HIn, ND'. rewrite map_app in ND'.
        destruct (NoDup_app_parts _ _ _ ND') as (N1 & N2 & D).
        apply in_app_or in HIn as [HIn|HIn].
        - assert (Hi : ~ In i (Soup.forest_ids cs)).
          { apply D. change i with (fst (i, nm)). now apply in_map. }
          destruct (absent_id_forest i cs Hi) as (_ & Df).
          destruct (Hc i nm N1 HIn) as (t & L & Lb & Hroot & Hsub).
          exists t. simpl. rewrite L. split; [reflexivity|]. split; [exact Lb|].
          destruct (Soup.has_id i c) eqn:Hid.
          + rewrite (Hroot eq_refl), Df. apply Permutation_refl.
          + rewrite forest_tags_cons, Df, app_assoc.
            apply Permutation_app_tail, Hsub. reflexivity.
        - assert (Hi : ~ In i (Soup.ids c)).
          { intros C. apply (D i C). change i with (fst (i, nm)). now apply in_map. }
          destruct (absent_id i c Hi) as (L & Dc & Hid).
          destruct (IHcs HIn N2) as (t & L' & Lb & Hp).
          exists t. simpl. rewrite L, Hid, Dc, L'. split; [reflexivity|].
          split; [exact Lb|].
          rewrite forest_tags_cons.
          apply (Permutation_trans (Permutation_app_head _ Hp)).
          rewrite !app_assoc. apply Permutation_app_tail, Permutation_app_comm. }
      destruct G as (t & L & Lb & Hp).
      exists t. repeat split; try assumption; try discriminate.
      intros _. rewrite tags_Tag. now apply Permutation_cons_app.
Qed.

Lemma fresh_absent (f : forest) : ~ In (Soup.fresh f) (Soup.forest_ids f).
Proof.
  unfold Soup.fresh. intros C.
  pose proof (proj1 (list_max_le (Soup.forest_ids f) (list_max (Soup.forest_ids f)))
                (Nat.le_refl _)) as F.
  rewrite Forall_forall in F. apply F in C. lia.
Qed.

Lemma lookup_detach_forest (f : forest) :
  forall i nm,
  NoDup (Soup.forest_ids f) -> In (i, nm) (Soup.forest_tags f) ->
  exists t,
    Soup.lookup_forest i f = Some t
    /\ Soup.label t = Some (i, nm)
    /\ Permutation (Soup.forest_tags f)
         (Soup.tags t ++ Soup.forest_tags (Soup.detach_forest i f)).
Proof.
  intros i nm ND HIn.
  destruct (@lookup_detach (Tag (Soup.fresh f) [] [] f) i nm)
    as (t & L & Lb & _ & Hp).
  - unfold Soup.ids. rewrite tags_Tag. simpl. constructor; [|exact ND].
    apply fresh_absent.
  - rewrite tags_Tag. now right.
  - assert (Hne : Nat.eqb i (Soup.fresh f) = false).
    { apply Nat.eqb_neq. intros ->. apply (fresh_absent f).
      change (Soup.fresh f) with (fst (Soup.fresh f, nm)). now apply in_map. }
    rewrite lookup_Tag, Hne in L. exists t. repeat split; try assumption.
    specialize (Hp Hne). rewrite detach_Tag, !tags_Tag in Hp.
    apply Permutation_cons_app_inv in Hp. exact Hp.
Qed.

Lemma forest_tags_app (f g : forest) :
  Soup.forest_tags (f ++ g) = Soup.forest_tags f ++ Soup.forest_tags g.
Proof. apply flat_map_app. Qed.

Lemma NoDup_ids_perm (l l' : list (nat * Py.str)) :
  Permutation l l' -> NoDup (map fst l) -> NoDup (map fst l').
Proof.
  intros P. apply Permutation_NoDup, Permutation_map, P.
Qed.

Lemma label_has_id (t : node) (i k : nat) (nm : Py.str) :
  Soup.label t = Some (i, nm) -> i <> k -> Soup.has_id k t = false.
Proof.
  destruct t as [c s|j nm' at_ cs]; simpl; [discriminate|].
  intros H Hik. injection H as -> ->. apply Nat.eqb_neq. congruence.
Qed.

Lemma label_detach (k : nat) (t : node) : Soup.label (Soup.detach k t) = Soup.label t.
Proof. destruct t; [reflexivity|]. rewrite detach_Tag. reflexivity. Qed.

(** [w.append(x)] for a parentless element [w]: [x] leaves its place in
    the forest and becomes the last child of [w]; no element is lost or
    duplicated. *)
Lemma append_to_root (w : nat) (wn : Py.str) (wa : list (Py.str * Py.str))
    (cs : list node) (f : forest) (x : node) (i : nat) (nm : Py.str) :
  NoDup (Soup.forest_ids (Tag w wn wa cs :: f)) ->
  Soup.label x = Some (i, nm) ->
  In (i, nm) (Soup.forest_tags (Tag w wn wa cs :: f)) ->
  i <> w ->
  exists t,
    Soup.label t = Some (i, nm)
    /\ Soup.append w x (Tag w wn wa cs :: f)
       = Tag w wn wa (Soup.detach_forest i cs ++ [t]) :: Soup.detach_forest i f
    /\ Permutation (Soup.forest_tags (Soup.append w x (Tag w wn wa cs :: f)))
                   (Soup.forest_tags (Tag w wn wa cs :: f)).
Proof.
  intros ND Lx HIn Hiw.
  destruct (lookup_detach_forest _ i nm ND HIn) as (t & L & Lt & Hp).
  assert (Hd : Soup.detach_forest i (Tag w wn wa cs :: f)
               = Tag w wn wa (Soup.detach_forest i cs) :: Soup.detach_forest i f).
  { cbn [Soup.detach_forest Soup.has_id].
    destruct (Nat.eqb_spec i w); [contradiction|]. now rewrite detach_Tag. }
  rewrite Hd in Hp.
  assert (ND' := NoDup_ids_perm _ _ Hp ND).
  assert (Hw : ~ In w (Soup.forest_ids (Soup.detach_forest i f))).
  { rewrite forest_tags_cons, tags_Tag, map_app in ND'.
    apply NoDup_app_parts in ND' as (_ & ND' & _).
    simpl in ND'. rewrite map_app in ND'. inversion ND' as [|? ? Hn _]; subst.
    intros C. apply Hn, in_or_app. now right. }
  assert (E : Soup.append w x (Tag w wn wa cs :: f)
              = Tag w wn wa (Soup.detach_forest i cs ++ [t]) :: Soup.detach_forest i f).
  { destruct x as [c s|i' nm' at_ xs]; [discriminate|].
    simpl in Lx. injection Lx as -> ->.
    unfold Soup.append, Soup.extract, Soup.deref. rewrite L, Hd.
    cbn [map Soup.attach]. rewrite Nat.eqb_refl.
    now rewrite (absent_id_attach_forest _ _ _ Hw). }
  exists t. split; [exact Lt|]. split; [exact E|].
  rewrite E. apply (fun P => Permutation_trans P (Permutation_sym Hp)).
  rewrite !forest_tags_cons, !tags_Tag, forest_tags_app. simpl.
  rewrite app_nil_r.
  apply Permutation_cons_app with (l1 := Soup.tags t).
  rewrite <- !app_assoc.
  apply Permutation_trans with
    (Soup.tags t ++ Soup.forest_tags (Soup.detach_forest i cs)
       ++ Soup.forest_tags (Soup.detach_forest i f)).
  - rewrite !app_assoc. apply Permutation_app_tail, Permutation_app_comm.
  - apply Permutation_refl.
Qed.

(** The wrapper made for a pair holds exactly the two elements of the
    pair, the request first; the forest keeps every element once. *)
Lemma make_wrapper_spec (r s : node) (f : forest) (i k : nat) (nr ns : Py.str) :
  NoDup (Soup.forest_ids f) ->
  Soup.label r = Some (i, nr) -> Soup.label s = Some (k, ns) ->
  In (i, nr) (Soup.forest_tags f) -> In (k, ns) (Soup.forest_tags f) ->
  i <> k ->
  exists r' s' f',
    make_wrapper r s f = (Tag (Soup.fresh f) (Py.lit "item") [] [r'; s'], f')
    /\ Soup.label r' = Some (i, nr)
    /\ Soup.label s' = Some (k, ns)
    /\ Permutation (Soup.forest_tags f')
         ((Soup.fresh f, Py.lit "item") :: Soup.forest_tags f).
Proof.
  intros ND Lr Ls Hr Hs Hik.
  set (w := Soup.fresh f).
  assert (Hw : ~ In w (Soup.forest_ids f)) by apply fresh_absent.
  assert (Hiw : i <> w).
  { intros ->. apply Hw. change w with (fst (w, nr)). now apply in_map. }
  assert (Hkw : k <> w).
  { intros ->. apply Hw. change w with (fst (w, ns)). now apply in_map. }
  assert (ND0 : NoDup (Soup.forest_ids (Tag w (Py.lit "item") [] [] :: f))).
  { rewrite forest_ids_cons. simpl. constructor; assumption. }
  destruct (@append_to_root w (Py.lit "item") [] [] f r i nr ND0 Lr)
    as (r1 & Lr1 & E1 & P1); [right; exact Hr|exact Hiw|].
  simpl Soup.detach_forest in E1 at 1. simpl app in E1.
  assert (ND1 : NoDup (Soup.forest_ids
                         (Tag w (Py.lit "item") [] [r1] :: Soup.detach_forest i f))).
  { rewrite <- E1. apply (NoDup_ids_perm _ _ (Permutation_sym P1) ND0). }
  assert (Hs1 : In (k, ns)
                  (Soup.forest_tags
                     (Tag w (Py.lit "item") [] [r1] :: Soup.detach_forest i f))).
  { rewrite <- E1. apply (Permutation_in _ (Permutation_sym P1)). right. exact Hs. }
  destruct (@append_to_root w (Py.lit "item") [] [r1] (Soup.detach_forest i f)
              s k ns ND1 Ls Hs1 Hkw)
    as (s1 & Ls1 & E2 & P2).
  assert (Hd : Soup.detach_forest k [r1] = [Soup.detach k r1]).
  { simpl. now rewrite (label_has_id r1 i k nr Lr1 Hik). }
  rewrite Hd in E2. simpl app in E2.
  exists (Soup.detach k r1), s1,
    (Tag w (Py.lit "item") [] [Soup.detach k r1; s1]
       :: Soup.detach_forest k (Soup.detach_forest i f)).
  split; [|split; [|split]].
  - unfold make_wrapper. fold w. cbv zeta. rewrite E1, E2.
    unfold Soup.deref. cbn [Soup.lookup_forest]. rewrite lookup_Tag, Nat.eqb_refl.
    reflexivity.
  - rewrite label_detach. exact Lr1.
  - exact Ls1.
  - rewrite <- E2. apply (Permutation_trans P2). rewrite <- E1. exact P1.
Qed.

(** ** Item extraction *)

Lemma eqb_eq (a b : Py.str) : Py.eqb a b = true <-> a = b.
Proof.
  revert b. induction a as [|x a IH]; intros [|y b]; simpl;
    try (split; [discriminate|discriminate]); [tauto|].
  rewrite andb_true_iff, N.eqb_eq, IH.
  split; [intros [-> ->]; reflexivity|intros H; injection H; auto].
Qed.

(** Every descendant element is among the tags of the tree. *)
Lemma descendants_tags (n : node) :
  forall x l, In x (Soup.descendants n) -> Soup.label x = Some l ->
              In l (Soup.tags n).
Proof.
  induction n as [c s|j nm at_ cs IH] using node_forall_ind; intros x l Hx Hl.
  - contradiction.
  - rewrite descendants_Tag in Hx. rewrite tags_Tag. right.
    induction IH as [|c cs Hc _ IHcs]; [contradiction|].
    rewrite forest_tags_cons. simpl in Hx. apply in_or_app.
    destruct Hx as [<-|Hx].
    + left. destruct c as [|i' nm' a' cs']; [discriminate|].
      rewrite tags_Tag. simpl in Hl. injection Hl as <-. now left.
    + apply in_app_or in Hx as [Hx|Hx]; [left; eapply Hc; eauto|right; auto].
Qed.

Lemma find_all_label (name : Py.str) (n x : node) :
  In x (Soup.find_all name n) ->
  exists i, Soup.label x = Some (i, name) /\ In (i, name) (Soup.tags n).
Proof.
  unfold Soup.find_all. rewrite filter_In. intros [Hd Hn].
  destruct x as [|i nm at_ cs]; [discriminate|].
  simpl in Hn. apply eqb_eq in Hn. subst nm.
  exists i. split; [reflexivity|].
  apply (descendants_tags n _ _ Hd). reflexivity.
Qed.

Lemma pairs_loop_wrappers (ps : list (node * node)) :
  forall i f container,
  pairs_loop i ps f container = items_loop i (wrappers ps f) container.
Proof.
  induction ps as [|[r s] ps IH]; intros i f container; [reflexivity|].
  cbn [pairs_loop wrappers]. destruct (make_wrapper r s f) as [w f'].
  cbn [items_loop]. destruct (add_entry i w container); simpl; [apply IH|reflexivity].
Qed.

Lemma wrappers_spec (ps : list (node * node)) :
  forall f,
  NoDup (Soup.forest_ids f) ->
  Forall (pair_in_forest f) ps ->
  Forall2 wraps ps (wrappers ps f).
Proof.
  induction ps as [|[r s] ps IH]; intros f ND HF; [constructor|].
  inversion HF as [|? ? (i & k & Lr & Ls & Hr & Hs) HF']; subst.
  simpl in Lr, Ls.
  assert (Hik : i <> k).
  { intros ->.
    assert (E : Py.lit "request" = Py.lit "response")
      by exact (NoDup_fst_functional _ _ _ k _ _ ND Hr Hs).
    discriminate E. }
  destruct (make_wrapper_spec r s f i k _ _ ND Lr Ls Hr Hs Hik)
    as (r' & s' & f' & E & Lr' & Ls' & P).
  cbn [wrappers]. rewrite E. constructor.
  - exists (Soup.fresh f), r', s'. simpl. unfold same_element.
    rewrite Lr, Ls, Lr', Ls'. repeat split; congruence.
  - apply IH.
    + apply (NoDup_ids_perm _ _ (Permutation_sym P)).
      simpl. constructor; [apply fresh_absent|exact ND].
    + rewrite Forall_forall in *. intros p Hp.
      destruct (HF' p Hp) as (i' & k' & ? & ? & ? & ?).
      exists i', k'. repeat split; try assumption;
        apply (Permutation_in _ (Permutation_sym P)); now right.
Qed.

(** C5.  If the document has [item] elements, [items] is exactly their
    list and the report is built from them alone; otherwise [items] is the
    concatenation of all [attackitem], then all [row], then all
    [requestitem] elements, each group in document order, and when that is
    not empty the report is built from it.  The report then holds one
    entry per element of [items], in order. *)
Theorem items_precedence (soup_xml : node) (container : html) :
  let item := Soup.find_all (Py.lit "item") soup_xml in
  let others :=
    Soup.find_all (Py.lit "attackitem") soup_xml
      ++ Soup.find_all (Py.lit "row") soup_xml
      ++ Soup.find_all (Py.lit "requestitem") soup_xml in
  (item <> [] -> items soup_xml = item)
  /\ (item = [] -> items soup_xml = others)
  /\ (items soup_xml <> [] ->
      fill_container soup_xml container = items_loop 1 (items soup_xml) container
      /\ exists entries,
           length entries = length (items soup_xml)
           /\ fill_container soup_xml container = Ok (append_all entries container)).
Proof.
  cbv zeta. unfold items at 1 2.
  destruct (Soup.find_all (Py.lit "item") soup_xml) as [|it its] eqn:E.
  - split; [congruence|]. split; [reflexivity|].
    intros H. unfold fill_container.
    destruct (items soup_xml) as [|x xs] eqn:Ei; [congruence|]. simpl is_empty.
    split; [reflexivity|]. apply items_loop_ok.
  - split; [reflexivity|]. split; [discriminate|].
    intros H. unfold fill_container.
    destruct (items soup_xml) as [|x xs] eqn:Ei; [congruence|]. simpl is_empty.
    split; [reflexivity|]. apply items_loop_ok.
Qed.

Lemma items_precedence_witness :
  let x := Tag 2 (Py.lit "item") [] [] in
  let y := Tag 3 (Py.lit "attackitem") [] [] in
  let z := Tag 4 (Py.lit "row") [] [] in
  items (Tag 0 (Py.lit "[document]") [] [Tag 1 (Py.lit "root") [] [y; x; z]]) = [x]
  /\ items (Tag 0 (Py.lit "[document]") [] [Tag 1 (Py.lit "root") [] [z; y]]) = [y; z].
Proof.
  intros x y z. split.
  - apply (proj1 (items_precedence
                    (Tag 0 (Py.lit "[document]") [] [Tag 1 (Py.lit "root") [] [y; x; z]])
                    empty_container)).
    discriminate.
  - apply (proj1 (proj2 (items_precedence
                    (Tag 0 (Py.lit "[document]") [] [Tag 1 (Py.lit "root") [] [z; y]])
                    empty_container))).
    reflexivity.
Defined.

Lemma nth_error_combine (A B : Type) (l : list A) (l' : list B) :
  forall k a b,
  nth_error l k = Some a -> nth_error l' k = Some b ->
  nth_error (combine l l') k = Some (a, b).
Proof.
  revert l'. induction l as [|x l IH]; intros [|y l'] [|k] a b; simpl;
    try discriminate; [congruence|apply IH].
Qed.

Lemma Forall2_nth_error (A B : Type) (P : A -> B -> Prop) (l : list A)
    (l' : list B) :
  Forall2 P l l' ->
  forall k a, nth_error l k = Some a ->
  exists b, nth_error l' k = Some b /\ P a b.
Proof.
  induction 1 as [|x y l l' Hxy _ IH]; intros [|k] a; simpl; try discriminate.
  - intros [= <-]. eauto.
  - apply IH.
Qed.

Lemma Forall2_length_eq (A B : Type) (P : A -> B -> Prop) (l : list A)
    (l' : list B) :
  Forall2 P l l' -> length l' = length l.
Proof. induction 1; simpl; congruence. Qed.

Lemma pairs_in_forest (soup_xml : node) :
  Forall (pair_in_forest [soup_xml]) (pairs soup_xml).
Proof.
  apply Forall_forall. intros [r s] H. unfold pairs in H.
  apply in_combine_l in H as Hr. apply in_combine_r in H as Hs.
  destruct (find_all_label _ _ _ Hr) as (i & Li & Ii).
  destruct (find_all_label _ _ _ Hs) as (k & Lk & Ik).
  exists i, k. simpl. rewrite app_nil_r. auto.
Qed.

(** ** The serialized document reads back as the tree that was built *)









Lemma eqb_refl (s : Py.str) : Py.eqb s s = true.
Proof. now apply eqb_eq. Qed.

























(** ** The trees built by the script are well formed *)









(** What [add_block] appends for a node: the block with the decoded
    payload in its [pre], then the note if the node has an encoding
    attribute. *)
Lemma add_block_shape (title_text : Py.str) (nd : node) (entry : html) :
  exists decoded k,
    extract_node_text (Some nd) = Ok (Some decoded, Some k)
    /\ add_block title_text (Some nd) entry
       = Ok (with_block (block_of title_text k decoded) nd entry).
Proof.
  destruct (extract_node_text_ok nd) as (d & k & H).
  exists d, k. split; [exact H|].
  unfold add_block, with_block. rewrite H. cbn [bind].
  destruct (Soup.get (Py.lit "encoding") nd) as [enc|]; cbn [opt_truthy].
  - destruct (Py.truthy enc); destruct k, entry; reflexivity.
  - destruct k, entry; reflexivity.
Qed.






(** ** The double-precision ratio test is exact on strings that fit in memory *)

Module FloatFacts.

Local Open Scope Z_scope.

Lemma digits_bounds (p : positive) :
  2 ^ (Zpos (digits2_pos p) - 1) <= Zpos p < 2 ^ Zpos (digits2_pos p).
Proof.
  induction p as [p IH|p IH|]; cbn [digits2_pos].
  - rewrite Pos2Z.inj_succ. replace (Z.succ (Zpos (digits2_pos p)) - 1) with (Z.succ (Zpos (digits2_pos p) - 1)) by lia.
    rewrite !Z.pow_succ_r by lia. lia.
  - rewrite Pos2Z.inj_succ. replace (Z.succ (Zpos (digits2_pos p)) - 1) with (Z.succ (Zpos (digits2_pos p) - 1)) by lia.
    rewrite !Z.pow_succ_r by lia. lia.
  - simpl. lia.
Qed.

Lemma digits_unique (p : positive) (k : Z) :
  2 ^ (k - 1) <= Zpos p < 2 ^ k -> Zpos (digits2_pos p) = k.
Proof.
  intros [H1 H2]. pose proof (digits_bounds p) as [B1 B2].
  assert (0 < k). { destruct (Z.ltb_spec 0 k); [lia|]. rewrite (Z.pow_neg_r 2 (k-1)) in H1 by lia. assert (2 ^ k <= 1); [|lia]. destruct (Z.eqb_spec k 0); [subst; simpl; lia|]. rewrite Z.pow_neg_r by lia. lia. }
  set (d := Zpos (digits2_pos p)) in *.
  destruct (Z.lt_trichotomy d k) as [L|[E|G]]; [|exact E|].
  - assert (2 ^ d <= 2 ^ (k - 1)) by (apply Z.pow_le_mono_r; lia). lia.
  - assert (2 ^ k <= 2 ^ (d - 1)) by (apply Z.pow_le_mono_r; lia). lia.
Qed.

Lemma iter_xO (k p : positive) : Zpos (Pos.iter xO p k) = Zpos p * 2 ^ Zpos k.
Proof.
  revert p. induction k using Pos.peano_ind; intros p.
  - simpl. lia.
  - rewrite Pos.iter_succ, Pos2Z.inj_succ, Z.pow_succ_r by lia.
    rewrite Pos2Z.inj_xO, IHk. lia.
Qed.

Lemma fexp_normal (x : Z) : -1021 <= x -> fexp 53 1024 x = x - 53.
Proof. intros H. unfold fexp, emin. lia. Qed.

Lemma shr_fexp_53 (m : positive) (e : Z) (l : location) :
  Zpos (digits2_pos m) = 53 -> -1074 <= e ->
  shr_fexp 53 1024 (Zpos m) e l = (shr_record_of_loc (Zpos m) l, e).
Proof.
  intros Hd He. unfold shr_fexp. cbn [Zdigits2]. rewrite Hd.
  rewrite fexp_normal by lia.
  replace (53 + e - 53 - e) with 0 by lia. reflexivity.
Qed.

Lemma shr_fexp_54 (m : positive) (e : Z) (l : location) :
  Zpos (digits2_pos m) = 54 -> -1074 <= e ->
  shr_fexp 53 1024 (Zpos m) e l = (shr_1 (shr_record_of_loc (Zpos m) l), e + 1).
Proof.
  intros Hd He. unfold shr_fexp. cbn [Zdigits2]. rewrite Hd.
  rewrite fexp_normal by lia.
  replace (54 + e - 53 - e) with 1 by lia. reflexivity.
Qed.

Lemma loc_roundtrip (m : Z) (l : location) :
  (match l with loc_Exact => True | loc_Inexact c => True end) ->
  loc_of_shr_record (shr_record_of_loc m l) = l /\ shr_m (shr_record_of_loc m l) = m.
Proof. intros _. destruct l as [|[| |]]; split; reflexivity. Qed.

Lemma round_normal (m : positive) (e : Z) :
  Zpos (digits2_pos m) = 53 -> -1074 <= e <= 971 ->
  binary_round_aux 53 1024 false (Zpos m) e loc_Exact = S754_finite false m e.
Proof.
  intros Hd He. unfold binary_round_aux.
  rewrite shr_fexp_53 by (assumption || lia). cbn [shr_record_of_loc shr_m loc_of_shr_record round_nearest_even].
  rewrite shr_fexp_53 by (assumption || lia). cbn [shr_record_of_loc shr_m].
  destruct (Z.leb_spec e (1024 - 53)); [reflexivity|lia].
Qed.

Lemma of_int_pos (p : positive) :
  Zpos p < 2 ^ 53 ->
  exists m, Float.of_int (Zpos p) = S754_finite false m (Zpos (digits2_pos p) - 53)
            /\ Zpos (digits2_pos m) = 53
            /\ Zpos m = Zpos p * 2 ^ (53 - Zpos (digits2_pos p)).
Proof.
  intros Hp. pose proof (digits_bounds p) as [B1 B2].
  set (d := Zpos (digits2_pos p)) in *.
  assert (Hd : 1 <= d <= 53).
  { split; [unfold d; lia|].
    destruct (Z.leb_spec d 53); [assumption|].
    assert (2 ^ 53 <= 2 ^ (d - 1)) by (apply Z.pow_le_mono_r; lia). lia. }
  unfold Float.of_int, binary_normalize, binary_round, Float.prec, Float.emax.
  replace (Zpos (digits2_pos p) + 0) with d by (unfold d; lia).
  rewrite fexp_normal by lia. unfold shl_align.
  destruct (Z.eqb_spec d 53) as [E|NE].
  - rewrite E. cbn [Z.sub Z.add Z.opp Z.pos_sub]. simpl Z.sub.
    exists p. rewrite round_normal by (fold d; lia). rewrite Z.mul_1_r. auto.
  - destruct (d - 53 - 0) as [|q|q] eqn:Eq; try lia.
    exists (Pos.iter xO p q).
    assert (Hm : Zpos (Pos.iter xO p q) = Zpos p * 2 ^ (53 - d)).
    { rewrite iter_xO. f_equal. f_equal. lia. }
    assert (Hdig : Zpos (digits2_pos (Pos.iter xO p q)) = 53).
    { apply digits_unique. rewrite Hm.
      replace (2 ^ (53 - 1)) with (2 ^ (d - 1) * 2 ^ (53 - d)) by (rewrite <- Z.pow_add_r by lia; f_equal; lia).
      replace (2 ^ 53) with (2 ^ d * 2 ^ (53 - d)) by (rewrite <- Z.pow_add_r by lia; f_equal; lia).
      assert (0 < 2 ^ (53 - d)) by (apply Z.pow_pos_nonneg; lia). nia. }
    rewrite round_normal by (assumption || lia). auto.
Qed.

Ltac pow2 :=
  change (2 ^ 52) with 4503599627370496 in *;
  change (2 ^ 53) with 9007199254740992 in *;
  change (2 ^ 54) with 18014398509481984 in *.

Lemma new_location_spec (B r : Z) :
  new_location B r = if r =? 0 then loc_Exact else loc_Inexact (2 * r ?= B).
Proof.
  unfold new_location, new_location_even, new_location_odd.
  destruct (Z.even B) eqn:E; [reflexivity|].
  destruct (r =? 0); [reflexivity|]. f_equal.
  assert (Ho : Z.odd B = true) by (rewrite <- Z.negb_even, E; reflexivity).
  apply Z.odd_spec in Ho as [k Hk].
  destruct (Z.compare_spec (2 * r + 1) B), (Z.compare_spec (2 * r) B); try reflexivity; lia.
Qed.

Lemma div_normal (mv mn : positive) (ev en : Z) :
  Zpos (digits2_pos mv) = 53 -> Zpos (digits2_pos mn) = 53 ->
  -100 <= ev - en <= 100 ->
  SFdiv 53 1024 (S754_finite false mv ev) (S754_finite false mn en)
  = binary_round_aux 53 1024 false
      (fst (Z.div_eucl (Zpos mv * 2 ^ 53) (Zpos mn))) (ev - en - 53)
      (new_location (Zpos mn) (snd (Z.div_eucl (Zpos mv * 2 ^ 53) (Zpos mn)))).
Proof.
  intros Hv Hn He. unfold SFdiv, SFdiv_core_binary. cbn [Zdigits2 xorb].
  rewrite Hv, Hn.
  replace (53 + ev - (53 + en)) with (ev - en) by lia.
  rewrite fexp_normal by lia.
  rewrite Z.min_l by lia.
  replace (ev - en - (ev - en - 53)) with 53 by lia.
  rewrite Z.shiftl_mul_pow2 by lia.
  destruct (Z.div_eucl (Zpos mv * 2 ^ 53) (Zpos mn)) as [q r]. reflexivity.
Qed.

Lemma shr_1_spec (pq : positive) (l : location) :
  2 <= Zpos pq ->
  shr_1 (shr_record_of_loc (Zpos pq) l)
  = Build_shr_record (Zpos pq / 2) (Z.odd (Zpos pq))
      (match l with loc_Exact => false | _ => true end).
Proof.
  intros H. destruct pq as [p|p|]; [| |lia].
  - replace (Zpos p~1 / 2) with (Zpos p)
      by (apply Z.div_unique with 1; lia).
    destruct l as [|[| |]]; reflexivity.
  - replace (Zpos p~0 / 2) with (Zpos p)
      by (apply Z.div_unique with 0; lia).
    destruct l as [|[| |]]; reflexivity.
Qed.

(** The second rounding step, on a mantissa of 53 bits or on [2^53]. *)
Lemma round_tail (m1 e : Z) :
  2 ^ 52 <= m1 <= 2 ^ 53 -> -1074 <= e <= 960 ->
  (let '(mrs, e') := shr_fexp 53 1024 m1 e loc_Exact in
   match shr_m mrs with
   | 0 => S754_zero false
   | Zpos m => if e' <=? 1024 - 53 then S754_finite false m e' else S754_infinity false
   | Zneg _ => S754_nan
   end)
  = if m1 <? 2 ^ 53 then S754_finite false (Z.to_pos m1) e
    else S754_finite false (Z.to_pos (2 ^ 52)) (e + 1).
Proof.
  intros Hm He. destruct m1 as [|pm|pm]; try lia.
  destruct (Z.ltb_spec (Zpos pm) (2 ^ 53)).
  - rewrite shr_fexp_53 by (try lia; apply digits_unique; lia).
    cbn [shr_record_of_loc shr_m]. destruct (Z.leb_spec e (1024 - 53)); [reflexivity|lia].
  - assert (E : Zpos pm = 2 ^ 53) by lia. 
    assert (E' : pm = Z.to_pos (2 ^ 53)) by (rewrite <- E; reflexivity).
    rewrite E'.
    rewrite shr_fexp_54 by (try lia; reflexivity).
    cbn [shr_record_of_loc shr_m]. 
    destruct (Z.leb_spec (e + 1) (1024 - 53)); [reflexivity|lia].
Qed.

Lemma bra_53 (q e : Z) (l : location) :
  2 ^ 52 <= q < 2 ^ 53 -> -1074 <= e <= 960 ->
  binary_round_aux 53 1024 false q e l
  = let m1 := round_nearest_even q l in
    if m1 <? 2 ^ 53 then S754_finite false (Z.to_pos m1) e
    else S754_finite false (Z.to_pos (2 ^ 52)) (e + 1).
Proof.
  intros Hq He. destruct q as [|pq|pq]; try lia.
  unfold binary_round_aux.
  rewrite shr_fexp_53 by (try lia; apply digits_unique; lia).
  destruct (loc_roundtrip (Zpos pq) l) as [-> ->]; [destruct l; exact I|].
  apply round_tail; [|lia].
  destruct l as [|[| |]]; cbn [round_nearest_even]; try lia.
  destruct (Z.even (Zpos pq)); lia.
Qed.

Lemma bra_54 (q e : Z) (l : location) :
  2 ^ 53 <= q < 2 ^ 54 -> -1074 <= e <= 900 ->
  binary_round_aux 53 1024 false q e l
  = let m1 := round_nearest_even (q / 2)
                (loc_of_shr_record
                   (Build_shr_record (q / 2) (Z.odd q)
                      (match l with loc_Exact => false | _ => true end))) in
    if m1 <? 2 ^ 53 then S754_finite false (Z.to_pos m1) (e + 1)
    else S754_finite false (Z.to_pos (2 ^ 52)) (e + 2).
Proof.
  intros Hq He. destruct q as [|pq|pq]; try lia.
  unfold binary_round_aux.
  rewrite shr_fexp_54 by (try lia; apply digits_unique; lia).
  rewrite shr_1_spec by lia. cbn [shr_m].
  replace (e + 2) with (e + 1 + 1) by lia.
  apply round_tail; [|lia].
  assert (2 ^ 52 <= Zpos pq / 2 < 2 ^ 53).
  { pow2. split; [apply Z.div_le_lower_bound; lia|apply Z.div_lt_upper_bound; lia]. }
  destruct (Z.odd (Zpos pq)), l as [|[| |]]; cbn [loc_of_shr_record round_nearest_even]; try lia;
  destruct (Z.even (Zpos pq / 2)); lia.
Qed.

Lemma gt_lit (m : positive) (e : Z) :
  Float.gt (S754_finite false m e) Float.lit_0_9
  = if e =? -53 then Float.M0 <? Zpos m else -53 <? e.
Proof.
  unfold Float.gt, Float.lit_0_9, SFltb, SFcompare.
  destruct (Z.compare_spec (-53) e) as [E|L|G].
  - subst e. cbn [Z.eqb]. simpl Z.eqb.
    change (Pos.compare_cont Eq 8106479329266893 m) with (Pos.compare 8106479329266893 m).
    unfold Float.M0, Z.ltb. simpl Z.compare. destruct (Pos.compare 8106479329266893 m); reflexivity.
  - destruct (Z.eqb_spec e (-53)); [lia|]. destruct (Z.ltb_spec (-53) e); [reflexivity|lia].
  - destruct (Z.eqb_spec e (-53)); [lia|]. destruct (Z.ltb_spec (-53) e); [lia|reflexivity].
Qed.

(** The rounded quotient, from the remainder of the division. *)
Lemma rne_new_location (q B r : Z) :
  0 <= r < B ->
  let m1 := round_nearest_even q (new_location B r) in
  (2 * r < B -> m1 = q) /\ (B < 2 * r -> m1 = q + 1) /\ q <= m1 <= q + 1.
Proof.
  intros Hr. rewrite new_location_spec. cbv zeta.
  destruct (Z.eqb_spec r 0) as [->|Hn]; cbn [round_nearest_even]; [lia|].
  destruct (Z.compare_spec (2 * r) B); cbn [round_nearest_even]; try lia.
  destruct (Z.even q); lia.
Qed.

Lemma gt_bra_53 (q e : Z) (l : location) :
  2 ^ 52 <= q < 2 ^ 53 -> -1074 <= e <= 960 ->
  q <= round_nearest_even q l <= q + 1 ->
  Float.gt (binary_round_aux 53 1024 false q e l) Float.lit_0_9
  = if round_nearest_even q l <? 2 ^ 53
    then (if e =? -53 then Float.M0 <? round_nearest_even q l else -53 <? e)
    else (if e + 1 =? -53 then false else -53 <? e + 1).
Proof.
  intros Hq He Hm. rewrite bra_53 by assumption. cbv zeta.
  destruct (round_nearest_even q l <? 2 ^ 53).
  - rewrite gt_lit. rewrite Z2Pos.id by (pow2; lia). reflexivity.
  - rewrite gt_lit. destruct (e + 1 =? -53); reflexivity.
Qed.

Lemma gt_bra_54 (q e : Z) (l : location) :
  2 ^ 53 <= q < 2 ^ 54 -> -1074 <= e <= 900 ->
  let m1 := round_nearest_even (q / 2)
              (loc_of_shr_record
                 (Build_shr_record (q / 2) (Z.odd q)
                    (match l with loc_Exact => false | _ => true end))) in
  q / 2 <= m1 <= q / 2 + 1 ->
  Float.gt (binary_round_aux 53 1024 false q e l) Float.lit_0_9
  = if m1 <? 2 ^ 53
    then (if e + 1 =? -53 then Float.M0 <? m1 else -53 <? e + 1)
    else (if e + 2 =? -53 then false else -53 <? e + 2).
Proof.
  intros Hq He m1 Hm. rewrite bra_54 by assumption. cbv zeta. fold m1.
  assert (2 ^ 52 <= q / 2).
  { pow2. apply Z.div_le_lower_bound; lia. }
  destruct (m1 <? 2 ^ 53).
  - rewrite gt_lit. rewrite Z2Pos.id by (pow2; lia). reflexivity.
  - rewrite gt_lit. destruct (e + 2 =? -53); reflexivity.
Qed.

Lemma rne_shifted (q B r : Z) :
  0 <= r < B ->
  let m1 := round_nearest_even (q / 2)
              (loc_of_shr_record
                 (Build_shr_record (q / 2) (Z.odd q)
                    (match new_location B r with loc_Exact => false | _ => true end))) in
  q / 2 <= m1 <= q / 2 + 1
  /\ (Z.odd q = false -> m1 = q / 2)
  /\ (Z.odd q = true -> 0 < r -> m1 = q / 2 + 1).
Proof.
  intros Hr. rewrite new_location_spec. cbv zeta.
  destruct (Z.eqb_spec r 0) as [->|Hn];
    destruct (Z.odd q); cbn [loc_of_shr_record round_nearest_even];
    repeat split; try lia; try discriminate;
    destruct (Z.even (q / 2)); lia.
Qed.

(** The comparison on normalised operands: [A] and [B] are the 53-bit
    mantissas, [D] the difference of the exponents. *)
Lemma gt_quotient (A B D : Z) :
  2 ^ 52 <= A < 2 ^ 53 -> 2 ^ 52 <= B < 2 ^ 53 -> 0 <= D <= 60 ->
  A <= B * 2 ^ D ->
  (9 * (B * 2 ^ D) < 10 * A -> 9 * (B * 2 ^ D) + 8 * 2 ^ D <= 10 * A) ->
  Float.gt
    (binary_round_aux 53 1024 false ((A * 2 ^ 53) / B) (- D - 53)
       (new_location B ((A * 2 ^ 53) mod B)))
    Float.lit_0_9
  = (9 * (B * 2 ^ D) <? 10 * A).
Proof.
  intros HA HB HD Hle Hgap.
  pose proof (Z.div_mod (A * 2 ^ 53) B ltac:(pow2; lia)) as Hdm.
  pose proof (Z.mod_pos_bound (A * 2 ^ 53) B ltac:(pow2; lia)) as Hr.
  set (q := (A * 2 ^ 53) / B) in *. set (r := (A * 2 ^ 53) mod B) in *.
  assert (Hq : 2 ^ 52 <= q < 2 ^ 54).
  { pow2. nia. }
  assert (HT : D = 0 /\ 2 ^ D = 1 \/ D = 1 /\ 2 ^ D = 2 \/ 2 <= D /\ 4 <= 2 ^ D).
  { destruct (Z.eq_dec D 0) as [->|]; [left; split; reflexivity|].
    destruct (Z.eq_dec D 1) as [->|]; [right; left; split; reflexivity|].
    right; right. split; [lia|]. change 4 with (2 ^ 2). apply Z.pow_le_mono_r; lia. }
  destruct (Z.ltb_spec q (2 ^ 53)) as [Hq53|Hq54].
  - (* a quotient of 53 bits: A < B *)
    destruct (rne_new_location q B r Hr) as (Hlt & Hgt & Hm).
    rewrite gt_bra_53 by (try lia; assumption).
    set (m1 := round_nearest_even q (new_location B r)) in *.
    assert (HAB : A < B) by (pow2; nia).
    destruct HT as [[-> HT]|[[-> HT]|[HD2 HT]]].
    + (* D = 0 *)
      rewrite HT in *. cbn [Z.opp Z.sub Z.eqb]. simpl (- 0 - 53 =? -53).
      destruct (Z.ltb_spec (9 * (B * 1)) (10 * A)) as [Hgt1|Hle1].
      * specialize (Hgap Hgt1).
        assert (q = Float.M0 /\ B < 2 * r \/ Float.M0 < q).
        { unfold Float.M0. pow2. nia. }
        destruct (Z.ltb_spec m1 (2 ^ 53)); [|reflexivity].
        destruct (Z.ltb_spec Float.M0 m1); [reflexivity|]. unfold Float.M0 in *. pow2. lia.
      * assert (q < Float.M0) by (unfold Float.M0; pow2; nia).
        destruct (Z.ltb_spec m1 (2 ^ 53)); [|unfold Float.M0 in *; pow2; lia].
        destruct (Z.ltb_spec Float.M0 m1); [lia|reflexivity].
    + (* D = 1 *)
      rewrite HT in *. simpl (- (1) - 53 =? -53). simpl (-(1) - 53 + 1 =? -53).
      destruct (Z.ltb_spec (9 * (B * 2)) (10 * A)); [lia|].
      destruct (m1 <? 2 ^ 53); reflexivity.
    + destruct (Z.ltb_spec (9 * (B * 2 ^ D)) (10 * A)); [pow2; nia|].
      destruct (Z.eqb_spec (- D - 53) (-53)); [lia|].
      destruct (Z.eqb_spec (- D - 53 + 1) (-53)); [lia|].
      destruct (Z.ltb_spec (-53) (- D - 53)); [lia|].
      destruct (Z.ltb_spec (-53) (- D - 53 + 1)); [lia|].
      destruct (m1 <? 2 ^ 53); reflexivity.
  - (* 54-bit quotient: B <= A *)
    destruct (rne_shifted q B r Hr) as (Hm & Heven & Hodd).
    rewrite gt_bra_54 by (try lia; assumption).
    set (m1 := round_nearest_even (q / 2) _) in *.
    assert (HAB : B <= A) by (pow2; nia).
    pose proof (Z.div_mod q 2 ltac:(lia)) as Hq2.
    pose proof (Z.mod_pos_bound q 2 ltac:(lia)) as Hb.
    assert (Hoddq : Z.odd q = negb (q mod 2 =? 0)).
    { rewrite Zodd_mod. destruct (Z.eqb_spec (q mod 2) 1), (Z.eqb_spec (q mod 2) 0); try reflexivity; lia. }
    set (p := q / 2) in *. set (b := q mod 2) in *.
    destruct HT as [[-> HT]|[[-> HT]|[HD2 HT]]].
    + (* D = 0: A = B, the quotient is one *)
      rewrite HT in *. assert (A = B) by lia. subst A.
      assert (q = 2 ^ 53 /\ r = 0) by (pow2; nia).
      destruct (Z.ltb_spec (9 * (B * 1)) (10 * B)); [|pow2; lia].
      simpl (- 0 - 53 + 1 =? -53). simpl (-53 <? - 0 - 53 + 1).
      simpl (- 0 - 53 + 2 =? -53). simpl (-53 <? - 0 - 53 + 2).
      destruct (m1 <? 2 ^ 53); reflexivity.
    + (* D = 1 *)
      rewrite HT in *. simpl (- (1) - 53 + 1 =? -53). simpl (- (1) - 53 + 2 =? -53).
      simpl (-53 <? - (1) - 53 + 2).
      destruct (Z.ltb_spec (9 * (B * 2)) (10 * A)) as [Hgt1|Hle1].
      * specialize (Hgap Hgt1).
        assert (p = Float.M0 /\ b = 1 /\ 0 < r \/ Float.M0 < p).
        { unfold Float.M0. pow2. nia. }
        destruct (Z.ltb_spec m1 (2 ^ 53)); [|reflexivity].
        destruct (Z.ltb_spec Float.M0 m1); [reflexivity|].
        assert (Hpb : p = Float.M0 /\ b = 1 /\ 0 < r) by lia.
        assert (Ho : Z.odd q = true).
        { rewrite Hoddq. destruct (Z.eqb_spec b 0); [lia|reflexivity]. }
        pose proof (Hodd Ho ltac:(lia)). lia.
      * assert (p < Float.M0) by (unfold Float.M0; pow2; nia).
        destruct (Z.ltb_spec m1 (2 ^ 53)); [|unfold Float.M0 in *; pow2; lia].
        destruct (Z.ltb_spec Float.M0 m1); [lia|reflexivity].
    + destruct (Z.ltb_spec (9 * (B * 2 ^ D)) (10 * A)); [pow2; nia|].
      destruct (Z.eqb_spec (- D - 53 + 1) (-53)); [lia|].
      destruct (Z.ltb_spec (-53) (- D - 53 + 1)); [lia|].
      destruct (Z.ltb_spec (-53) (- D - 53 + 2)); [lia|].
      destruct (m1 <? 2 ^ 53); [reflexivity|].
      destruct (- D - 53 + 2 =? -53); reflexivity.
Qed.

Lemma digits_le_50 (p : positive) :
  Zpos p < 2 ^ 50 -> 1 <= Zpos (digits2_pos p) <= 50.
Proof.
  intros H. pose proof (digits_bounds p) as [B1 _]. split; [lia|].
  destruct (Z.leb_spec (Zpos (digits2_pos p)) 50); [assumption|].
  assert (2 ^ 50 <= 2 ^ (Zpos (digits2_pos p) - 1)) by (apply Z.pow_le_mono_r; lia).
  lia.
Qed.

Lemma digits_mono (p q : positive) :
  Zpos p <= Zpos q -> Zpos (digits2_pos p) <= Zpos (digits2_pos q).
Proof.
  intros H. pose proof (digits_bounds p) as [B1 _]. pose proof (digits_bounds q) as [_ B2].
  destruct (Z.leb_spec (Zpos (digits2_pos p)) (Zpos (digits2_pos q))); [assumption|].
  assert (2 ^ Zpos (digits2_pos q) <= 2 ^ (Zpos (digits2_pos p) - 1))
    by (apply Z.pow_le_mono_r; lia).
  lia.
Qed.

Theorem truediv_gt_0_9 (v n : Z) :
  0 <= v <= n -> 0 < n < 2 ^ 50 ->
  Float.gt (Float.truediv v n) Float.lit_0_9 = (9 * n <? 10 * v).
Proof.
  intros Hv Hn. destruct n as [|pn|pn]; try lia.
  assert (Hn53 : Zpos pn < 2 ^ 53).
  { assert (2 ^ 50 < 2 ^ 53) by (apply Z.pow_lt_mono_r; lia). lia. }
  destruct (of_int_pos pn Hn53) as (mn & En & Dn & Mn).
  destruct v as [|pv|pv]; try lia.
  + unfold Float.truediv. rewrite En.
    destruct (Z.ltb_spec (9 * Zpos pn) (10 * 0)); [lia|reflexivity].
  + assert (Hv53 : Zpos pv < 2 ^ 53) by lia.
    destruct (of_int_pos pv Hv53) as (mv & Ev & Dv & Mv).
    pose proof (digits_le_50 pn ltac:(lia)) as Hdn.
    pose proof (digits_le_50 pv ltac:(lia)) as Hdv.
    pose proof (digits_mono pv pn ltac:(lia)) as Hmono.
    set (dv := Zpos (digits2_pos pv)) in *. set (dn := Zpos (digits2_pos pn)) in *.
    unfold Float.truediv, Float.prec, Float.emax. rewrite Ev, En.
    rewrite div_normal by (assumption || lia).
    change (fst (Z.div_eucl (Zpos mv * 2 ^ 53) (Zpos mn)))
      with ((Zpos mv * 2 ^ 53) / Zpos mn).
    change (snd (Z.div_eucl (Zpos mv * 2 ^ 53) (Zpos mn)))
      with ((Zpos mv * 2 ^ 53) mod Zpos mn).
    replace (dv - 53 - (dn - 53) - 53) with (- (dn - dv) - 53) by lia.
    pose proof (digits_bounds mv) as Bv. rewrite Dv in Bv.
    pose proof (digits_bounds mn) as Bn. rewrite Dn in Bn.
    change (53 - 1) with 52 in *.
    assert (Hpow : 2 ^ (53 - dv) = 2 ^ (53 - dn) * 2 ^ (dn - dv)).
    { rewrite <- Z.pow_add_r by lia. f_equal. lia. }
    assert (Hsb : 8 <= 2 ^ (53 - dn)).
    { change 8 with (2 ^ 3). apply Z.pow_le_mono_r; lia. }
    assert (HT : 0 < 2 ^ (dn - dv)) by (apply Z.pow_pos_nonneg; lia).
    set (T := 2 ^ (dn - dv)) in *. set (G := 2 ^ (53 - dn)) in *.
    assert (HX : 0 < G * T) by (apply Z.mul_pos_pos; lia).
    assert (HA : Zpos mv = Zpos pv * (G * T)) by (rewrite Mv, Hpow; reflexivity).
    assert (HB : Zpos mn * T = Zpos pn * (G * T)) by (rewrite Mn; ring).
    assert (HGT : 8 * T <= G * T) by (apply Z.mul_le_mono_nonneg_r; lia).
    set (X := G * T) in *.
    assert (Hiff : 9 * (Zpos mn * T) < 10 * Zpos mv <-> 9 * Zpos pn < 10 * Zpos pv).
    { rewrite HA, HB.
      replace (9 * (Zpos pn * X)) with (9 * Zpos pn * X) by ring.
      replace (10 * (Zpos pv * X)) with (10 * Zpos pv * X) by ring.
      symmetry. apply Z.mul_lt_mono_pos_r. exact HX. }
    rewrite (gt_quotient (Zpos mv) (Zpos mn) (dn - dv)).
    - fold T.
      destruct (Z.ltb_spec (9 * (Zpos mn * T)) (10 * Zpos mv)) as [H1|H1];
        destruct (Z.ltb_spec (9 * Zpos pn) (10 * Zpos pv)) as [H2|H2];
        try reflexivity; [apply Hiff in H1|apply Hiff in H2]; lia.
    - exact Bv.
    - exact Bn.
    - lia.
    - fold T. rewrite HA, HB. apply Z.mul_le_mono_nonneg_r; lia.
    - fold T. intros H. apply Hiff in H.
      assert (H' : (9 * Zpos pn + 1) * X <= 10 * Zpos pv * X)
        by (apply Z.mul_le_mono_nonneg_r; lia).
      rewrite HA, HB.
      replace (9 * (Zpos pn * X)) with (9 * Zpos pn * X) by ring.
      replace (10 * (Zpos pv * X)) with (10 * Zpos pv * X) by ring.
      replace ((9 * Zpos pn + 1) * X) with (9 * Zpos pn * X + X) in H' by ring.
      lia.
Qed.

End FloatFacts.

(** C2, as the code has it.  When the trimmed string passes the three
    preceding checks of the code, [is_likely_base64 s] is true exactly when
    the quotient of the number of Base64-alphabet characters of [s] by the
    length of the trimmed string, computed in double precision, exceeds
    the double [0.9]; for a trimmed string of fewer than [2^50] characters
    that is exactly when the number of Base64-alphabet characters is more
    than nine tenths of the length of the trimmed string. *)
Theorem is_likely_base64_ratio_over_trimmed (s : Py.str) :
  passes_gate (Py.strip s) = true ->
  (is_likely_base64 s = true
   <-> Float.gt (Float.truediv (Py.len (findall_b64 s)) (Py.len (Py.strip s)))
                Float.lit_0_9 = true)
  /\ ((Py.len (Py.strip s) < 2 ^ 50)%Z ->
      (is_likely_base64 s = true
       <-> (9 * Py.len (Py.strip s) < 10 * Py.len (findall_b64 s))%Z)).
Proof.
  intros H. rewrite is_likely_base64_unfold, H. cbn [andb]. split; [reflexivity|].
  intros Hlen.
  assert (Hpos : (8 <= Py.len (Py.strip s))%Z).
  { unfold passes_gate in H.
    apply andb_true_iff in H as [H _]. apply andb_true_iff in H as [H _].
    apply andb_true_iff in H as [_ H]. now apply Z.leb_le. }
  assert (Hcount : (0 <= Py.len (findall_b64 s) <= Py.len (Py.strip s))%Z).
  { rewrite <- findall_b64_strip. unfold Py.len, findall_b64. split; [lia|].
    apply Nat2Z.inj_le, filter_length_le. }
  rewrite FloatFacts.truediv_gt_0_9 by lia.
  apply Z.ltb_lt.
Qed.

Lemma is_likely_base64_ratio_over_trimmed_witness :
  passes_gate (Py.strip (Py.lit "AAAAAAAA  ")) = true
  /\ is_likely_base64 (Py.lit "AAAAAAAA  ") = true.
Proof.
  assert (G : passes_gate (Py.strip (Py.lit "AAAAAAAA  ")) = true)
    by (vm_compute; reflexivity).
  split; [exact G|].
  apply (proj2 (proj2 (is_likely_base64_ratio_over_trimmed (Py.lit "AAAAAAAA  ") G)
                  ltac:(vm_compute; reflexivity))).
  vm_compute. reflexivity.
Defined.

(** C2 as stated fails: eight Base64 characters followed by two spaces
    pass rules 1 to 3 after trimming and are classified as Base64, although
    only 8 of the 10 characters of the untrimmed string are in the
    alphabet, which is not more than 0.9 of them. *)
Lemma untrimmed_ratio_counterexample :
  let s := Py.lit "AAAAAAAA  " in
  rules_1_3 (Py.strip s) = true
  /\ passes_gate (Py.strip s) = true
  /\ is_likely_base64 s = true
  /\ Py.len (findall_b64 s) = 8%Z
  /\ Py.len s = 10%Z
  /\ ~ (9 * Py.len s < 10 * Py.len (findall_b64 s))%Z
  /\ Float.gt (Float.truediv (Py.len (findall_b64 s)) (Py.len s)) Float.lit_0_9
     = false.
Proof.
  cbv zeta. do 5 (split; [vm_compute; reflexivity|]).
  split; [vm_compute; intros H; discriminate H|vm_compute; reflexivity].
Qed.

(** ** When strict Base64 decoding fails *)

Lemma a2b_loop_pad_after_zero (data : list N) :
  forall l p out,
  a2b_loop data (mk_a2b 0 l p true) out
  = if forallb (fun c => (c =? BASE64_PAD)%N) data
    then Ok out else Raise BinasciiError.
Proof.
  induction data as [|c rest IH]; intros l p out; [reflexivity|].
  cbn [a2b_loop quad_pos padding_started leftchar pads forallb].
  destruct (c =? BASE64_PAD)%N; cbn [andb].
  - change (2 <=? 0)%N with false. cbv iota. apply IH.
  - destruct (b64_value c); reflexivity.
Qed.

Lemma a2b_loop_pad_after_one (data : list N) :
  forall l p out, a2b_loop data (mk_a2b 1 l p true) out = Raise BinasciiError.
Proof.
  induction data as [|c rest IH]; intros l p out; [reflexivity|].
  cbn [a2b_loop quad_pos padding_started leftchar pads].
  destruct (c =? BASE64_PAD)%N.
  - change (2 <=? 1)%N with false. cbv iota. apply IH.
  - destruct (b64_value c); reflexivity.
Qed.

Lemma a2b_loop_pad_after_two (data : list N) (l : N) (out : Py.bytes) :
  a2b_loop data (mk_a2b 2 l 1 true) out
  = if Py.eqb data [BASE64_PAD] then Ok out else Raise BinasciiError.
Proof.
  destruct data as [|c rest]; [reflexivity|].
  cbn [a2b_loop quad_pos padding_started leftchar pads Py.eqb].
  destruct (c =? BASE64_PAD)%N; cbn [andb].
  - change (2 <=? 2)%N with true. change (4 <=? 2 + (1 + 1))%N with true.
    cbv iota. destruct rest; reflexivity.
  - destruct (b64_value c); reflexivity.
Qed.

Lemma is_b64digit_not_pad (c : N) :
  is_b64digit c = true -> (c =? BASE64_PAD)%N = false.
Proof.
  intros H. destruct (c =? BASE64_PAD)%N eqn:E; [|reflexivity].
  apply N.eqb_eq in E. subst c. discriminate H.
Qed.

Lemma quad_cases (q : N) : (q < 4)%N -> q = 0%N \/ q = 1%N \/ q = 2%N \/ q = 3%N.
Proof. lia. Qed.

(** The loop over a run of digits: the position in the group advances,
    and nothing else is remembered but bits and bytes. *)
Lemma a2b_loop_digits (ds : list N) :
  forall q l out rest,
  forallb is_b64digit ds = true -> (q < 4)%N ->
  exists l' out',
    a2b_loop (ds ++ rest) (mk_a2b q l 0 false) out
    = a2b_loop rest (mk_a2b ((q + N.of_nat (length ds)) mod 4) l' 0 false) out'.
Proof.
  induction ds as [|c ds IH]; intros q l out rest F Hq.
  - exists l, out. cbn [app length]. change (N.of_nat 0) with 0%N.
    rewrite N.add_0_r, N.mod_small by exact Hq. reflexivity.
  - cbn [forallb] in F. apply andb_true_iff in F as [Hc F].
    cbn [app a2b_loop quad_pos padding_started leftchar pads].
    rewrite (is_b64digit_not_pad c Hc).
    unfold is_b64digit in Hc. destruct (b64_value c) as [v|]; [|discriminate Hc].
    assert (M : forall q', (q' < 4)%N -> ((q + 1) mod 4 = q')%N ->
                ((q + N.of_nat (length (c :: ds))) mod 4
                 = (q' + N.of_nat (length ds)) mod 4)%N).
    { intros q' H1 H2. cbn [length]. rewrite Nat2N.inj_succ.
      zify; Z.to_euclidean_division_equations; lia. }
    destruct (quad_cases q Hq) as [-> | [-> | [-> | ->]]]; cbv iota.
    + destruct (IH 1%N v out rest F) as [l' [out' E]]; [lia|].
      exists l', out'. rewrite (M 1%N) by (try reflexivity; lia). exact E.
    + destruct (IH 2%N (N.land v 15)
                  (out ++ [byte_of_N (N.lor (N.shiftl l 2) (N.shiftr v 4))]) rest F)
        as [l' [out' E]]; [lia|].
      exists l', out'. rewrite (M 2%N) by (try reflexivity; lia). exact E.
    + destruct (IH 3%N (N.land v 3)
                  (out ++ [byte_of_N (N.lor (N.shiftl l 4) (N.shiftr v 2))]) rest F)
        as [l' [out' E]]; [lia|].
      exists l', out'. rewrite (M 3%N) by (try reflexivity; lia). exact E.
    + destruct (IH 0%N 0%N
                  (out ++ [byte_of_N (N.lor (N.shiftl l 6) v)]) rest F)
        as [l' [out' E]]; [lia|].
      exists l', out'. rewrite (M 0%N) by (try reflexivity; lia). exact E.
Qed.

(** The loop over what follows the digits. *)
Lemma a2b_loop_tail (pad : list N) (q l : N) (out : Py.bytes) :
  (q < 4)%N ->
  match pad with
  | c :: _ => is_b64digit c = false
  | [] => True
  end ->
  a2b_loop pad (mk_a2b q l 0 false) out
  = if tail_ok q pad then Ok out else Raise BinasciiError.
Proof.
  intros Hq Hh. unfold tail_ok. destruct pad as [|c r].
  - cbn [a2b_loop quad_pos forallb length andb].
    destruct (quad_cases q Hq) as [-> | [-> | [-> | ->]]]; reflexivity.
  - cbn [a2b_loop quad_pos padding_started leftchar pads forallb length].
    destruct (c =? BASE64_PAD)%N; cbn [andb].
    + destruct (quad_cases q Hq) as [-> | [-> | [-> | ->]]].
      * change (2 <=? 0)%N with false. cbv iota.
        rewrite a2b_loop_pad_after_zero, andb_true_r. reflexivity.
      * change (2 <=? 1)%N with false. cbv iota.
        rewrite a2b_loop_pad_after_one, andb_false_r. reflexivity.
      * change (2 <=? 2)%N with true. change (4 <=? 2 + (0 + 1))%N with false.
        cbv iota. change (0 + 1)%N with 1%N. rewrite a2b_loop_pad_after_two.
        destruct r as [|d [|e r]]; cbn [Py.eqb forallb length Nat.eqb andb].
        -- reflexivity.
        -- rewrite !andb_true_r. reflexivity.
        -- rewrite !andb_false_r. reflexivity.
      * change (2 <=? 3)%N with true. change (4 <=? 3 + (0 + 1))%N with true.
        cbv iota. destruct r as [|d r]; cbn [forallb length Nat.eqb andb];
          [reflexivity|].
        rewrite andb_false_r. reflexivity.
    + unfold is_b64digit in Hh. destruct (b64_value c); [discriminate Hh|].
      reflexivity.
Qed.

Lemma digits_split (s : Py.str) :
  exists ds,
    s = ds ++ drop_digits s /\ forallb is_b64digit ds = true
    /\ length s = (length ds + length (drop_digits s))%nat
    /\ match drop_digits s with
       | c :: _ => is_b64digit c = false
       | [] => True
       end.
Proof.
  induction s as [|c s IH].
  - exists []. cbn. auto.
  - cbn [drop_digits]. destruct (is_b64digit c) eqn:D.
    + destruct IH as [ds [E [F [L H]]]]. exists (c :: ds).
      cbn [app forallb length]. rewrite D, F, <- E, L.
      split; [reflexivity|]. split; [reflexivity|]. split; [reflexivity|exact H].
    + exists []. cbn [app forallb length]. rewrite D. auto.
Qed.

Lemma a2b_loop_split (s : list N) :
  exists out,
    a2b_loop s a2b_init []
    = if tail_ok (N.of_nat (length s - length (drop_digits s)) mod 4)
                 (drop_digits s)
      then Ok out else Raise BinasciiError.
Proof.
  destruct (digits_split s) as [ds [E [F [L H]]]].
  destruct (a2b_loop_digits ds 0%N 0%N [] (drop_digits s) F) as [l' [out' D]];
    [lia|].
  exists out'.
  replace (length s - length (drop_digits s))%nat with (length ds) by lia.
  unfold a2b_init. rewrite <- E in D. rewrite D, N.add_0_l.
  apply a2b_loop_tail; [|exact H]. apply N.mod_lt. discriminate.
Qed.

Lemma a2b_base64_unfold (data : Py.bytes) :
  a2b_base64 data
  = if starts_with_pad (map Byte.to_N data) then Raise BinasciiError
    else a2b_loop (map Byte.to_N data) a2b_init [].
Proof.
  unfold a2b_base64, starts_with_pad.
  destruct (map Byte.to_N data) as [|c r]; reflexivity.
Qed.

Lemma encode_ascii_ok (s : Py.str) (bs : Py.bytes) :
  encode_ascii s = Ok bs -> map Byte.to_N bs = s.
Proof.
  revert bs. induction s as [|c s IH]; intros bs; cbn [encode_ascii].
  - intros H. injection H as <-. reflexivity.
  - destruct (c <? 128)%N eqn:E; [|discriminate].
    destruct (encode_ascii s) as [bs'|]; [|discriminate].
    cbn [bind]. intros H. injection H as <-. cbn [map].
    rewrite (IH bs' eq_refl). f_equal.
    apply to_N_byte_of_N. apply N.ltb_lt in E. lia.
Qed.

Lemma encode_ascii_small (s : Py.str) :
  forallb (fun c => c <? 128)%N s = true ->
  exists bs, encode_ascii s = Ok bs /\ map Byte.to_N bs = s.
Proof.
  induction s as [|c s IH]; cbn [forallb encode_ascii].
  - intros _. exists []. auto.
  - intros H. apply andb_true_iff in H as [Hc Hs]. rewrite Hc.
    destruct (IH Hs) as [bs [E1 E2]]. rewrite E1. cbn [bind].
    eexists; split; [reflexivity|]. cbn [map]. rewrite E2. f_equal.
    apply to_N_byte_of_N. apply N.ltb_lt in Hc. lia.
Qed.

Lemma encode_ascii_raise_char (s : Py.str) :
  forall e, encode_ascii s = Raise e -> exists c, In c s /\ (c <? 128)%N = false.
Proof.
  induction s as [|c s IH]; intros e; cbn [encode_ascii]; [discriminate|].
  destruct (c <? 128)%N eqn:E.
  - destruct (encode_ascii s) as [bs|e'] eqn:A; [discriminate|].
    intros _. destruct (IH e' eq_refl) as [d [Hd Sd]]. exists d.
    split; [right; exact Hd|exact Sd].
  - intros _. exists c. split; [left; reflexivity|exact E].
Qed.

Lemma is_b64digit_small (c : N) : is_b64digit c = true -> (c <? 128)%N = true.
Proof.
  unfold is_b64digit, b64_value. intros H. apply N.ltb_lt.
  destruct ((65 <=? c) && (c <=? 90))%N eqn:E1;
    [apply andb_true_iff in E1 as [_ E1]; apply N.leb_le in E1; lia|].
  destruct ((97 <=? c) && (c <=? 122))%N eqn:E2;
    [apply andb_true_iff in E2 as [_ E2]; apply N.leb_le in E2; lia|].
  destruct ((48 <=? c) && (c <=? 57))%N eqn:E3;
    [apply andb_true_iff in E3 as [_ E3]; apply N.leb_le in E3; lia|].
  destruct (c =? 43)%N eqn:E4; [apply N.eqb_eq in E4; lia|].
  destruct (c =? 47)%N eqn:E5; [apply N.eqb_eq in E5; lia|discriminate].
Qed.

Lemma In_drop_digits (c : N) (s : Py.str) :
  In c s -> is_b64digit c = false -> In c (drop_digits s).
Proof.
  induction s as [|x s IH]; [auto|]. cbn [drop_digits].
  intros [-> | H] D.
  - rewrite D. left. reflexivity.
  - destruct (is_b64digit x); [auto|right; exact H].
Qed.

Lemma forallb_false_In (A : Type) (f : A -> bool) (l : list A) (x : A) :
  In x l -> f x = false -> forallb f l = false.
Proof.
  intros Hx Hf. destruct (forallb f l) eqn:E; [|reflexivity].
  rewrite forallb_forall in E. rewrite (E x Hx) in Hf. discriminate Hf.
Qed.

(** A character that is neither a digit nor [=] is refused. *)
Lemma stranger_not_accepted (c : N) (s : Py.str) :
  In c s -> is_b64digit c = false -> c <> BASE64_PAD -> accepted_b64 s = false.
Proof.
  intros Hin D P. unfold accepted_b64, tail_ok.
  rewrite (@forallb_false_In N _ (drop_digits s) c (In_drop_digits c s Hin D)).
  - cbn [andb]. apply andb_false_r.
  - apply N.eqb_neq. exact P.
Qed.

(** Strict decoding succeeds on exactly the strings of [accepted_b64]. *)
Lemma b64decode_accepted (s : Py.str) :
  (exists b, b64decode s = Ok b) <-> accepted_b64 s = true.
Proof.
  unfold b64decode. destruct (encode_ascii s) as [data|e] eqn:A; cbn [bind].
  - rewrite a2b_base64_unfold, (encode_ascii_ok s data A). unfold accepted_b64.
    destruct (starts_with_pad s); cbn [negb andb].
    + split; [intros [b H]; discriminate H|discriminate].
    + destruct (a2b_loop_split s) as [out L]. rewrite L.
      destruct (tail_ok _ _); split; eauto; try discriminate.
      intros [b H]. discriminate H.
  - destruct (encode_ascii_raise_char s e A) as [c [Hc Sc]].
    assert (D : is_b64digit c = false).
    { destruct (is_b64digit c) eqn:D; [|reflexivity].
      rewrite (is_b64digit_small c D) in Sc. discriminate Sc. }
    assert (P : c <> BASE64_PAD) by (intros ->; discriminate Sc).
    rewrite (stranger_not_accepted c s Hc D P).
    split; [intros [b H]; discriminate H|discriminate].
Qed.

Lemma strict_b64_spec (s : Py.str) :
  strict_b64 s = true
  <-> (N.of_nat (length s) mod 4 = 0)%N /\ pad_ok (drop_digits s).
Proof.
  unfold strict_b64, pad_ok, Py.len. rewrite andb_true_iff, !orb_true_iff, !eqb_eq.
  rewrite Z.eqb_eq.
  assert (E : Z.of_nat (length s) = Z.of_N (N.of_nat (length s))) by lia.
  rewrite E. generalize (N.of_nat (length s)) as n. intros n.
  split; intros [H1 H2]; (split; [|tauto]);
    zify; Z.to_euclidean_division_equations; lia.
Qed.

(** The strings of RFC 4648 are accepted. *)
Lemma strict_accepted (s : Py.str) : strict_b64 s = true -> accepted_b64 s = true.
Proof.
  intros S. apply strict_b64_spec in S as [M P].
  destruct (digits_split s) as [ds [E [F [L H]]]].
  unfold accepted_b64.
  replace (length s - length (drop_digits s))%nat with (length ds) by lia.
  assert (Q : ((N.of_nat (length ds) + N.of_nat (length (drop_digits s))) mod 4 = 0)%N).
  { rewrite <- Nat2N.inj_add, <- L. exact M. }
  assert (T : starts_with_pad s = false).
  { destruct ds as [|c ds].
    - cbn [app] in E. rewrite <- E in P.
      destruct P as [P | [P | P]]; rewrite P in *;
        [reflexivity|discriminate M|discriminate M].
    - rewrite E. cbn [app starts_with_pad forallb] in *.
      apply andb_true_iff in F as [F _]. exact (is_b64digit_not_pad c F). }
  rewrite T. cbn [negb andb]. unfold tail_ok.
  destruct P as [P | [P | P]]; rewrite P in *; cbn [length forallb andb] in *.
  - change (N.of_nat 0) with 0%N in Q. rewrite N.add_0_r in Q. rewrite Q.
    reflexivity.
  - assert (X : (N.of_nat (length ds) mod 4 = 3)%N).
    { change (N.of_nat 1) with 1%N in Q.
      zify; Z.to_euclidean_division_equations; lia. }
    rewrite X. reflexivity.
  - assert (X : (N.of_nat (length ds) mod 4 = 2)%N).
    { change (N.of_nat 2) with 2%N in Q.
      zify; Z.to_euclidean_division_equations; lia. }
    rewrite X. reflexivity.
Qed.

Lemma b64decode_strict (s : Py.str) :
  strict_b64 s = true -> exists b, b64decode s = Ok b.
Proof. intros S. apply b64decode_accepted, strict_accepted, S. Qed.

Lemma foreign_not_digit (c : N) :
  is_b64char c = false -> is_b64digit c = false /\ c <> BASE64_PAD.
Proof.
  unfold is_b64char, is_b64digit, b64_value, BASE64_PAD. intros H.
  apply orb_false_iff in H as [H H6]. apply orb_false_iff in H as [H H5].
  apply orb_false_iff in H as [H H4]. apply orb_false_iff in H as [H H3].
  apply orb_false_iff in H as [H1 H2].
  rewrite H1, H2, H3, H4, H5. split; [reflexivity|].
  apply N.eqb_neq. exact H6.
Qed.

Lemma foreign_not_accepted (c : N) (s : Py.str) :
  In c s -> Py.isspace c = false -> is_b64char c = false ->
  accepted_b64 (sub_ws s) = false.
Proof.
  intros Hin Hs Hc. destruct (foreign_not_digit c Hc) as [D P].
  apply (stranger_not_accepted c); [|exact D|exact P].
  apply filter_In. rewrite Hs. auto.
Qed.

Lemma try_decode_base64_raw (s : Py.str) :
  accepted_b64 (sub_ws s) = false -> try_decode_base64 s = Ok (s, KRaw).
Proof.
  intros H.
  destruct (try_decode_base64_cases s) as [[b [t [E _]]] | [[b [E _]] | [e [_ E]]]].
  - assert (accepted_b64 (sub_ws s) = true) by (apply b64decode_accepted; eauto).
    congruence.
  - assert (accepted_b64 (sub_ws s) = true) by (apply b64decode_accepted; eauto).
    congruence.
  - exact E.
Qed.

(** X1.  The payloads shown as [raw] are exactly those whose text, with
    whitespace removed, [b64decode(validate=True)] refuses: a text in
    which something other than [=] follows the Base64 digits, or that
    starts with [=], or in which one digit is left over after the last
    group of four, or two digits without exactly two [=], or three without
    exactly one.  After whole groups of four any number of [=] is let
    through, so [AAAA=] decodes like [AAAA]; every string of RFC 4648
    decodes. *)
Theorem try_decode_base64_raw_iff_refused (s : Py.str) :
  (accepted_b64 (sub_ws s) = false -> try_decode_base64 s = Ok (s, KRaw))
  /\ (accepted_b64 (sub_ws s) = true ->
      exists t k, try_decode_base64 s = Ok (t, k) /\ k <> KRaw)
  /\ (strict_b64 (sub_ws s) = true -> accepted_b64 (sub_ws s) = true).
Proof.
  split; [apply try_decode_base64_raw|]. split; [|apply strict_accepted].
  intros H. apply b64decode_accepted in H as [b H].
  destruct (try_decode_base64_cases s) as [[b' [t [_ [_ E]]]] | [[b' [_ [_ E]]] | [e [E _]]]].
  - exists t, KText. split; [exact E|discriminate].
  - exists (bytes_hex b'), KHex. split; [exact E|discriminate].
  - congruence.
Qed.

Lemma try_decode_base64_raw_iff_refused_witness :
  try_decode_base64 (Py.lit "aGVsbG8") = Ok (Py.lit "aGVsbG8", KRaw)
  /\ try_decode_base64 (Py.lit "=AAA") = Ok (Py.lit "=AAA", KRaw)
  /\ (exists t k, try_decode_base64 (Py.lit "aGVs bG8=") = Ok (t, k) /\ k <> KRaw)
  /\ (exists t k, try_decode_base64 (Py.lit "AAAA=") = Ok (t, k) /\ k <> KRaw).
Proof.
  split; [|split; [|split]].
  - apply (proj1 (try_decode_base64_raw_iff_refused (Py.lit "aGVsbG8"))).
    vm_compute. reflexivity.
  - apply (proj1 (try_decode_base64_raw_iff_refused (Py.lit "=AAA"))).
    vm_compute. reflexivity.
  - apply (proj1 (proj2 (try_decode_base64_raw_iff_refused (Py.lit "aGVs bG8=")))).
    vm_compute. reflexivity.
  - apply (proj1 (proj2 (try_decode_base64_raw_iff_refused (Py.lit "AAAA=")))).
    vm_compute. reflexivity.
Defined.

(** X2.  A payload with a character that is neither whitespace nor in
    [[A-Za-z0-9+/=]] comes back unchanged, with kind [raw]. *)
Theorem try_decode_base64_foreign_char (s : Py.str) (c : N) :
  In c s -> Py.isspace c = false -> is_b64char c = false ->
  try_decode_base64 s = Ok (s, KRaw).
Proof.
  intros Hin Hs Hc. apply try_decode_base64_raw.
  exact (foreign_not_accepted c s Hin Hs Hc).
Qed.

Lemma try_decode_base64_foreign_char_witness :
  try_decode_base64 (Py.lit "not-base64-data!!") = Ok (Py.lit "not-base64-data!!", KRaw).
Proof.
  apply (try_decode_base64_foreign_char (Py.lit "not-base64-data!!") 45%N).
  - vm_compute. tauto.
  - reflexivity.
  - reflexivity.
Defined.

(** ** What the heuristic rejects, and what it does not look at *)

Lemma passes_gate_chars (t : Py.str) :
  passes_gate t = true ->
  (8 <= Py.len t)%Z /\ forallb (fun c => is_b64char c || Py.isspace c) t = true.
Proof.
  unfold passes_gate, fullmatch_b64_ws. intros H.
  apply andb_true_iff in H as [H _]. apply andb_true_iff in H as [H F].
  apply andb_true_iff in H as [_ L]. apply andb_true_iff in F as [_ F].
  split; [apply Z.leb_le; exact L|].
  rewrite forallb_forall in *. intros c Hc. specialize (F c Hc).
  destruct (is_b64char c); [reflexivity|]. destruct (Py.isspace c) eqn:S; [reflexivity|].
  cbn [orb] in F. apply orb_true_iff in F as [F | F]; apply N.eqb_eq in F;
    subst c; discriminate S.
Qed.

Lemma In_strip (c : N) (s : Py.str) :
  In c s -> Py.isspace c = false -> In c (Py.strip s).
Proof.
  intros Hin Hs. destruct (strip_decompose s) as [a [b [E [Ha Hb]]]].
  rewrite E in Hin. rewrite forallb_forall in Ha, Hb.
  apply in_app_or in Hin as [Hin | Hin]; [apply Ha in Hin; congruence|].
  apply in_app_or in Hin as [Hin | Hin]; [exact Hin|apply Hb in Hin; congruence].
Qed.

Lemma is_likely_base64_chars (s : Py.str) :
  is_likely_base64 s = true ->
  (8 <= Py.len (Py.strip s))%Z
  /\ forall c, In c s -> Py.isspace c = false -> is_b64char c = true.
Proof.
  rewrite is_likely_base64_unfold. intros H. apply andb_true_iff in H as [H _].
  apply passes_gate_chars in H as [L F]. split; [exact L|].
  intros c Hin Hs. rewrite forallb_forall in F.
  specialize (F c (In_strip c s Hin Hs)). rewrite Hs, orb_false_r in F. exact F.
Qed.

(** X3.  [is_likely_base64] returns [False] for a string that is shorter
    than 8 characters once trimmed (the empty and the whitespace-only
    strings among them), and for a string with a character that is neither
    whitespace nor in [[A-Za-z0-9+/=]]. *)
Theorem is_likely_base64_rejects (s : Py.str) :
  (Py.len (Py.strip s) < 8)%Z
  \/ (exists c, In c s /\ Py.isspace c = false /\ is_b64char c = false) ->
  is_likely_base64 s = false.
Proof.
  intros H. destruct (is_likely_base64 s) eqn:E; [|reflexivity].
  apply is_likely_base64_chars in E as [L F].
  destruct H as [H | [c [Hin [Hs Hc]]]]; [lia|].
  rewrite (F c Hin Hs) in Hc. discriminate Hc.
Qed.

Lemma is_likely_base64_rejects_witness :
  is_likely_base64 (Py.lit "  aGk=  ") = false
  /\ is_likely_base64 (Py.lit "not-base64-data!!") = false.
Proof.
  split.
  - apply is_likely_base64_rejects. left. vm_compute. reflexivity.
  - apply is_likely_base64_rejects. right. exists 45%N.
    split; [vm_compute; tauto|split; reflexivity].
Defined.

Lemma lstrip_app_space (a x : Py.str) :
  forallb Py.isspace a = true -> Py.lstrip (a ++ x) = Py.lstrip x.
Proof.
  induction a as [|c a IH]; [reflexivity|]. cbn [forallb app Py.lstrip].
  intros H. apply andb_true_iff in H as [Hc Ha]. rewrite Hc. exact (IH Ha).
Qed.

Lemma lstrip_space (x : Py.str) :
  forallb Py.isspace x = true <-> Py.lstrip x = [].
Proof.
  induction x as [|c x IH]; cbn [forallb Py.lstrip]; [tauto|].
  destruct (Py.isspace c); cbn [andb]; [exact IH|].
  split; discriminate.
Qed.

Lemma lstrip_app (x b : Py.str) :
  Py.lstrip x <> [] -> Py.lstrip (x ++ b) = Py.lstrip x ++ b.
Proof.
  induction x as [|c x IH]; cbn [app Py.lstrip]; [congruence|].
  destruct (Py.isspace c); [exact IH|reflexivity].
Qed.

Lemma forallb_rev_iff (A : Type) (f : A -> bool) (l : list A) :
  forallb f (rev l) = true <-> forallb f l = true.
Proof.
  rewrite !forallb_forall. split; intros H x Hx; apply H;
    [apply -> in_rev|apply <- in_rev]; exact Hx.
Qed.

Lemma rstrip_app_space (x b : Py.str) :
  forallb Py.isspace b = true -> Py.rstrip (x ++ b) = Py.rstrip x.
Proof.
  intros H. unfold Py.rstrip. rewrite rev_app_distr, lstrip_app_space; [reflexivity|].
  apply forallb_rev_iff. exact H.
Qed.

Lemma strip_surrounding (a s b : Py.str) :
  forallb Py.isspace a = true -> forallb Py.isspace b = true ->
  Py.strip (a ++ s ++ b) = Py.strip s.
Proof.
  intros Ha Hb. unfold Py.strip. rewrite (lstrip_app_space a (s ++ b) Ha).
  destruct (Py.lstrip s) as [|c r] eqn:E.
  - assert (F : forallb Py.isspace (s ++ b) = true).
    { rewrite forallb_app. apply andb_true_iff. split; [|exact Hb].
      apply lstrip_space. exact E. }
    apply lstrip_space in F. rewrite F. reflexivity.
  - rewrite lstrip_app by congruence. rewrite E. apply rstrip_app_space. exact Hb.
Qed.

(** X4.  Whitespace around a string has no part in the verdict of
    [is_likely_base64]. *)
Theorem is_likely_base64_ignores_margins (a s b : Py.str) :
  forallb Py.isspace a = true -> forallb Py.isspace b = true ->
  is_likely_base64 (a ++ s ++ b) = is_likely_base64 s.
Proof.
  intros Ha Hb. rewrite !is_likely_base64_unfold.
  rewrite <- (findall_b64_strip (a ++ s ++ b)), <- (findall_b64_strip s).
  rewrite (strip_surrounding a s b Ha Hb). reflexivity.
Qed.

Lemma is_likely_base64_ignores_margins_witness :
  is_likely_base64 ([LF; SPACE] ++ Py.lit "aGVsbG8=" ++ [CR; LF])
  = is_likely_base64 (Py.lit "aGVsbG8=").
Proof.
  apply is_likely_base64_ignores_margins; reflexivity.
Defined.

(** ** Decoding of declared and of plain payloads *)

Lemma try_decode_base64_of_encoding (s : Py.str) (b : Py.bytes) :
  sub_ws s = b64encode b ->
  try_decode_base64 s
  = Ok (match utf8_decode (map Byte.to_N b) with
        | Some t => (t, KText)
        | None => (bytes_hex b, KHex)
        end).
Proof.
  intros H. unfold try_decode_base64. rewrite H, b64decode_b64encode.
  unfold try_except, try_catch, bytes_decode_utf8. cbn [bind].
  destruct (utf8_decode (map Byte.to_N b)); reflexivity.
Qed.

(** X5.  Whitespace anywhere in a payload, line breaks inside the Base64
    text included, is dropped before decoding: a string that is the
    standard Base64 encoding of [b] once its whitespace is removed decodes
    as that encoding does. *)
Theorem try_decode_base64_wrapped (s : Py.str) (b : Py.bytes) :
  sub_ws s = b64encode b ->
  try_decode_base64 s = try_decode_base64 (b64encode b)
  /\ try_decode_base64 s
     = Ok (match utf8_decode (map Byte.to_N b) with
           | Some t => (t, KText)
           | None => (bytes_hex b, KHex)
           end).
Proof.
  intros H. rewrite (try_decode_base64_of_encoding s b H). split; [|reflexivity].
  symmetry. apply try_decode_base64_of_encoding.
  apply sub_ws_plain_ascii, b64encode_plain_ascii.
Qed.

Lemma try_decode_base64_wrapped_witness :
  try_decode_base64 (Py.lit " aGVs" ++ [CR; LF; 9%N] ++ Py.lit "bG8=" ++ [LF])
  = Ok (Py.lit "hello", KText).
Proof.
  apply (proj2 (try_decode_base64_wrapped
                  (Py.lit " aGVs" ++ [CR; LF; 9%N] ++ Py.lit "bG8=" ++ [LF])
                  [x68; x65; x6c; x6c; x6f] eq_refl)).
Defined.

Lemma add_block_of (title_text : Py.str) (nd : node) (entry : html)
    (decoded : Py.str) (k : kind) :
  extract_node_text (Some nd) = Ok (Some decoded, Some k) ->
  add_block title_text (Some nd) entry
  = Ok (with_block (block_of title_text k decoded) nd entry).
Proof.
  intros H. destruct (add_block_shape title_text nd entry) as [d [k' [E1 E2]]].
  rewrite E2. rewrite H in E1. injection E1 as -> ->. reflexivity.
Qed.

(** X6.  A node without a Base64 declaration whose text is too short for
    Base64, or has a character outside the Base64 alphabet and whitespace,
    is shown as it is, trimmed, in a block without badge. *)
Theorem plain_payload_is_shown_trimmed (nd : node) (title_text : Py.str)
    (entry : html) :
  let raw := Soup.joined_strings nd in
  declares_base64 nd = false ->
  (Py.len (Py.strip raw) < 8)%Z
  \/ (exists c, In c raw /\ Py.isspace c = false /\ is_b64char c = false) ->
  extract_node_text (Some nd) = Ok (Some (Py.strip raw), Some KText)
  /\ add_block title_text (Some nd) entry
     = Ok (with_block (plain_block title_text (Py.strip raw)) nd entry).
Proof.
  intros raw Hd Hr.
  assert (L : is_likely_base64 raw = false).
  { destruct (is_likely_base64 raw) eqn:E; [|reflexivity].
    apply is_likely_base64_chars in E as [L F].
    destruct Hr as [Hr | [c [Hin [Hs Hc]]]]; [lia|].
    rewrite (F c Hin Hs) in Hc. discriminate Hc. }
  assert (X : extract_node_text (Some nd) = Ok (Some (Py.strip raw), Some KText)).
  { unfold extract_node_text. fold (declares_base64 nd). rewrite Hd.
    fold raw. rewrite L. reflexivity. }
  split; [exact X|]. apply (add_block_of title_text nd entry _ _ X).
Qed.

Lemma plain_payload_is_shown_trimmed_witness :
  let nd := Tag 1 (Py.lit "request") []
              [Str NavigableString (Py.lit " not-base64-"); Str CData (Py.lit "data!! ")] in
  extract_node_text (Some nd) = Ok (Some (Py.lit "not-base64-data!!"), Some KText).
Proof.
  refine (proj1 (plain_payload_is_shown_trimmed
                   (Tag 1 (Py.lit "request") []
                      [Str NavigableString (Py.lit " not-base64-");
                       Str CData (Py.lit "data!! ")])
                   (Py.lit "Request") empty_container eq_refl _)).
  right. exists 45%N. split; [vm_compute; tauto|split; reflexivity].
Defined.

(** X7.  A node that declares [encoding="base64"], in any letter case, is
    decoded whatever the heuristic would say: when its text is the Base64
    encoding of [b], with or without whitespace, the block shows the UTF-8
    text of [b] without badge, or the hexadecimal form of [b] with the
    badge [hex], followed by the note that quotes the attribute. *)
Theorem declared_base64_is_decoded (nd : node) (enc : Py.str) (b : Py.bytes)
    (title_text : Py.str) (entry : html) :
  Soup.get (Py.lit "encoding") nd = Some enc ->
  Py.lower enc = Py.lit "base64" ->
  sub_ws (Soup.joined_strings nd) = b64encode b ->
  let '(t, k) := match utf8_decode (map Byte.to_N b) with
                 | Some t => (t, KText)
                 | None => (bytes_hex b, KHex)
                 end in
  extract_node_text (Some nd) = Ok (Some t, Some k)
  /\ add_block title_text (Some nd) entry
     = Ok (Html.append (encoding_note enc)
             (Html.append (block_of title_text k t) entry)).
Proof.
  intros Hget Hlow Hb.
  assert (Htr : Py.truthy enc = true).
  { destruct enc; [discriminate Hlow|reflexivity]. }
  pose proof (try_decode_base64_of_encoding (Soup.joined_strings nd) b Hb) as D.
  destruct (match utf8_decode (map Byte.to_N b) with
            | Some t => (t, KText)
            | None => (bytes_hex b, KHex)
            end) as [t k].
  assert (X : extract_node_text (Some nd) = Ok (Some t, Some k)).
  { unfold extract_node_text. rewrite Hget. cbn [opt_truthy].
    rewrite Htr, Hlow. cbn [Py.eqb andb]. change (Py.eqb (Py.lit "base64") (Py.lit "base64")) with true.
    cbv iota. rewrite D. reflexivity. }
  split; [exact X|]. rewrite (add_block_of title_text nd entry t k X).
  unfold with_block. rewrite Hget, Htr. reflexivity.
Qed.

Lemma declared_base64_is_decoded_witness :
  let nd := Tag 1 (Py.lit "request") [(Py.lit "encoding", Py.lit "Base64")]
              [Str NavigableString (Py.lit "aGk=")] in
  is_likely_base64 (Soup.joined_strings nd) = false
  /\ extract_node_text (Some nd) = Ok (Some (Py.lit "hi"), Some KText).
Proof.
  split; [vm_compute; reflexivity|].
  exact (proj1 (declared_base64_is_decoded
                  (Tag 1 (Py.lit "request") [(Py.lit "encoding", Py.lit "Base64")]
                     [Str NavigableString (Py.lit "aGk=")])
                  (Py.lit "Base64") [x68; x69] (Py.lit "Request") empty_container
                  eq_refl eq_refl eq_refl)).
Defined.

(** ** The UTF-8 decoder against the encoder *)

Ltac ndm := zify; Z.to_euclidean_division_equations; lia.

Lemma land_shiftl_small (x y k : N) :
  (y < 2 ^ k)%N -> N.land (N.shiftl x k) y = 0%N.
Proof.
  intros H. apply N.bits_inj_0. intros n. rewrite N.land_spec.
  destruct (N.ltb_spec n k) as [L | L].
  - rewrite N.shiftl_spec_low by exact L. reflexivity.
  - rewrite <- (N.mod_small y (2 ^ k) H), N.mod_pow2_bits_high by exact L.
    apply andb_false_r.
Qed.

Lemma lor_shiftl (x y k : N) :
  (y < 2 ^ k)%N -> N.lor (N.shiftl x k) y = (x * 2 ^ k + y)%N.
Proof.
  intros H. pose proof (land_shiftl_small x y k H) as L.
  rewrite <- N.lxor_lor by exact L.
  rewrite <- N.add_nocarry_lxor by exact L.
  rewrite N.shiftl_mul_pow2. reflexivity.
Qed.

Lemma cont_bits_mod (b : N) : cont_bits b = (b mod 64)%N.
Proof. unfold cont_bits. exact (N.land_ones b 6). Qed.

Lemma decoded_2 (b0 b1 : N) :
  N.lor (N.shiftl (N.land b0 31) 6) (cont_bits b1)
  = (b0 mod 32 * 64 + b1 mod 64)%N.
Proof.
  rewrite cont_bits_mod. change 31%N with (N.ones 5). rewrite N.land_ones.
  rewrite lor_shiftl; [reflexivity|]. change (2 ^ 6)%N with 64%N. ndm.
Qed.

Lemma decoded_3 (b0 b1 b2 : N) :
  N.lor (N.shiftl (N.land b0 15) 12)
    (N.lor (N.shiftl (cont_bits b1) 6) (cont_bits b2))
  = (b0 mod 16 * 4096 + b1 mod 64 * 64 + b2 mod 64)%N.
Proof.
  rewrite !cont_bits_mod. change 15%N with (N.ones 4). rewrite N.land_ones.
  rewrite (lor_shiftl (b1 mod 64) (b2 mod 64) 6)
    by (change (2 ^ 6)%N with 64%N; ndm).
  rewrite lor_shiftl; change (2 ^ 12)%N with 4096%N; change (2 ^ 6)%N with 64%N;
    change (2 ^ 4)%N with 16%N; ndm.
Qed.

Lemma decoded_4 (b0 b1 b2 b3 : N) :
  N.lor (N.shiftl (N.land b0 7) 18)
    (N.lor (N.shiftl (cont_bits b1) 12)
       (N.lor (N.shiftl (cont_bits b2) 6) (cont_bits b3)))
  = (b0 mod 8 * 262144 + b1 mod 64 * 4096 + b2 mod 64 * 64 + b3 mod 64)%N.
Proof.
  rewrite !cont_bits_mod. change 7%N with (N.ones 3). rewrite N.land_ones.
  rewrite (lor_shiftl (b2 mod 64) (b3 mod 64) 6)
    by (change (2 ^ 6)%N with 64%N; ndm).
  rewrite (lor_shiftl (b1 mod 64) _ 12)
    by (change (2 ^ 12)%N with 4096%N; change (2 ^ 6)%N with 64%N; ndm).
  rewrite lor_shiftl; change (2 ^ 18)%N with 262144%N;
    change (2 ^ 12)%N with 4096%N; change (2 ^ 6)%N with 64%N;
    change (2 ^ 3)%N with 8%N; ndm.
Qed.

(** Settles a test on byte values by arithmetic. *)
Ltac bsolve :=
  repeat match goal with
    | |- context [(?a =? ?b)%N] =>
        destruct (N.eqb_spec a b); cbv iota; try (exfalso; ndm)
    | |- context [(?a <=? ?b)%N] =>
        destruct (N.leb_spec a b); cbv iota; try (exfalso; ndm)
    | |- context [(?a <? ?b)%N] =>
        destruct (N.ltb_spec a b); cbv iota; try (exfalso; ndm)
    end;
  reflexivity.

Ltac settle :=
  repeat match goal with
    | |- context [if ?b then _ else _] =>
        first [ replace b with true by (symmetry; bsolve)
              | replace b with false by (symmetry; bsolve) ];
        cbv iota
    end.

Ltac bhyp :=
  repeat match goal with
    | H : (_ && _) = true |- _ => apply andb_true_iff in H; destruct H
    | H : (_ && _) = false |- _ => apply andb_false_iff in H
    | H : (_ || _) = true |- _ => apply orb_true_iff in H
    | H : (_ <=? _)%N = true |- _ => apply N.leb_le in H
    | H : (_ <=? _)%N = false |- _ => apply N.leb_gt in H
    | H : (_ <? _)%N = true |- _ => apply N.ltb_lt in H
    | H : (_ <? _)%N = false |- _ => apply N.ltb_ge in H
    | H : (_ =? _)%N = true |- _ => apply N.eqb_eq in H
    | H : (_ =? _)%N = false |- _ => apply N.eqb_neq in H
    end.

Lemma utf8_decode_encode_char (c : N) (rest : list N) :
  is_scalar c = true ->
  utf8_decode (utf8_encode_char c ++ rest) = option_map (cons c) (utf8_decode rest).
Proof.
  unfold is_scalar, utf8_encode_char. intros S.
  assert (S' : (c < 55296 \/ 57344 <= c < 1114112)%N).
  { apply orb_true_iff in S as [S | S]; bhyp; lia. }
  clear S.
  destruct (N.ltb_spec c 128) as [L1 | L1];
    [|destruct (N.ltb_spec c 2048) as [L2 | L2];
      [|destruct (N.ltb_spec c 65536) as [L3 | L3]]];
    cbn [app utf8_decode].
  - settle. reflexivity.
  - rewrite decoded_2. unfold is_cont. settle. do 2 f_equal. ndm.
  - rewrite decoded_3. unfold is_cont. settle. cbn [andb]. do 2 f_equal. ndm.
  - rewrite decoded_4. unfold is_cont. settle. cbn [andb]. do 2 f_equal. ndm.
Qed.

Lemma utf8_decode_encode (t : Py.str) :
  forallb is_scalar t = true ->
  utf8_decode (flat_map utf8_encode_char t) = Some t.
Proof.
  induction t as [|c t IH]; [reflexivity|]. cbn [forallb flat_map].
  intros H. apply andb_true_iff in H as [Hc Ht].
  rewrite (utf8_decode_encode_char c _ Hc), (IH Ht). reflexivity.
Qed.

Lemma is_scalar_iff (c : N) :
  is_scalar c = true <-> (c < 55296 \/ 57344 <= c < 1114112)%N.
Proof.
  unfold is_scalar. rewrite orb_true_iff, andb_true_iff, !N.ltb_lt, N.leb_le.
  tauto.
Qed.

Lemma utf8_encode_char_small (c : N) :
  is_scalar c = true -> forallb (fun b => b <? 256)%N (utf8_encode_char c) = true.
Proof.
  unfold utf8_encode_char. intros S. apply is_scalar_iff in S.
  destruct (N.ltb_spec c 128) as [L1 | L1];
    [|destruct (N.ltb_spec c 2048) as [L2 | L2];
      [|destruct (N.ltb_spec c 65536) as [L3 | L3]]];
    cbn [forallb]; rewrite ?andb_true_iff; repeat split; apply N.ltb_lt; ndm.
Qed.

Lemma option_map_cons_inv (v : N) (o : option Py.str) (t : Py.str) :
  option_map (cons v) o = Some t -> exists t', o = Some t' /\ t = v :: t'.
Proof.
  destruct o as [t'|]; [|discriminate]. cbn. intros H. injection H as <-. eauto.
Qed.

Lemma utf8_decode_inv (n : nat) :
  forall bs t,
  length bs <= n -> utf8_decode bs = Some t ->
  flat_map utf8_encode_char t = bs /\ forallb is_scalar t = true.
Proof.
  induction n as [|n IH]; intros bs t Hn.
  - destruct bs; [|cbn in Hn; lia]. cbn. intros H. injection H as <-. auto.
  - destruct bs as [|b0 r0]; [cbn; intros H; injection H as <-; auto|].
    cbn [utf8_decode]. cbn [length] in Hn.
    destruct (N.ltb_spec b0 128) as [L1 | L1].
    { intros D. apply option_map_cons_inv in D as [t' [D ->]].
      apply IH in D as [E S]; [|lia]. cbn [flat_map forallb].
      rewrite E, S, andb_true_r.
      split; [|apply is_scalar_iff; lia].
      unfold utf8_encode_char. settle. reflexivity. }
    destruct ((194 <=? b0) && (b0 <=? 223))%N eqn:R2.
    { destruct r0 as [|b1 r1]; [discriminate|].
      unfold is_cont. destruct ((128 <=? b1) && (b1 <=? 191))%N eqn:C1; [|discriminate].
      rewrite decoded_2. bhyp.
      intros D. apply option_map_cons_inv in D as [t' [D ->]].
      apply IH in D as [E S]; [|cbn [length] in Hn; lia].
      cbn [flat_map forallb]. rewrite E, S, andb_true_r.
      split; [|apply is_scalar_iff; ndm].
      unfold utf8_encode_char. settle. cbn [app].
      f_equal; [|f_equal]; ndm. }
    destruct ((224 <=? b0) && (b0 <=? 239))%N eqn:R3.
    { destruct r0 as [|b1 [|b2 r2]]; [discriminate|discriminate|].
      unfold is_cont.
      match goal with
      | |- (if ?c then _ else _) = _ -> _ => destruct c eqn:C; [|discriminate]
      end.
      rewrite decoded_3.
      intros D. apply option_map_cons_inv in D as [t' [D ->]].
      apply IH in D as [E S]; [|cbn [length] in Hn; lia].
      cbn [flat_map forallb]. rewrite E, S, andb_true_r.
      destruct (N.eqb_spec b0 224); destruct (N.eqb_spec b0 237); bhyp;
        try lia;
        (split; [|apply is_scalar_iff; ndm]);
        unfold utf8_encode_char; settle; cbn [app];
        (f_equal; [|f_equal; [|f_equal]]); ndm. }
    destruct ((240 <=? b0) && (b0 <=? 244))%N eqn:R4; [|discriminate].
    destruct r0 as [|b1 [|b2 [|b3 r3]]]; [discriminate|discriminate|discriminate|].
    unfold is_cont.
    match goal with
    | |- (if ?c then _ else _) = _ -> _ => destruct c eqn:C; [|discriminate]
    end.
    rewrite decoded_4.
    intros D. apply option_map_cons_inv in D as [t' [D ->]].
    apply IH in D as [E S]; [|cbn [length] in Hn; lia].
    cbn [flat_map forallb]. rewrite E, S, andb_true_r.
    destruct (N.eqb_spec b0 240); destruct (N.eqb_spec b0 244); bhyp;
      try lia;
      (split; [|apply is_scalar_iff; ndm]);
      unfold utf8_encode_char; settle; cbn [app];
      (f_equal; [|f_equal; [|f_equal; [|f_equal]]]); ndm.
Qed.

Lemma map_to_N_byte_of_N (l : list N) :
  forallb (fun b => b <? 256)%N l = true -> map Byte.to_N (map byte_of_N l) = l.
Proof.
  induction l as [|x l IH]; [reflexivity|]. cbn [forallb map].
  intros H. apply andb_true_iff in H as [Hx Hl].
  rewrite (IH Hl), to_N_byte_of_N; [reflexivity|]. apply N.ltb_lt. exact Hx.
Qed.

Lemma utf8_encode_bytes (t : Py.str) :
  forallb is_scalar t = true ->
  map Byte.to_N (utf8_encode t) = flat_map utf8_encode_char t.
Proof.
  intros H. apply map_to_N_byte_of_N.
  induction t as [|c t IH]; [reflexivity|]. cbn [forallb flat_map] in *.
  apply andb_true_iff in H as [Hc Ht]. rewrite forallb_app.
  rewrite (utf8_encode_char_small c Hc), (IH Ht). reflexivity.
Qed.

Lemma utf8_decode_encoded (b : Py.bytes) (t : Py.str) :
  utf8_decode (map Byte.to_N b) = Some t ->
  utf8_encode t = b /\ forallb is_scalar t = true.
Proof.
  intros H. apply (utf8_decode_inv (length (map Byte.to_N b)) _ _ (le_n _)) in H
    as [E S].
  split; [|exact S]. unfold utf8_encode. rewrite E, map_map.
  rewrite <- (map_id b) at 2. apply map_ext. exact byte_of_to_N.
Qed.

(** X8.  Text survives the trip through UTF-8 and Base64: for a string [t]
    of Unicode scalar values, [try_decode_base64] applied to the Base64
    encoding of the UTF-8 encoding of [t] returns [t] with kind ['text']. *)
Theorem try_decode_base64_of_text (t : Py.str) :
  forallb is_scalar t = true ->
  try_decode_base64 (b64encode (utf8_encode t)) = Ok (t, KText).
Proof.
  intros H.
  rewrite (try_decode_base64_of_encoding (b64encode (utf8_encode t)) (utf8_encode t))
    by (apply sub_ws_plain_ascii, b64encode_plain_ascii).
  rewrite (utf8_encode_bytes t H), (utf8_decode_encode t H). reflexivity.
Qed.

Lemma try_decode_base64_of_text_witness :
  try_decode_base64 (b64encode (utf8_encode [104; 233; 8364; 128512]%N))
  = Ok ([104; 233; 8364; 128512]%N, KText).
Proof.
  apply (try_decode_base64_of_text [104; 233; 8364; 128512]%N). reflexivity.
Defined.

(** X9.  Nothing is lost in any kind of result.  A result of kind ['raw']
    is the input itself; the text of a result of kind ['hex'] reads back,
    by [bytes.fromhex], to the bytes that the Base64 text stands for, and
    those are not UTF-8; the text of a result of kind ['text'] is made of
    Unicode scalar values and its UTF-8 encoding is those bytes. *)
Theorem try_decode_base64_is_lossless (s t : Py.str) (k : kind) :
  try_decode_base64 s = Ok (t, k) ->
  match k with
  | KRaw => t = s
  | KHex =>
      exists b, b64decode (sub_ws s) = Ok b /\ bytes_fromhex t = Some b
                /\ bytes_decode_utf8 b = Raise UnicodeDecodeError
  | KText =>
      exists b, b64decode (sub_ws s) = Ok b /\ utf8_encode t = b
                /\ forallb is_scalar t = true
  end.
Proof.
  intros H.
  destruct (try_decode_base64_cases s)
    as [[b [t' [B [U E]]]] | [[b [B [U E]]] | [e [_ E]]]];
    rewrite E in H; injection H as <- <-.
  - exists b. split; [exact B|]. apply utf8_decode_encoded. exact U.
  - exists b. split; [exact B|]. split; [apply bytes_fromhex_hex|].
    unfold bytes_decode_utf8. rewrite U. reflexivity.
  - reflexivity.
Qed.

Lemma try_decode_base64_is_lossless_witness :
  (exists b, b64decode (sub_ws (Py.lit "aGVsbG8=")) = Ok b
             /\ utf8_encode (Py.lit "hello") = b
             /\ forallb is_scalar (Py.lit "hello") = true)
  /\ (exists b, b64decode (sub_ws (Py.lit "/+7/")) = Ok b
                /\ bytes_fromhex (Py.lit "ffeeff") = Some b
                /\ bytes_decode_utf8 b = Raise UnicodeDecodeError).
Proof.
  split.
  - exact (try_decode_base64_is_lossless (Py.lit "aGVsbG8=") (Py.lit "hello") KText
             eq_refl).
  - exact (try_decode_base64_is_lossless (Py.lit "/+7/") (Py.lit "ffeeff") KHex
             eq_refl).
Defined.

(** ** The entries of the report *)

Lemma add_field_line (cls label : Py.str) (field : option node) (nm : Py.str)
    (at_ : list (Py.str * Py.str)) (cs : list html) :
  add_field cls label field (HTag nm at_ cs)
  = HTag nm at_ (cs ++ field_line cls label field).
Proof.
  unfold add_field, field_line. destruct (found_string field).
  - reflexivity.
  - rewrite app_nil_r. reflexivity.
Qed.

Lemma payload_of_spec (nd : node) :
  extract_node_text (Some nd) = Ok (Some (fst (payload_of nd)), Some (snd (payload_of nd))).
Proof.
  unfold payload_of. destruct (extract_node_text_ok nd) as [d [k E]].
  rewrite E. reflexivity.
Qed.

Lemma add_block_part (title_text : Py.str) (nd : option node) (nm : Py.str)
    (at_ : list (Py.str * Py.str)) (cs : list html) :
  add_block title_text nd (HTag nm at_ cs)
  = Ok (HTag nm at_ (cs ++ block_part title_text nd)).
Proof.
  destruct nd as [n|]; [|cbn; rewrite app_nil_r; reflexivity].
  rewrite (add_block_of title_text n (HTag nm at_ cs) _ _ (payload_of_spec n)).
  unfold with_block, block_part, note_part.
  destruct (Soup.get (Py.lit "encoding") n) as [enc|];
    [destruct (Py.truthy enc)|]; cbn [Html.append]; rewrite <- ?app_assoc;
    reflexivity.
Qed.

Lemma add_entry_entry_of (idx : nat) (item : node) (container : html) :
  add_entry idx item container = Ok (Html.append (entry_of idx item) container).
Proof.
  unfold add_entry.
  cbn [Html.new_tag Html.set_string Html.append app].
  rewrite !add_field_line. cbn [Html.append app].
  rewrite add_block_part. cbn [bind]. rewrite add_block_part. cbn [bind].
  rewrite add_field_line. unfold entry_of, item_label. cbn [app].
  rewrite <- !app_assoc. reflexivity.
Qed.

Lemma items_loop_entries (its : list node) :
  forall i container,
  items_loop i its container = Ok (append_all (entries_from i its) container).
Proof.
  induction its as [|it its IH]; intros i container; [reflexivity|].
  cbn [items_loop entries_from]. rewrite add_entry_entry_of. cbn [bind].
  rewrite IH. reflexivity.
Qed.

Lemma fill_container_report (soup_xml : node) (container : html) :
  fill_container soup_xml container
  = Ok (append_all (report_entries soup_xml) container).
Proof.
  unfold fill_container, report_entries.
  destruct (is_empty (items soup_xml)); cbn [negb].
  - destruct (is_empty (pairs soup_xml)); cbn [negb].
    + reflexivity.
    + rewrite pairs_loop_wrappers. apply items_loop_entries.
  - apply items_loop_entries.
Qed.

Lemma entries_from_nth (its : list node) :
  forall i k,
  nth_error (entries_from i its) k = option_map (entry_of (i + k)) (nth_error its k).
Proof.
  induction its as [|it its IH]; intros i [|k]; cbn [entries_from nth_error option_map];
    try reflexivity.
  - rewrite Nat.add_0_r. reflexivity.
  - rewrite IH. rewrite Nat.add_succ_comm. reflexivity.
Qed.

(** X10.  The report holds, in extraction order, one entry for each item,
    numbered from 1; an entry is made of the header (the label [Item #k],
    then the position, status and length lines that are there), the
    request block with its note, the response block with its note, and the
    host line, each left out when the item has no such part.  Without
    items the wrappers of the request/response pairs take their place, and
    without pairs the only entry is the message that nothing was found.
    Rendering raises no exception, and what the container held before
    stays in front of the entries. *)
Theorem fill_container_entries (soup_xml : node) (container : html) :
  fill_container soup_xml container
  = Ok (append_all (report_entries soup_xml) container)
  /\ (forall nm at_ cs,
        fill_container soup_xml (HTag nm at_ cs)
        = Ok (HTag nm at_ (cs ++ report_entries soup_xml)))
  /\ (forall its k,
        nth_error (entries_from 1 its) k
        = option_map (entry_of (S k)) (nth_error its k)).
Proof.
  split; [|split].
  - apply fill_container_report.
  - intros nm at_ cs. rewrite fill_container_report, append_all_contents.
    reflexivity.
  - intros its k. apply (entries_from_nth its 1 k).
Qed.

(** X11.  Requests without responses, and responses without requests, are
    not shown: when the document has no item, attackitem, row or
    requestitem element and lacks either every request or every response
    element, the report is the single message that nothing was found. *)
Theorem unpaired_elements_give_the_placeholder (soup_xml : node) (container : html) :
  items soup_xml = [] ->
  Soup.find_all (Py.lit "request") soup_xml = []
  \/ Soup.find_all (Py.lit "response") soup_xml = [] ->
  fill_container soup_xml container = Ok (Html.append no_items_message container)
  /\ report_entries soup_xml = [no_items_message].
Proof.
  intros Hi Hp.
  assert (P : pairs soup_xml = []).
  { unfold pairs. destruct Hp as [-> | ->]; [reflexivity|].
    destruct (Soup.find_all (Py.lit "request") soup_xml); reflexivity. }
  unfold fill_container, report_entries. rewrite Hi, P. split; reflexivity.
Qed.

Lemma unpaired_elements_give_the_placeholder_witness :
  let doc :=
    Tag 0 (Py.lit "[document]") []
      [Tag 1 (Py.lit "root") []
         [Tag 2 (Py.lit "request") [] [Str NavigableString (Py.lit "GET / HTTP/1.1")];
          Tag 3 (Py.lit "request") [] [Str NavigableString (Py.lit "GET /a HTTP/1.1")]]] in
  fill_container doc empty_container
  = Ok (Html.append no_items_message empty_container).
Proof.
  exact (proj1 (unpaired_elements_give_the_placeholder
                  (Tag 0 (Py.lit "[document]") []
                     [Tag 1 (Py.lit "root") []
                        [Tag 2 (Py.lit "request") []
                           [Str NavigableString (Py.lit "GET / HTTP/1.1")];
                         Tag 3 (Py.lit "request") []
                           [Str NavigableString (Py.lit "GET /a HTTP/1.1")]]])
                  empty_container eq_refl (or_intror eq_refl))).
Defined.

(** ** Runs that fail before the report is written *)

Section Outcome.

Variable xml_parser : Py.str -> result node.

Lemma main_of_exception (argv : list Py.str) (w w' : world) (e : exn) :
  script xml_parser argv w = (Raise e, w') -> is_Exception e = true ->
  main xml_parser argv w
  = (1%Z, eprint (Py.lit "Traceback (most recent call last):") w').
Proof.
  intros H E. unfold main. rewrite H. destruct e; [discriminate E|..]; reflexivity.
Qed.

(** X12.  The output file is opened last.  In a run with two arguments in
    which opening or reading the input file, or parsing it, fails with an
    ordinary exception, the output path is never opened, so that a report
    already there is left as it is; the run ends with status 1 and prints
    nothing on standard output.  When the input is read and parsed and it
    is opening the output file that fails, the run ends with status 1,
    having written nothing and printed nothing on standard output. *)
Theorem failed_run_spares_the_output (prog infile outfile : Py.str) (w : world) :
  (forall e, read_text w infile = Raise e -> is_Exception e = true) ->
  (forall x e, xml_parser x = Raise e -> is_Exception e = true) ->
  let r := main xml_parser [prog; infile; outfile] w in
  ((exists e, read_text w infile = Raise e)
   \/ (exists xml e, read_text w infile = Ok xml /\ xml_parser xml = Raise e) ->
   fst r = 1%Z
   /\ opened (snd r) = infile :: opened w
   /\ written (snd r) = written w
   /\ stdout (snd r) = stdout w)
  /\ (forall xml soup_xml,
        read_text w infile = Ok xml -> xml_parser xml = Ok soup_xml ->
        can_write w outfile = false ->
        fst r = 1%Z
        /\ opened (snd r) = outfile :: infile :: opened w
        /\ written (snd r) = written w
        /\ stdout (snd r) = stdout w).
Proof.
  intros Hread Hparse r. subst r. split.
  - intros [[e R] | [xml [e [R P]]]].
    + rewrite (main_of_exception [prog; infile; outfile] w (log_open infile w) e);
        [repeat split|
         unfold script; cbn [length Nat.eqb negb nth log_open read_text];
         rewrite R; reflexivity|exact (Hread e R)].
    + rewrite (main_of_exception [prog; infile; outfile] w (log_open infile w) e);
        [repeat split|
         unfold script; cbn [length Nat.eqb negb nth log_open read_text];
         rewrite R, P; reflexivity|exact (Hparse xml e P)].
  - intros xml soup_xml R P C.
    rewrite (main_of_exception [prog; infile; outfile] w
               (log_open outfile (log_open infile w)) OSError);
      [repeat split|
       unfold script; cbn [length Nat.eqb negb nth log_open read_text];
       rewrite R, P, fill_container_report; cbn [can_write log_open];
       rewrite C; reflexivity|reflexivity].
Qed.

End Outcome.

Lemma failed_run_spares_the_output_witness :
  let parser := fun _ : Py.str => @Raise node ParserError in
  let w := mk_world (fun _ => Ok []) (fun _ => true) []
             [(Py.lit "out.html", Py.lit "an earlier report")] [] [] in
  let r := main parser [Py.lit "parse_xml.py"; Py.lit "in.xml"; Py.lit "out.html"] w in
  fst r = 1%Z
  /\ opened (snd r) = [Py.lit "in.xml"]
  /\ written (snd r) = [(Py.lit "out.html", Py.lit "an earlier report")]
  /\ stdout (snd r) = [].
Proof.
  cbv zeta.
  apply (proj1 (failed_run_spares_the_output (fun _ : Py.str => @Raise node ParserError)
                  (Py.lit "parse_xml.py") (Py.lit "in.xml") (Py.lit "out.html")
                  (mk_world (fun _ => Ok []) (fun _ => true) []
                     [(Py.lit "out.html", Py.lit "an earlier report")] [] [])
                  ltac:(intros e H; discriminate H)
                  ltac:(intros x e H; injection H as <-; reflexivity))).
  right. exists [], ParserError. split; reflexivity.
Defined.

(** ** Looking up an element after another one was moved *)

Lemma lookup_forest_cons (i : nat) (n : node) (f : forest) :
  Soup.lookup_forest i (n :: f)
  = match Soup.lookup i n with
    | Some t => Some t
    | None => Soup.lookup_forest i f
    end.
Proof. reflexivity. Qed.

Lemma detach_forest_cons (i : nat) (n : node) (f : forest) :
  Soup.detach_forest i (n :: f)
  = if Soup.has_id i n then Soup.detach_forest i f
    else Soup.detach i n :: Soup.detach_forest i f.
Proof. reflexivity. Qed.

Lemma ids_Tag (i : nat) (nm : Py.str) (at_ : list (Py.str * Py.str))
    (cs : list node) :
  Soup.ids (Tag i nm at_ cs) = i :: Soup.forest_ids cs.
Proof. unfold Soup.ids, Soup.forest_ids. rewrite tags_Tag. reflexivity. Qed.

Lemma lookup_found (n : node) :
  forall k s,
  Soup.lookup k n = Some s ->
  In k (Soup.ids n) /\ Soup.has_id k s = true
  /\ incl (Soup.ids s) (Soup.ids n).
Proof.
  induction n as [c s0|j nm at_ cs IH] using node_forall_ind; intros k s.
  - discriminate.
  - rewrite lookup_Tag, ids_Tag. destruct (Nat.eqb k j) eqn:E.
    + intros H. injection H as <-. apply Nat.eqb_eq in E. subst j.
      split; [left; reflexivity|]. split; [apply Nat.eqb_refl|].
      rewrite ids_Tag. apply incl_refl.
    + intros H. enough (X : In k (Soup.forest_ids cs) /\ Soup.has_id k s = true
                            /\ incl (Soup.ids s) (Soup.forest_ids cs)).
      { destruct X as [X1 [X2 X3]]. split; [right; exact X1|].
        split; [exact X2|]. apply incl_tl. exact X3. }
      clear E. induction IH as [|c cs' Hc _ IHcs]; [discriminate H|].
      rewrite lookup_forest_cons in H. rewrite forest_ids_cons.
      destruct (Soup.lookup k c) as [t|] eqn:L.
      * injection H as ->. destruct (Hc k s L) as [X1 [X2 X3]].
        split; [apply in_or_app; left; exact X1|]. split; [exact X2|].
        apply incl_appl. exact X3.
      * destruct (IHcs H) as [X1 [X2 X3]].
        split; [apply in_or_app; right; exact X1|]. split; [exact X2|].
        apply incl_appr. exact X3.
Qed.

Lemma lookup_forest_found (f : forest) :
  forall k s,
  Soup.lookup_forest k f = Some s ->
  In k (Soup.forest_ids f) /\ Soup.has_id k s = true
  /\ incl (Soup.ids s) (Soup.forest_ids f).
Proof.
  induction f as [|c f IH]; intros k s H; [discriminate H|].
  rewrite lookup_forest_cons in H. rewrite forest_ids_cons.
  destruct (Soup.lookup k c) as [t|] eqn:L.
  - injection H as ->. destruct (lookup_found c k s L) as [X1 [X2 X3]].
    split; [apply in_or_app; left; exact X1|]. split; [exact X2|].
    apply incl_appl. exact X3.
  - destruct (IH k s H) as [X1 [X2 X3]].
    split; [apply in_or_app; right; exact X1|]. split; [exact X2|].
    apply incl_appr. exact X3.
Qed.

Lemma lookup_absent (k : nat) (n : node) :
  Soup.lookup k n = None -> ~ In k (Soup.ids n).
Proof.
  induction n as [c s0|j nm at_ cs IH] using node_forall_ind.
  - intros _ [].
  - rewrite lookup_Tag, ids_Tag. destruct (Nat.eqb k j) eqn:E; [discriminate|].
    apply Nat.eqb_neq in E. intros H [X | X]; [congruence|].
    induction IH as [|c cs' Hc _ IHcs]; [exact X|].
    rewrite lookup_forest_cons in H. rewrite forest_ids_cons in X.
    destruct (Soup.lookup k c) eqn:L; [discriminate H|].
    apply in_app_or in X as [X | X]; [exact (Hc eq_refl X)|exact (IHcs H X)].
Qed.

Lemma ids_detach (i : nat) (n : node) :
  incl (Soup.ids (Soup.detach i n)) (Soup.ids n).
Proof.
  induction n as [c s0|j nm at_ cs IH] using node_forall_ind.
  - apply incl_refl.
  - rewrite detach_Tag, !ids_Tag. apply incl_cons; [left; reflexivity|].
    apply incl_tl.
    induction IH as [|c cs' Hc _ IHcs]; [apply incl_refl|].
    rewrite detach_forest_cons, forest_ids_cons.
    destruct (Soup.has_id i c).
    + apply incl_appr. exact IHcs.
    + rewrite forest_ids_cons. apply incl_app; [apply incl_appl|apply incl_appr];
        assumption.
Qed.

Lemma forest_ids_detach (i : nat) (f : forest) :
  incl (Soup.forest_ids (Soup.detach_forest i f)) (Soup.forest_ids f).
Proof.
  induction f as [|c f IH]; [apply incl_refl|].
  rewrite detach_forest_cons, forest_ids_cons.
  destruct (Soup.has_id i c).
  - apply incl_appr. exact IH.
  - rewrite forest_ids_cons.
    apply incl_app; [apply incl_appl, ids_detach|apply incl_appr, IH].
Qed.

Lemma has_id_lookup (i : nat) (n : node) :
  Soup.has_id i n = true -> Soup.lookup i n = Some n.
Proof.
  destruct n as [c s|j nm at_ cs]; [discriminate|]. cbn [Soup.has_id].
  intros H. rewrite lookup_Tag, H. reflexivity.
Qed.

Lemma detach_forest_keeps (f : forest) :
  Forall detach_keeps f ->
  forall i k s,
  NoDup (Soup.forest_ids f) ->
  Soup.lookup_forest k f = Some s -> ~ In i (Soup.ids s) ->
  (forall t, Soup.lookup_forest i f = Some t -> ~ In k (Soup.ids t)) ->
  Soup.lookup_forest k (Soup.detach_forest i f) = Some s.
Proof.
  induction 1 as [|c f Hc _ IH]; intros i k s ND L Hi Hk; [discriminate L|].
  rewrite forest_ids_cons in ND.
  destruct (NoDup_app_parts _ _ _ ND) as [ND1 [ND2 D]].
  rewrite lookup_forest_cons in L, Hk. rewrite detach_forest_cons.
  destruct (Soup.has_id i c) eqn:Hic.
  - pose proof (has_id_lookup i c Hic) as Lc. rewrite Lc in Hk.
    specialize (Hk c eq_refl).
    destruct (absent_id k c Hk) as [Lk _]. rewrite Lk in L.
    assert (A : ~ In i (Soup.forest_ids f)).
    { apply D. apply has_id_in_ids. exact Hic. }
    destruct (absent_id_forest i f A) as [_ ->]. exact L.
  - rewrite lookup_forest_cons.
    destruct (Soup.lookup k c) as [t|] eqn:Lk.
    + injection L as ->. rewrite (Hc i k s ND1 Lk Hi); [reflexivity|].
      intros t Lt. apply Hk. rewrite Lt. reflexivity.
    + assert (A : ~ In k (Soup.ids (Soup.detach i c))).
      { intros X. apply (lookup_absent k c Lk). apply (ids_detach i c). exact X. }
      destruct (absent_id k _ A) as [-> _].
      apply IH; [exact ND2|exact L|exact Hi|].
      intros t Lt. apply Hk.
      destruct (Soup.lookup i c) as [t0|] eqn:Li; [|exact Lt].
      exfalso. destruct (lookup_found c i t0 Li) as [X _].
      destruct (lookup_forest_found f i t Lt) as [Y _].
      exact (D i X Y).
Qed.

Lemma detach_keeps_all (n : node) : detach_keeps n.
Proof.
  induction n as [c s0|j nm at_ cs IH] using node_forall_ind;
    intros i k s ND L Hi Hk; [discriminate L|].
  rewrite ids_Tag in ND. apply NoDup_cons_iff in ND as [_ ND].
  rewrite lookup_Tag in L. rewrite detach_Tag, lookup_Tag.
  destruct (Nat.eqb k j) eqn:E.
  - injection L as <-. destruct (absent_id_forest i cs) as [_ ->]; [|reflexivity].
    rewrite ids_Tag in Hi. intros X. apply Hi. right. exact X.
  - apply (detach_forest_keeps cs IH i k s ND L Hi).
    intros t Lt. apply Hk. rewrite lookup_Tag.
    destruct (Nat.eqb i j) eqn:E'; [|exact Lt].
    exfalso. apply Nat.eqb_eq in E'. subst j.
    apply (Hk (Tag i nm at_ cs)).
    + rewrite lookup_Tag, Nat.eqb_refl. reflexivity.
    + rewrite ids_Tag. right.
      destruct (lookup_forest_found cs k s L) as [X _]. exact X.
Qed.

Lemma lookup_detach_forest_apart (f : forest) (i k : nat) (r s : node) :
  NoDup (Soup.forest_ids f) ->
  Soup.lookup_forest i f = Some r -> Soup.lookup_forest k f = Some s ->
  ~ In i (Soup.ids s) -> ~ In k (Soup.ids r) ->
  Soup.lookup_forest k (Soup.detach_forest i f) = Some s.
Proof.
  intros ND Lr Ls Hi Hk.
  apply (detach_forest_keeps f); try assumption.
  - apply Forall_forall. intros n _. apply detach_keeps_all.
  - intros t Lt. rewrite Lr in Lt. injection Lt as <-. exact Hk.
Qed.

(** ** Elements found in a document *)

Lemma labels_cons (x : node) (l : list node) :
  labels (x :: l) = own_label x ++ labels l.
Proof. reflexivity. Qed.

Lemma labels_app (l l' : list node) : labels (l ++ l') = labels l ++ labels l'.
Proof. apply flat_map_app. Qed.

Lemma In_labels (x : node) (l : list node) (lb : nat * Py.str) :
  In x l -> Soup.label x = Some lb -> In lb (labels l).
Proof.
  intros Hx Hl. apply in_flat_map. exists x. split; [exact Hx|].
  unfold own_label. rewrite Hl. left. reflexivity.
Qed.

Lemma labels_In (l : list node) (lb : nat * Py.str) :
  In lb (labels l) -> exists x, In x l /\ Soup.label x = Some lb.
Proof.
  intros H. apply in_flat_map in H as [x [Hx Hl]]. exists x. split; [exact Hx|].
  unfold own_label in Hl. destruct (Soup.label x) as [l0|]; [|destruct Hl].
  destruct Hl as [-> | []]. reflexivity.
Qed.

Lemma labels_incl (l l' : list node) : incl l l' -> incl (labels l) (labels l').
Proof.
  intros H lb Hlb. apply labels_In in Hlb as [x [Hx Hl]].
  exact (In_labels x l' lb (H x Hx) Hl).
Qed.

Lemma own_label_tags (n : node) :
  own_label n ++ labels (Soup.descendants n) = Soup.tags n.
Proof.
  induction n as [c s|j nm at_ cs IH] using node_forall_ind; [reflexivity|].
  rewrite descendants_Tag, tags_Tag. cbn [own_label Soup.label app]. f_equal.
  induction IH as [|c cs' Hc _ IHcs]; [reflexivity|].
  cbn [flat_map]. rewrite forest_tags_cons, <- Hc, <- IHcs.
  cbn [app]. rewrite labels_cons, labels_app, app_assoc. reflexivity.
Qed.

Lemma descendants_trans (n : node) :
  forall y, In y (Soup.descendants n) ->
  incl (Soup.descendants y) (Soup.descendants n).
Proof.
  induction n as [c s|j nm at_ cs IH] using node_forall_ind; intros y Hy;
    [destruct Hy|].
  rewrite descendants_Tag in *. apply in_flat_map in Hy as [c [Hc Hy]].
  rewrite Forall_forall in IH. intros z Hz. apply in_flat_map. exists c.
  split; [exact Hc|]. right. destruct Hy as [<- | Hy]; [exact Hz|].
  exact (IH c Hc y Hy z Hz).
Qed.

Lemma descendant_tags (n y : node) :
  In y (Soup.descendants n) -> incl (Soup.tags y) (Soup.tags n).
Proof.
  intros Hy. rewrite <- (own_label_tags y), <- (own_label_tags n).
  apply incl_app; apply incl_appr.
  - intros lb Hlb. unfold own_label in Hlb.
    destruct (Soup.label y) as [l0|] eqn:E; [|destruct Hlb].
    destruct Hlb as [<- | []]. exact (In_labels y _ l0 Hy E).
  - apply labels_incl, descendants_trans, Hy.
Qed.

(** An element labelled in the tags of [x] is [x] or below [x]. *)
Lemma tags_label (x : node) (lb : nat * Py.str) :
  In lb (Soup.tags x) ->
  Soup.label x = Some lb
  \/ exists z, In z (Soup.descendants x) /\ Soup.label z = Some lb.
Proof.
  rewrite <- (own_label_tags x). intros H. apply in_app_or in H as [H | H].
  - left. unfold own_label in H. destruct (Soup.label x) as [l0|]; [|destruct H].
    destruct H as [-> | []]. reflexivity.
  - right. apply labels_In. exact H.
Qed.

Lemma descendant_lookup_forest (cs : list node) :
  Forall (fun n => NoDup (Soup.ids n) ->
                   forall x i nm, In x (Soup.descendants n) ->
                                  Soup.label x = Some (i, nm) ->
                                  Soup.lookup i n = Some x) cs ->
  NoDup (Soup.forest_ids cs) ->
  forall x i nm,
  In x (flat_map (fun c => c :: Soup.descendants c) cs) ->
  Soup.label x = Some (i, nm) ->
  Soup.lookup_forest i cs = Some x.
Proof.
  induction 1 as [|c cs Hc _ IH]; intros ND x i nm Hx Hl; [destruct Hx|].
  rewrite forest_ids_cons in ND.
  destruct (NoDup_app_parts _ _ _ ND) as [ND1 [ND2 D]].
  cbn [flat_map] in Hx. rewrite lookup_forest_cons.
  apply in_app_or in Hx as [[<- | Hx] | Hx].
  - rewrite has_id_lookup; [reflexivity|].
    destruct c; [discriminate Hl|]. injection Hl as -> _. apply Nat.eqb_refl.
  - rewrite (Hc ND1 x i nm Hx Hl). reflexivity.
  - pose proof (IH ND2 x i nm Hx Hl) as L.
    destruct (lookup_forest_found cs i x L) as [Y _].
    assert (A : ~ In i (Soup.ids c)) by (intros X; exact (D i X Y)).
    destruct (absent_id i c A) as [-> _]. exact L.
Qed.

(** In a document with distinct identities, an element found below [n]
    is the element that its identity denotes. *)
Lemma descendant_lookup (n : node) :
  NoDup (Soup.ids n) ->
  forall x i nm,
  In x (Soup.descendants n) -> Soup.label x = Some (i, nm) ->
  Soup.lookup i n = Some x.
Proof.
  induction n as [c s|j nm0 at_ cs IH] using node_forall_ind;
    intros ND x i nm Hx Hl; [destruct Hx|].
  rewrite ids_Tag in ND. apply NoDup_cons_iff in ND as [Hj ND].
  rewrite descendants_Tag in Hx. rewrite lookup_Tag.
  pose proof (descendant_lookup_forest cs IH ND x i nm Hx Hl) as L.
  destruct (lookup_forest_found cs i x L) as [Y _].
  destruct (Nat.eqb i j) eqn:E; [|exact L].
  apply Nat.eqb_eq in E. subst j. contradiction.
Qed.

Lemma find_all_In (name : Py.str) (n x : node) :
  In x (Soup.find_all name n) ->
  In x (Soup.descendants n) /\ exists i at_ cs, x = Tag i name at_ cs.
Proof.
  unfold Soup.find_all. intros H. apply filter_In in H as [H N].
  split; [exact H|]. destruct x as [c s|i nm at_ cs]; [discriminate N|].
  cbn [Soup.is_named] in N. apply eqb_eq in N. subst nm. eauto.
Qed.

Lemma NoDup_labels_filter (P : node -> bool) (l : list node) :
  NoDup (map fst (labels l)) -> NoDup (map fst (labels (filter P l))).
Proof.
  induction l as [|x l IH]; [auto|]. rewrite labels_cons, map_app.
  intros ND. destruct (NoDup_app_parts _ _ _ ND) as [ND1 [ND2 D]].
  cbn [filter]. destruct (P x); [|exact (IH ND2)].
  rewrite labels_cons, map_app. apply NoDup_app; [exact ND1|exact (IH ND2)|].
  intros a Ha Hb. apply (D a Ha). apply in_map_iff in Hb as [lb [<- Hb]].
  apply in_map. apply (labels_incl (filter P l) l); [|exact Hb].
  intros y Hy. apply filter_In in Hy as [Hy _]. exact Hy.
Qed.

Lemma NoDup_labels_find_all (name : Py.str) (n : node) :
  NoDup (Soup.ids n) -> NoDup (map fst (labels (Soup.find_all name n))).
Proof.
  intros ND. apply NoDup_labels_filter.
  unfold Soup.ids in ND. rewrite <- (own_label_tags n), map_app in ND.
  destruct (NoDup_app_parts _ _ _ ND) as [_ [ND2 _]]. exact ND2.
Qed.

Lemma labels_find_all (name : Py.str) (n : node) (i : nat) (nm : Py.str) :
  In (i, nm) (labels (Soup.find_all name n)) ->
  nm = name /\ In (i, name) (Soup.tags n).
Proof.
  intros H. apply labels_In in H as [x [Hx Hl]].
  destruct (find_all_label name n x Hx) as [i' [Hl' Ht]].
  rewrite Hl in Hl'. injection Hl' as -> ->. auto.
Qed.

(** ** The wrappers of a document without nesting *)

Lemma append_placed (w i : nat) (wn nm : Py.str) (wa at_ : list (Py.str * Py.str))
    (cs xs : list node) (f : forest) :
  ~ In w (Soup.forest_ids f) -> i <> w -> ~ In i (Soup.forest_ids cs) ->
  Soup.lookup_forest i f = Some (Tag i nm at_ xs) ->
  Soup.append w (Tag i nm at_ xs) (Tag w wn wa cs :: f)
  = Tag w wn wa (cs ++ [Tag i nm at_ xs]) :: Soup.detach_forest i f.
Proof.
  intros Hw Hiw Hi L.
  assert (E : Nat.eqb i w = false) by (apply Nat.eqb_neq; exact Hiw).
  destruct (absent_id_forest i cs Hi) as [L0 D0].
  unfold Soup.append, Soup.extract, Soup.deref.
  rewrite lookup_forest_cons, lookup_Tag, E, L0, L.
  rewrite detach_forest_cons. cbn [Soup.has_id]. rewrite E, detach_Tag, D0.
  cbn [map Soup.attach]. rewrite Nat.eqb_refl. f_equal.
  apply absent_id_attach_forest. intros X. apply Hw.
  exact (forest_ids_detach i f w X).
Qed.

Lemma NoDup_detach_forest (i : nat) (f : forest) :
  NoDup (Soup.forest_ids f) -> NoDup (Soup.forest_ids (Soup.detach_forest i f)).
Proof.
  intros ND. destruct (in_dec Nat.eq_dec i (Soup.forest_ids f)) as [Hi | Hi].
  - unfold Soup.forest_ids in Hi. apply in_map_iff in Hi as [[i' nm] [E Hi]].
    cbn in E. subst i'.
    destruct (lookup_detach_forest f i nm ND Hi) as [t [_ [_ P]]].
    pose proof (NoDup_ids_perm _ _ P ND) as ND'. rewrite map_app in ND'.
    destruct (NoDup_app_parts _ _ _ ND') as [_ [ND2 _]]. exact ND2.
  - destruct (absent_id_forest i f Hi) as [_ ->]. exact ND.
Qed.

Lemma placed_label (f : forest) (x : node) :
  placed f x ->
  exists i nm at_ cs,
    x = Tag i nm at_ cs /\ Soup.lookup_forest i f = Some x
    /\ In i (Soup.forest_ids f).
Proof.
  destruct x as [c s|i nm at_ cs]; [intros []|]. cbn [placed]. intros L.
  exists i, nm, at_, cs. split; [reflexivity|]. split; [exact L|].
  destruct (lookup_forest_found f i _ L) as [X _]. exact X.
Qed.

(** The wrapper of a request and a response that are in the forest as
    they were found, neither inside the other, holds the two as they
    are. *)
Lemma make_wrapper_placed (r s : node) (f : forest) :
  NoDup (Soup.forest_ids f) -> placed f r -> placed f s -> apart r s ->
  exists i k,
    Soup.has_id i r = true /\ Soup.has_id k s = true
    /\ make_wrapper r s f
       = (Tag (Soup.fresh f) (Py.lit "item") [] [r; s],
          Tag (Soup.fresh f) (Py.lit "item") [] [r; s]
            :: Soup.detach_forest k (Soup.detach_forest i f)).
Proof.
  intros ND Pr Ps A.
  destruct (placed_label f r Pr) as [i [nr [ar [cr [-> [Lr Ir]]]]]].
  destruct (placed_label f s Ps) as [k [ns [as_ [cs [-> [Ls Is]]]]]].
  cbn [apart] in A. destruct A as [A1 A2].
  exists i, k. split; [apply Nat.eqb_refl|]. split; [apply Nat.eqb_refl|].
  pose proof (fresh_absent f) as Hw. set (w := Soup.fresh f) in *.
  assert (Hiw : i <> w) by (intros ->; contradiction).
  assert (Hkw : k <> w) by (intros ->; contradiction).
  unfold make_wrapper. fold w. cbv zeta.
  rewrite (append_placed w i (Py.lit "item") nr [] ar [] cr f Hw Hiw (fun X => X) Lr).
  cbn [app].
  assert (Ls' : Soup.lookup_forest k (Soup.detach_forest i f) = Some (Tag k ns as_ cs)).
  { exact (lookup_detach_forest_apart f i k _ _ ND Lr Ls A1 A2). }
  assert (Hw' : ~ In w (Soup.forest_ids (Soup.detach_forest i f))).
  { intros X. apply Hw. exact (forest_ids_detach i f w X). }
  assert (Hk : ~ In k (Soup.forest_ids [Tag i nr ar cr])).
  { rewrite forest_ids_cons. cbn [Soup.forest_ids Soup.forest_tags flat_map map].
    rewrite app_nil_r. exact A2. }
  rewrite (append_placed w k (Py.lit "item") ns [] as_ [Tag i nr ar cr] cs
             (Soup.detach_forest i f) Hw' Hkw Hk Ls').
  cbn [app]. unfold Soup.deref. rewrite lookup_forest_cons, lookup_Tag, Nat.eqb_refl.
  reflexivity.
Qed.

Lemma has_id_eq (i j : nat) (x : node) :
  Soup.has_id i x = true -> Soup.has_id j x = true -> i = j.
Proof.
  destruct x as [c s|k nm at_ cs]; [discriminate|]. cbn [Soup.has_id].
  intros H1 H2. apply Nat.eqb_eq in H1, H2. congruence.
Qed.

Lemma placed_after_wrapper (f : forest) (r s x : node) (i k : nat) (w : node) :
  NoDup (Soup.forest_ids f) ->
  placed f r -> placed f s -> placed f x ->
  Soup.has_id i r = true -> Soup.has_id k s = true ->
  apart r s -> apart r x -> apart s x ->
  w = Tag (Soup.fresh f) (Py.lit "item") [] [r; s] ->
  placed (w :: Soup.detach_forest k (Soup.detach_forest i f)) x.
Proof.
  intros ND Pr Ps Px Hi Hk Ars Arx Asx ->.
  destruct (placed_label f r Pr) as [i' [nr [ar [cr [-> [Lr Ir]]]]]].
  destruct (placed_label f s Ps) as [k' [ns [as_ [cs [-> [Ls Is]]]]]].
  destruct (placed_label f x Px) as [m [nx [ax [cx [-> [Lx Ix]]]]]].
  cbn [Soup.has_id] in Hi, Hk. apply Nat.eqb_eq in Hi, Hk. subst i' k'.
  cbn [apart] in Ars, Arx, Asx.
  destruct Ars as [A1 A2]. destruct Arx as [B1 B2]. destruct Asx as [C1 C2].
  pose proof (fresh_absent f) as Hw.
  assert (Hmw : Nat.eqb m (Soup.fresh f) = false).
  { apply Nat.eqb_neq. intros ->. contradiction. }
  cbn [placed]. rewrite lookup_forest_cons, lookup_Tag, Hmw.
  rewrite !lookup_forest_cons.
  destruct (absent_id m _ B2) as [-> _]. destruct (absent_id m _ C2) as [-> _].
  cbn [Soup.lookup_forest].
  assert (Ls' : Soup.lookup_forest k (Soup.detach_forest i f) = Some (Tag k ns as_ cs)).
  { exact (lookup_detach_forest_apart f i k _ _ ND Lr Ls A1 A2). }
  assert (Lx' : Soup.lookup_forest m (Soup.detach_forest i f) = Some (Tag m nx ax cx)).
  { exact (lookup_detach_forest_apart f i m _ _ ND Lr Lx B1 B2). }
  exact (lookup_detach_forest_apart (Soup.detach_forest i f) k m _ _
           (NoDup_detach_forest i f ND) Ls' Lx' C1 C2).
Qed.

Lemma lookup_tags (n : node) :
  forall k s,
  Soup.lookup k n = Some s ->
  exists nm, Soup.label s = Some (k, nm) /\ In (k, nm) (Soup.tags n).
Proof.
  induction n as [c s0|j nm0 at_ cs IH] using node_forall_ind; intros k s;
    [discriminate|].
  rewrite lookup_Tag, tags_Tag. destruct (Nat.eqb k j) eqn:E.
  - intros H. injection H as <-. apply Nat.eqb_eq in E. subst j.
    exists nm0. split; [reflexivity|left; reflexivity].
  - intros H. enough (X : exists nm, Soup.label s = Some (k, nm)
                                     /\ In (k, nm) (Soup.forest_tags cs)).
    { destruct X as [nm [X1 X2]]. exists nm. split; [exact X1|right; exact X2]. }
    clear E. induction IH as [|c cs' Hc _ IHcs]; [discriminate H|].
    rewrite lookup_forest_cons in H. rewrite forest_tags_cons.
    destruct (Soup.lookup k c) as [t|] eqn:L.
    + injection H as ->. destruct (Hc k s L) as [nm [X1 X2]].
      exists nm. split; [exact X1|apply in_or_app; left; exact X2].
    + destruct (IHcs H) as [nm [X1 X2]].
      exists nm. split; [exact X1|apply in_or_app; right; exact X2].
Qed.

Lemma lookup_forest_tags (f : forest) (k : nat) (s : node) :
  Soup.lookup_forest k f = Some s ->
  exists nm, Soup.label s = Some (k, nm) /\ In (k, nm) (Soup.forest_tags f).
Proof.
  induction f as [|c f IH]; intros H; [discriminate H|].
  rewrite lookup_forest_cons in H. rewrite forest_tags_cons.
  destruct (Soup.lookup k c) as [t|] eqn:L.
  - injection H as ->. destruct (lookup_tags c k s L) as [nm [X1 X2]].
    exists nm. split; [exact X1|apply in_or_app; left; exact X2].
  - destruct (IH H) as [nm [X1 X2]].
    exists nm. split; [exact X1|apply in_or_app; right; exact X2].
Qed.

Lemma pair_elements_cons (r s : node) (ps : list (node * node)) :
  pair_elements ((r, s) :: ps) = r :: s :: pair_elements ps.
Proof. reflexivity. Qed.

(** In a forest that holds the requests and responses of the pairs as
    they were found, no one inside another, each wrapper holds its pair
    as it was found. *)
Lemma wrappers_placed (ps : list (node * node)) :
  forall f,
  NoDup (Soup.forest_ids f) ->
  NoDup (map fst (labels (pair_elements ps))) ->
  Forall (placed f) (pair_elements ps) ->
  (forall x y i k,
     In x (pair_elements ps) -> In y (pair_elements ps) ->
     Soup.has_id i x = true -> Soup.has_id k y = true -> i <> k -> apart x y) ->
  Forall2 (fun p w => exists wid, w = Tag wid (Py.lit "item") [] [fst p; snd p])
          ps (wrappers ps f).
Proof.
  induction ps as [|[r s] ps IH]; intros f ND NDl Pl Ap; [constructor|].
  rewrite pair_elements_cons in *.
  apply Forall_cons_iff in Pl as [Pr Pl]. apply Forall_cons_iff in Pl as [Ps Pl].
  destruct (placed_label f r Pr) as [i [nr [ar [cr [Er [Lr Ir]]]]]].
  destruct (placed_label f s Ps) as [k [ns [as_ [cs [Es [Ls Is]]]]]].
  assert (Hir : Soup.has_id i r = true) by (subst r; apply Nat.eqb_refl).
  assert (Hks : Soup.has_id k s = true) by (subst s; apply Nat.eqb_refl).
  assert (Lbr : Soup.label r = Some (i, nr)) by (subst r; reflexivity).
  assert (Lbs : Soup.label s = Some (k, ns)) by (subst s; reflexivity).
  rewrite !labels_cons in NDl. unfold own_label in NDl. rewrite Lbr, Lbs in NDl.
  cbn [app map fst] in NDl.
  apply NoDup_cons_iff in NDl as [N1 NDl]. apply NoDup_cons_iff in NDl as [N2 NDl].
  assert (Hik : i <> k) by (intros ->; apply N1; left; reflexivity).
  assert (Ars : apart r s).
  { apply (Ap r s i k); [left; reflexivity|right; left; reflexivity|
                         exact Hir|exact Hks|exact Hik]. }
  destruct (make_wrapper_placed r s f ND Pr Ps Ars) as [i' [k' [Hi' [Hk' E]]]].
  rewrite (has_id_eq i' i r Hi' Hir), (has_id_eq k' k s Hk' Hks) in E.
  cbn [wrappers]. rewrite E. constructor; [eexists; reflexivity|].
  apply IH.
  - destruct (lookup_forest_tags f i r Lr) as [nr' [Lr' Tr]].
    destruct (lookup_forest_tags f k s Ls) as [ns' [Ls' Ts]].
    destruct (make_wrapper_spec r s f i k nr' ns' ND Lr' Ls' Tr Ts Hik)
      as [r' [s' [f' [E' [_ [_ P]]]]]].
    rewrite E in E'. injection E' as _ _ <-.
    apply (NoDup_ids_perm _ _ (Permutation_sym P)). cbn [map fst].
    apply NoDup_cons; [apply fresh_absent|exact ND].
  - exact NDl.
  - apply Forall_forall. intros x Hx. rewrite Forall_forall in Pl.
    destruct (placed_label f x (Pl x Hx)) as [m [nx [ax [cx [Ex [Lx Ix]]]]]].
    assert (Hmx : Soup.has_id m x = true) by (subst x; apply Nat.eqb_refl).
    assert (Lbx : Soup.label x = Some (m, nx)) by (subst x; reflexivity).
    assert (Im : In m (map fst (labels (pair_elements ps)))).
    { change m with (fst (m, nx)). apply in_map. exact (In_labels x _ _ Hx Lbx). }
    assert (Him : i <> m).
    { intros ->. apply N1. right. exact Im. }
    assert (Hkm : k <> m) by (intros ->; contradiction).
    apply (placed_after_wrapper f r s x i k _ ND Pr Ps (Pl x Hx) Hir Hks Ars);
      [| |reflexivity].
    + apply (Ap r x i m); [left; reflexivity|right; right; exact Hx|
                           exact Hir|exact Hmx|exact Him].
    + apply (Ap s x k m); [right; left; reflexivity|right; right; exact Hx|
                           exact Hks|exact Hmx|exact Hkm].
  - intros x y a b Hx Hy. apply Ap; right; right; assumption.
Qed.

Lemma in_pair_elements_combine (rs ss : list node) (x : node) :
  In x (pair_elements (combine rs ss)) -> In x rs \/ In x ss.
Proof.
  revert ss. induction rs as [|r rs IH]; intros [|s ss]; cbn [combine];
    [intros []|intros []|intros []|].
  rewrite pair_elements_cons. intros [<- | [<- | H]].
  - left. left. reflexivity.
  - right. left. reflexivity.
  - destruct (IH ss H); [left|right]; right; assumption.
Qed.

Lemma in_labels_combine (rs ss : list node) (a : nat) :
  In a (map fst (labels (pair_elements (combine rs ss)))) ->
  In a (map fst (labels rs)) \/ In a (map fst (labels ss)).
Proof.
  intros H. apply in_map_iff in H as [lb [<- H]].
  apply labels_In in H as [x [Hx Hl]].
  destruct (in_pair_elements_combine rs ss x Hx); [left|right];
    apply in_map; exact (In_labels x _ lb H Hl).
Qed.

Lemma NoDup_labels_combine (rs : list node) :
  forall ss,
  NoDup (map fst (labels rs)) -> NoDup (map fst (labels ss)) ->
  (forall a, In a (map fst (labels rs)) -> ~ In a (map fst (labels ss))) ->
  NoDup (map fst (labels (pair_elements (combine rs ss)))).
Proof.
  induction rs as [|r rs IH]; intros [|s ss] NDr NDs D; cbn [combine];
    [constructor|constructor|constructor|].
  rewrite pair_elements_cons, !labels_cons, !map_app.
  rewrite labels_cons, map_app in NDr, NDs.
  assert (D0 : forall a,
            In a (map fst (own_label r) ++ map fst (labels rs)) ->
            ~ In a (map fst (own_label s) ++ map fst (labels ss))).
  { intros a. specialize (D a). rewrite !labels_cons, !map_app in D. exact D. }
  clear D. rename D0 into D.
  destruct (NoDup_app_parts _ _ _ NDr) as [R1 [R2 R3]].
  destruct (NoDup_app_parts _ _ _ NDs) as [S1 [S2 S3]].
  assert (D' : forall a, In a (map fst (labels rs)) -> ~ In a (map fst (labels ss))).
  { intros a Ha Hb. apply (D a); apply in_or_app; right; assumption. }
  apply NoDup_app; [exact R1|apply NoDup_app; [exact S1|exact (IH ss R2 S2 D')|]|].
  - intros a Ha Hb. apply in_labels_combine in Hb as [Hb | Hb].
    + apply (D a); apply in_or_app; [right|left]; assumption.
    + exact (S3 a Ha Hb).
  - intros a Ha Hb. apply in_app_or in Hb as [Hb | Hb].
    + apply (D a); apply in_or_app; left; assumption.
    + apply in_labels_combine in Hb as [Hb | Hb].
      * exact (R3 a Ha Hb).
      * apply (D a); apply in_or_app; [left|right]; assumption.
Qed.

(** In a document with distinct identities, an element found below the
    root is not inside another one that holds no element of its name. *)
Lemma not_inside (soup_xml x y : node) (i : nat) (nx : Py.str) :
  NoDup (Soup.ids soup_xml) ->
  In x (Soup.descendants soup_xml) -> In y (Soup.descendants soup_xml) ->
  Soup.label x = Some (i, nx) ->
  Soup.find_all nx y = [] -> Soup.has_id i y = false ->
  ~ In i (Soup.ids y).
Proof.
  intros ND Hx Hy Lx Fy Hi X.
  unfold Soup.ids in X. apply in_map_iff in X as [[i' nm] [E X]].
  cbn in E. subst i'.
  pose proof (descendant_tags soup_xml y Hy _ X) as T1.
  pose proof (descendants_tags soup_xml x (i, nx) Hx Lx) as T2.
  pose proof (NoDup_fst_functional _ _ _ i nm nx ND T1 T2) as E. subst nm.
  destruct (tags_label y (i, nx) X) as [L | [z [Hz Lz]]].
  - destruct y; [discriminate L|]. injection L as -> _.
    cbn [Soup.has_id] in Hi. rewrite Nat.eqb_refl in Hi. discriminate Hi.
  - assert (In z (Soup.find_all nx y)).
    { apply filter_In. split; [exact Hz|].
      destruct z; [discriminate Lz|]. injection Lz as _ ->. apply eqb_refl. }
    rewrite Fy in H. destruct H.
Qed.

Lemma is_flat_spec (x : node) :
  is_flat x = true ->
  Soup.find_all (Py.lit "request") x = []
  /\ Soup.find_all (Py.lit "response") x = [].
Proof.
  unfold is_flat. intros H. apply andb_true_iff in H as [H1 H2].
  destruct (Soup.find_all (Py.lit "request") x); [|discriminate H1].
  destruct (Soup.find_all (Py.lit "response") x); [|discriminate H2].
  auto.
Qed.

Lemma entries_from_wrappers (ps : list (node * node)) (ws : list node) :
  Forall2 (fun p w => exists wid, w = Tag wid (Py.lit "item") [] [fst p; snd p])
          ps ws ->
  forall i, entries_from i ws = entries_from i (map pair_item ps).
Proof.
  induction 1 as [|p w ps ws [wid ->] _ IH]; intros i; [reflexivity|].
  cbn [map entries_from]. rewrite IH. reflexivity.
Qed.

Section FlatDocument.

Variable soup_xml : node.

Hypothesis distinct : NoDup (Soup.ids soup_xml).

Hypothesis flat :
  forall x,
  In x (Soup.find_all (Py.lit "request") soup_xml
          ++ Soup.find_all (Py.lit "response") soup_xml) ->
  is_flat x = true.

Lemma found_element (x : node) :
  In x (pair_elements (pairs soup_xml)) ->
  In x (Soup.descendants soup_xml)
  /\ is_flat x = true
  /\ exists i nm at_ cs,
       x = Tag i nm at_ cs
       /\ (nm = Py.lit "request" \/ nm = Py.lit "response").
Proof.
  intros H. apply in_pair_elements_combine in H.
  assert (F : is_flat x = true).
  { apply flat. apply in_or_app. exact H. }
  destruct H as [H | H]; apply find_all_In in H as [H [i [at_ [cs E]]]];
    (split; [exact H|]); (split; [exact F|]);
    [exists i, (Py.lit "request"), at_, cs|exists i, (Py.lit "response"), at_, cs];
    (split; [exact E|]); [left|right]; reflexivity.
Qed.

Lemma found_apart (x y : node) (i k : nat) :
  In x (pair_elements (pairs soup_xml)) -> In y (pair_elements (pairs soup_xml)) ->
  Soup.has_id i x = true -> Soup.has_id k y = true -> i <> k -> apart x y.
Proof.
  intros Hx Hy Hi Hk Hik.
  destruct (found_element x Hx) as [Dx [Fx [i' [nx [ax [cx [Ex Nx]]]]]]].
  destruct (found_element y Hy) as [Dy [Fy [k' [ny [ay [cy [Ey Ny]]]]]]].
  subst x y. cbn [Soup.has_id] in Hi, Hk. apply Nat.eqb_eq in Hi, Hk. subst i' k'.
  destruct (is_flat_spec _ Fx) as [Fx1 Fx2]. destruct (is_flat_spec _ Fy) as [Fy1 Fy2].
  cbn [apart]. split.
  - apply (not_inside soup_xml (Tag i nx ax cx) (Tag k ny ay cy) i nx distinct Dx Dy
             eq_refl).
    + destruct Nx as [-> | ->]; assumption.
    + cbn [Soup.has_id]. apply Nat.eqb_neq. exact Hik.
  - apply (not_inside soup_xml (Tag k ny ay cy) (Tag i nx ax cx) k ny distinct Dy Dx
             eq_refl).
    + destruct Ny as [-> | ->]; assumption.
    + cbn [Soup.has_id]. apply Nat.eqb_neq. intros ->. contradiction.
Qed.

Lemma found_placed (x : node) :
  In x (pair_elements (pairs soup_xml)) -> placed [soup_xml] x.
Proof.
  intros Hx. destruct (found_element x Hx) as [Dx [_ [i [nx [ax [cx [-> _]]]]]]].
  cbn [placed]. rewrite lookup_forest_cons.
  rewrite (descendant_lookup soup_xml distinct _ i nx Dx eq_refl). reflexivity.
Qed.

Lemma found_distinct :
  NoDup (map fst (labels (pair_elements (pairs soup_xml)))).
Proof.
  apply NoDup_labels_combine; try (apply NoDup_labels_find_all; exact distinct).
  intros a Ha Hb.
  apply in_map_iff in Ha as [[a1 n1] [E1 Ha]]. cbn in E1. subst a1.
  apply in_map_iff in Hb as [[a2 n2] [E2 Hb]]. cbn in E2. subst a2.
  apply labels_find_all in Ha as [-> Ta]. apply labels_find_all in Hb as [-> Tb].
  pose proof (NoDup_fst_functional _ _ _ a _ _ distinct Ta Tb) as E.
  discriminate E.
Qed.

Lemma flat_wrappers :
  Forall2 (fun p w => exists wid, w = Tag wid (Py.lit "item") [] [fst p; snd p])
          (pairs soup_xml) (wrappers (pairs soup_xml) [soup_xml]).
Proof.
  apply wrappers_placed.
  - rewrite forest_ids_cons. cbn [Soup.forest_ids Soup.forest_tags flat_map map].
    rewrite app_nil_r. exact distinct.
  - exact found_distinct.
  - apply Forall_forall. exact found_placed.
  - exact found_apart.
Qed.

End FlatDocument.

(** X13.  In a document with neither items nor nesting among its requests
    and responses, the entries of the fallback are those of items that
    hold the k-th request and the k-th response as they stand in the
    document, and in each of them the request block is that of the
    request and the response block that of the response. *)
Theorem flat_pairs_fallback (soup_xml : node) (container : html) :
  NoDup (Soup.ids soup_xml) ->
  items soup_xml = [] ->
  pairs soup_xml <> [] ->
  (forall x,
     In x (Soup.find_all (Py.lit "request") soup_xml
             ++ Soup.find_all (Py.lit "response") soup_xml) ->
     is_flat x = true) ->
  fill_container soup_xml container
  = Ok (append_all (entries_from 1 (map pair_item (pairs soup_xml))) container)
  /\ forall r s,
       In (r, s) (pairs soup_xml) ->
       Soup.find (Py.lit "request") (pair_item (r, s)) = Some r
       /\ Soup.find (Py.lit "response") (pair_item (r, s)) = Some s.
Proof.
  intros ND Hi Hp Flat. split.
  - rewrite fill_container_report. unfold report_entries. rewrite Hi.
    destruct (pairs soup_xml) eqn:E; [contradiction|]. cbn [is_empty negb].
    rewrite <- E.
    rewrite (entries_from_wrappers _ _ (flat_wrappers soup_xml ND Flat)).
    reflexivity.
  - intros r s H. unfold pairs in H.
    pose proof (in_combine_l _ _ _ _ H) as Hr.
    pose proof (in_combine_r _ _ _ _ H) as Hs.
    assert (Fr : is_flat r = true) by (apply Flat, in_or_app; left; exact Hr).
    apply is_flat_spec in Fr as [_ Fr].
    apply find_all_In in Hr as [_ [i [ar [cr ->]]]].
    apply find_all_In in Hs as [_ [k [as_ [cs ->]]]].
    unfold Soup.find, Soup.find_all in *. unfold pair_item.
    rewrite descendants_Tag. cbn [fst snd flat_map app]. split.
    + cbn [filter Soup.is_named]. rewrite eqb_refl. reflexivity.
    + cbn [filter Soup.is_named].
      change (Py.eqb (Py.lit "request") (Py.lit "response")) with false.
      cbv iota. rewrite filter_app, Fr. cbn [app filter Soup.is_named].
      rewrite eqb_refl. reflexivity.
Qed.

Lemma flat_pairs_fallback_witness :
  let text := fun s : string => [Str NavigableString (Py.lit s)] in
  let r1 := Tag 2 (Py.lit "request") [] (text "a"%string) in
  let s1 := Tag 3 (Py.lit "response") [] (text "b"%string) in
  let r2 := Tag 4 (Py.lit "request") [] (text "c"%string) in
  let s2 := Tag 5 (Py.lit "response") [] (text "d"%string) in
  let r3 := Tag 6 (Py.lit "request") [] (text "e"%string) in
  let doc :=
    Tag 0 (Py.lit "[document]") []
      [Tag 1 (Py.lit "root") [] [r1; s1; r2; s2; r3]] in
  fill_container doc empty_container
  = Ok (append_all [entry_of 1 (pair_item (r1, s1)); entry_of 2 (pair_item (r2, s2))]
          empty_container).
Proof.
  intros text r1 s1 r2 s2 r3 doc.
  assert (ND : NoDup (Soup.ids doc)).
  { repeat constructor; simpl; intuition discriminate. }
  refine (proj1 (flat_pairs_fallback doc empty_container ND eq_refl _ _)).
  - discriminate.
  - intros x Hx. cbn in Hx.
    repeat (destruct Hx as [<- | Hx]; [reflexivity|]). destruct Hx.
Defined.

(** ** Strict Base64 is recognized *)

Lemma is_b64digit_char (c : N) : is_b64digit c = true -> is_b64char c = true.
Proof.
  unfold is_b64digit, b64_value, is_b64char. intros H.
  destruct ((65 <=? c) && (c <=? 90))%N; [reflexivity|].
  destruct ((97 <=? c) && (c <=? 122))%N; [reflexivity|].
  destruct ((48 <=? c) && (c <=? 57))%N; [reflexivity|].
  destruct (c =? 43)%N; [reflexivity|].
  destruct (c =? 47)%N; [reflexivity|discriminate H].
Qed.

Lemma pad_ok_chars (s : Py.str) :
  pad_ok (drop_digits s) -> forallb is_b64char s = true.
Proof.
  induction s as [|c s IH]; [reflexivity|]. cbn [drop_digits forallb].
  destruct (is_b64digit c) eqn:D.
  - intros H. rewrite (is_b64digit_char c D). exact (IH H).
  - intros [H | [H | H]]; [discriminate| |]; injection H as -> ->; reflexivity.
Qed.

Lemma filter_id (A : Type) (f : A -> bool) (l : list A) :
  forallb f l = true -> filter f l = l.
Proof.
  induction l as [|x l IH]; [reflexivity|]. cbn [forallb filter].
  intros H. apply andb_true_iff in H as [Hx Hl]. rewrite Hx, (IH Hl). reflexivity.
Qed.

Lemma lstrip_id (t : Py.str) :
  forallb (fun c => negb (Py.isspace c)) t = true -> Py.lstrip t = t.
Proof.
  destruct t as [|c t]; [reflexivity|]. cbn [forallb Py.lstrip].
  intros H. apply andb_true_iff in H as [H _]. apply negb_true_iff in H.
  rewrite H. reflexivity.
Qed.

Lemma strip_id (t : Py.str) :
  forallb (fun c => negb (Py.isspace c)) t = true -> Py.strip t = t.
Proof.
  intros H. unfold Py.strip, Py.rstrip. rewrite (lstrip_id t H).
  rewrite lstrip_id; [apply rev_involutive|]. apply forallb_rev_iff. exact H.
Qed.

Lemma b64char_not_space (t : Py.str) :
  forallb is_b64char t = true ->
  forallb (fun c => negb (Py.isspace c)) t = true.
Proof.
  rewrite !forallb_forall. intros H c Hc. specialize (H c Hc).
  destruct (Py.isspace c) eqn:S; [|reflexivity].
  rewrite (space_not_b64char c S) in H. discriminate H.
Qed.

Lemma forallb_weaken (A : Type) (f g : A -> bool) (l : list A) :
  (forall x, f x = true -> g x = true) -> forallb f l = true -> forallb g l = true.
Proof.
  intros W. rewrite !forallb_forall. intros H x Hx. exact (W x (H x Hx)).
Qed.

(** What a strict Base64 string of 8 characters or more is to the
    heuristic: its own trimmed form, through every test. *)
Lemma strict_b64_likely (t : Py.str) :
  strict_b64 t = true -> (8 <= Py.len t < 2 ^ 50)%Z ->
  Py.strip t = t /\ findall_b64 t = t /\ sub_ws t = t
  /\ is_likely_base64 t = true.
Proof.
  intros S L. pose proof S as S'. apply strict_b64_spec in S' as [_ P].
  pose proof (pad_ok_chars t P) as C. pose proof (b64char_not_space t C) as W.
  assert (E1 : Py.strip t = t) by exact (strip_id t W).
  assert (E2 : findall_b64 t = t) by exact (filter_id _ is_b64char t C).
  assert (E3 : sub_ws t = t) by exact (filter_id _ _ t W).
  split; [exact E1|]. split; [exact E2|]. split; [exact E3|].
  rewrite is_likely_base64_unfold, E1, E2.
  rewrite FloatFacts.truediv_gt_0_9 by lia.
  apply andb_true_iff. split; [|apply Z.ltb_lt; lia].
  unfold passes_gate, fullmatch_b64_ws.
  assert (T : Py.truthy t = true).
  { destruct t; [cbn in L; lia|reflexivity]. }
  rewrite T. cbn [andb].
  replace (8 <=? Py.len t)%Z with true by (symmetry; apply Z.leb_le; lia).
  cbn [andb].
  assert (F : forallb (fun c => is_b64char c || Py.isspace c || (c =? CR)%N
                               || (c =? LF)%N) t = true).
  { apply (forallb_weaken N is_b64char _ t); [|exact C].
    intros x ->. reflexivity. }
  assert (R1 : Py.remove_char LF t = t).
  { apply filter_id. apply (forallb_weaken N _ _ t) with (2 := W). intros x Hx.
    destruct (N.eqb_spec x LF) as [-> |]; [discriminate Hx|reflexivity]. }
  assert (R2 : Py.remove_char CR t = t).
  { apply filter_id. apply (forallb_weaken N _ _ t) with (2 := W). intros x Hx.
    destruct (N.eqb_spec x CR) as [-> |]; [discriminate Hx|reflexivity]. }
  rewrite F, R1, R2. unfold strict_b64 in S. apply andb_true_iff in S as [S _].
  rewrite S. reflexivity.
Qed.

Lemma sub_ws_margins (a t c : Py.str) :
  forallb Py.isspace a = true -> forallb Py.isspace c = true ->
  sub_ws (a ++ t ++ c) = sub_ws t.
Proof.
  intros Ha Hc. unfold sub_ws. rewrite !filter_app.
  fold (sub_ws a). fold (sub_ws c).
  rewrite (@sub_ws_all_space a Ha), (@sub_ws_all_space c Hc), app_nil_r. reflexivity.
Qed.

Lemma try_decode_base64_decoded (s s' : Py.str) (b : Py.bytes) :
  sub_ws s = sub_ws s' -> b64decode (sub_ws s') = Ok b ->
  try_decode_base64 s = try_decode_base64 s'
  /\ exists d k, try_decode_base64 s' = Ok (d, k) /\ k <> KRaw.
Proof.
  intros E B. unfold try_decode_base64. rewrite E, B.
  unfold try_except, try_catch, bytes_decode_utf8. cbn [bind].
  destruct (utf8_decode (map Byte.to_N b)) as [d|]; cbn [bind is_UnicodeDecodeError];
    (split; [reflexivity|]);
    eexists _, _; (split; [reflexivity|discriminate]).
Qed.

(** X14.  [is_likely_base64] accepts every strict Base64 string of 8
    characters or more (and fewer than [2^50]), whatever whitespace
    surrounds it. *)
Theorem is_likely_base64_accepts_strict (a t c : Py.str) :
  strict_b64 t = true -> (8 <= Py.len t < 2 ^ 50)%Z ->
  forallb Py.isspace a = true -> forallb Py.isspace c = true ->
  is_likely_base64 (a ++ t ++ c) = true.
Proof.
  intros S L Ha Hc. destruct (strict_b64_likely t S L) as [_ [_ [_ H]]].
  rewrite <- H. rewrite !is_likely_base64_unfold.
  rewrite <- (findall_b64_strip (a ++ t ++ c)), <- (findall_b64_strip t).
  rewrite (strip_surrounding a t c Ha Hc). reflexivity.
Qed.

Lemma is_likely_base64_accepts_strict_witness :
  is_likely_base64 ([LF; SPACE] ++ Py.lit "aGVsbG8gd29ybGQ=" ++ [CR; LF]) = true.
Proof.
  apply is_likely_base64_accepts_strict;
    [reflexivity|vm_compute; split; [discriminate|reflexivity]
    |reflexivity|reflexivity].
Defined.

(** X15.  A node without a Base64 declaration whose text is strict Base64
    of 8 characters or more, with or without whitespace around it, is
    decoded: the result is that of decoding the Base64 text, and its kind
    is ['text'] or ['hex'], never ['raw']. *)
Theorem undeclared_base64_is_decoded (nd : node) (a t c : Py.str) :
  declares_base64 nd = false ->
  Soup.joined_strings nd = a ++ t ++ c ->
  forallb Py.isspace a = true -> forallb Py.isspace c = true ->
  strict_b64 t = true -> (8 <= Py.len t < 2 ^ 50)%Z ->
  exists d k,
    try_decode_base64 t = Ok (d, k) /\ k <> KRaw
    /\ extract_node_text (Some nd) = Ok (Some d, Some k).
Proof.
  intros Hd Hj Ha Hc S L.
  destruct (strict_b64_likely t S L) as [E1 [E2 [E3 H]]].
  assert (Lk : is_likely_base64 (a ++ t ++ c) = true).
  { rewrite <- H. rewrite !is_likely_base64_unfold.
    rewrite <- (findall_b64_strip (a ++ t ++ c)), <- (findall_b64_strip t).
    rewrite (strip_surrounding a t c Ha Hc). reflexivity. }
  pose proof S as B. rewrite <- E3 in B. apply b64decode_strict in B as [b B].
  destruct (try_decode_base64_decoded (a ++ t ++ c) t b (sub_ws_margins a t c Ha Hc) B)
    as [E [d [k [D K]]]].
  exists d, k. split; [exact D|]. split; [exact K|].
  unfold extract_node_text. fold (declares_base64 nd). rewrite Hd, Hj, Lk, E, D.
  reflexivity.
Qed.

Lemma undeclared_base64_is_decoded_witness :
  let nd := Tag 1 (Py.lit "response") []
              [Str CData ([LF] ++ Py.lit "aGVsbG8gd29ybGQ=" ++ [LF])] in
  exists d k,
    try_decode_base64 (Py.lit "aGVsbG8gd29ybGQ=") = Ok (d, k) /\ k <> KRaw
    /\ extract_node_text (Some nd) = Ok (Some d, Some k).
Proof.
  apply (undeclared_base64_is_decoded
           (Tag 1 (Py.lit "response") []
              [Str CData ([LF] ++ Py.lit "aGVsbG8gd29ybGQ=" ++ [LF])])
           [LF] (Py.lit "aGVsbG8gd29ybGQ=") [LF]);
    [reflexivity|reflexivity|reflexivity|reflexivity|reflexivity
    |vm_compute; split; [discriminate|reflexivity]].
Defined.

(** ** Nothing of the input becomes an element or an attribute *)

Lemma elements_Tag (nm : Py.str) (at_ : list (Py.str * Py.str)) (cs : list html) :
  elements (HTag nm at_ cs) = (nm, at_) :: flat_map elements cs.
Proof. reflexivity. Qed.

Lemma in_vocabulary_Tag (nm : Py.str) (at_ : list (Py.str * Py.str))
    (cs : list html) :
  In (nm, at_) vocabulary -> Forall in_vocabulary cs ->
  in_vocabulary (HTag nm at_ cs).
Proof.
  intros H F. unfold in_vocabulary. rewrite elements_Tag.
  apply Forall_cons; [exact H|].
  induction F as [|c cs Hc _ IH]; [constructor|].
  cbn [flat_map]. apply Forall_app. split; [exact Hc|exact IH].
Qed.

Lemma in_vocabulary_string (s : Py.str) : in_vocabulary (HString s).
Proof. constructor. Qed.

Ltac in_vocab :=
  unfold vocabulary, div_of; repeat (first [left; reflexivity | right]).

Ltac vocab :=
  repeat match goal with
    | |- in_vocabulary (HString _) => apply in_vocabulary_string
    | |- in_vocabulary (HTag _ _ _) => apply in_vocabulary_Tag; [in_vocab|]
    | |- Forall in_vocabulary [] => apply Forall_nil
    | |- Forall in_vocabulary (_ :: _) => apply Forall_cons
    end.

Lemma in_vocabulary_field_line (cls label : Py.str) (field : option node) :
  In (Py.lit "div", [(Py.lit "class", cls)]) vocabulary ->
  Forall in_vocabulary (field_line cls label field).
Proof.
  intros H. unfold field_line. destruct (found_string field); [|constructor].
  apply Forall_cons; [|constructor].
  apply in_vocabulary_Tag; [exact H|]. vocab.
Qed.

Lemma in_vocabulary_block_part (title_text : Py.str) (nd : option node) :
  Forall in_vocabulary (block_part title_text nd).
Proof.
  destruct nd as [n|]; [|constructor]. cbn [block_part].
  apply Forall_cons.
  - unfold block_of, plain_block, badged_block, pre_element, block_class.
    destruct (snd (payload_of n)); destruct (Py.eqb title_text (Py.lit "Request"));
      vocab.
  - unfold note_part, encoding_note.
    destruct (Soup.get (Py.lit "encoding") n) as [enc|]; [|constructor].
    destruct (Py.truthy enc); vocab.
Qed.

Lemma in_vocabulary_entry_of (idx : nat) (item : node) :
  in_vocabulary (entry_of idx item).
Proof.
  unfold entry_of. apply in_vocabulary_Tag; [in_vocab|].
  apply Forall_cons.
  - apply in_vocabulary_Tag; [in_vocab|]. apply Forall_cons; [unfold item_label; vocab|].
    repeat (apply Forall_app; split);
      apply in_vocabulary_field_line; in_vocab.
  - repeat (apply Forall_app; split);
      first [apply in_vocabulary_block_part
            |apply in_vocabulary_field_line; in_vocab].
Qed.

Lemma in_vocabulary_entries_from (its : list node) :
  forall i, Forall in_vocabulary (entries_from i its).
Proof.
  induction its as [|it its IH]; intros i; [constructor|].
  cbn [entries_from]. apply Forall_cons; [apply in_vocabulary_entry_of|apply IH].
Qed.

Lemma in_vocabulary_report_entries (soup_xml : node) :
  Forall in_vocabulary (report_entries soup_xml).
Proof.
  unfold report_entries.
  destruct (negb (is_empty (items soup_xml)));
    [apply in_vocabulary_entries_from|].
  destruct (negb (is_empty (pairs soup_xml)));
    [apply in_vocabulary_entries_from|].
  unfold no_items_message. cbn [Html.new_tag Html.set_string]. vocab.
Qed.

(** X16.  Whatever the input holds, the elements of the written document
    are those that the script makes, with the attributes that the script
    gives them: text of the input is in strings only, never in an element
    name, an attribute name or an attribute value. *)
Theorem report_elements_are_fixed (soup_xml : node) (container : html) :
  fill_container soup_xml empty_container = Ok container ->
  Forall (fun e => In e vocabulary) (flat_map elements (html_soup container)).
Proof.
  rewrite fill_container_report. intros H. injection H as <-.
  unfold empty_container, Html.new_tag. rewrite append_all_contents. cbn [app].
  assert (C : in_vocabulary
                (HTag (Py.lit "div") [(Py.lit "class", Py.lit "container")]
                   (report_entries soup_xml))).
  { apply in_vocabulary_Tag; [in_vocab|apply in_vocabulary_report_entries]. }
  assert (T : Forall in_vocabulary
                (html_soup (HTag (Py.lit "div") [(Py.lit "class", Py.lit "container")]
                              (report_entries soup_xml)))).
  { unfold html_soup. apply Forall_cons; [constructor|].
    apply Forall_cons; [|constructor].
    apply in_vocabulary_Tag; [in_vocab|]. apply Forall_cons; [vocab|].
    apply Forall_cons; [|constructor].
    apply in_vocabulary_Tag; [in_vocab|]. apply Forall_cons; [exact C|constructor]. }
  induction T as [|t ts Ht _ IH]; [constructor|].
  cbn [flat_map]. apply Forall_app. split; [exact Ht|exact IH].
Qed.

Lemma report_elements_are_fixed_witness :
  let soup_xml :=
    Tag 0 (Py.lit "[document]") []
      [Tag 1 (Py.lit "item") [(Py.lit "onclick", Py.lit "alert(1)")]
         [Tag 2 (Py.lit "script") [] [Str NavigableString (Py.lit "<b>")];
          Tag 3 (Py.lit "request") [(Py.lit "encoding", Py.lit "x")]
            [Str CData (Py.lit "<img src=x>")]]] in
  exists container,
    fill_container soup_xml empty_container = Ok container
    /\ Forall (fun e => In e vocabulary) (flat_map elements (html_soup container)).
Proof.
  intros soup_xml. eexists. split; [reflexivity|].
  apply (report_elements_are_fixed soup_xml). reflexivity.
Defined.

(** ** Payloads that do not decode *)

(** X17.  A payload that is taken for Base64, by declaration or by the
    heuristic, and that [b64decode(validate=True)] refuses once its
    whitespace is removed, is shown as it stands in the document,
    untrimmed, in a block with the badge [raw]; the run goes on. *)
Theorem undecodable_payload_is_shown_raw (nd : node) (title_text : Py.str)
    (entry : html) :
  let raw := Soup.joined_strings nd in
  declares_base64 nd = true \/ is_likely_base64 raw = true ->
  accepted_b64 (sub_ws raw) = false ->
  extract_node_text (Some nd) = Ok (Some raw, Some KRaw)
  /\ add_block title_text (Some nd) entry
     = Ok (with_block (badged_block title_text (Py.lit "raw") raw) nd entry).
Proof.
  intros raw Hd Hs.
  pose proof (try_decode_base64_raw raw Hs) as D.
  assert (X : extract_node_text (Some nd) = Ok (Some raw, Some KRaw)).
  { unfold extract_node_text. fold (declares_base64 nd). fold raw.
    destruct (declares_base64 nd).
    - rewrite D. reflexivity.
    - destruct Hd as [Hd | Hd]; [discriminate Hd|]. rewrite Hd, D. reflexivity. }
  split; [exact X|]. exact (add_block_of title_text nd entry raw KRaw X).
Qed.

Lemma undecodable_payload_is_shown_raw_witness :
  let nd := Tag 1 (Py.lit "response") [(Py.lit "encoding", Py.lit "base64")]
              [Str NavigableString (Py.lit " aGVsbG8 ")] in
  extract_node_text (Some nd) = Ok (Some (Py.lit " aGVsbG8 "), Some KRaw).
Proof.
  exact (proj1 (undecodable_payload_is_shown_raw
                  (Tag 1 (Py.lit "response") [(Py.lit "encoding", Py.lit "base64")]
                     [Str NavigableString (Py.lit " aGVsbG8 ")])
                  (Py.lit "Response") empty_container
                  (or_introl eq_refl) eq_refl)).
Defined.

(** ** The standard encoding of every byte sequence *)

Lemma hex_lower_check_all (x : byte) : hex_lower_check (Byte.to_N x) = true.
Proof.
  apply (range256_complete hex_lower_check); [|apply to_N_lt].
  vm_compute. reflexivity.
Qed.

(** [bytes.hex] writes the lower-case hexadecimal form. *)
Lemma bytes_hex_lower (b : Py.bytes) : bytes_hex b = hex_lower b.
Proof.
  induction b as [|x b IH]; [reflexivity|].
  pose proof (hex_lower_check_all x) as D. unfold hex_lower_check in D.
  apply andb_true_iff in D as [D1 D2]. apply N.eqb_eq in D1, D2.
  change (bytes_hex (x :: b))
    with (hex_digit (Byte.to_N x / 16) :: hex_digit (Byte.to_N x mod 16) :: bytes_hex b).
  change (hex_lower (x :: b))
    with (nth (N.to_nat (Byte.to_N x / 16)) lower_hex_digits 0%N
            :: nth (N.to_nat (Byte.to_N x mod 16)) lower_hex_digits 0%N
            :: hex_lower b).
  rewrite D1, D2, IH. reflexivity.
Qed.

(** Whether bytes are valid UTF-8 is what the strict decoder decides. *)
Lemma valid_utf8_decode (b : Py.bytes) :
  valid_utf8 b <-> exists t, utf8_decode (map Byte.to_N b) = Some t.
Proof.
  split.
  - intros [t [S E]]. exists t. subst b.
    rewrite (utf8_encode_bytes t S). exact (utf8_decode_encode t S).
  - intros [t U]. exists t. apply utf8_decode_encoded in U. tauto.
Qed.

(** C7.  For every byte sequence [b], [try_decode_base64] applied to the
    standard Base64 encoding of [b] returns the string of Unicode scalar
    values whose UTF-8 encoding is [b], with kind ['text'], when [b] is
    valid UTF-8, and otherwise the lower-case hexadecimal form of [b] with
    kind ['hex']; one of the two is the case, and [bytes.fromhex] maps
    that hexadecimal form back to [b].  The text, the validity and the
    hexadecimal form are those of the references [utf8_encode] and
    [hex_lower], not those of the decoder. *)
Theorem decode_of_standard_encoding (b : Py.bytes) :
  (forall t,
     forallb is_scalar t = true -> utf8_encode t = b ->
     try_decode_base64 (b64encode b) = Ok (t, KText))
  /\ (~ valid_utf8 b ->
      try_decode_base64 (b64encode b) = Ok (hex_lower b, KHex))
  /\ (valid_utf8 b \/ ~ valid_utf8 b)
  /\ bytes_fromhex (hex_lower b) = Some b.
Proof.
  assert (D : try_decode_base64 (b64encode b)
              = Ok (match utf8_decode (map Byte.to_N b) with
                    | Some t => (t, KText)
                    | None => (bytes_hex b, KHex)
                    end)).
  { apply try_decode_base64_of_encoding, sub_ws_plain_ascii, b64encode_plain_ascii. }
  split; [|split; [|split]].
  - intros t S E. rewrite D. subst b.
    rewrite (utf8_encode_bytes t S), (utf8_decode_encode t S). reflexivity.
  - intros NV. rewrite D.
    destruct (utf8_decode (map Byte.to_N b)) as [t|] eqn:U.
    + exfalso. apply NV, valid_utf8_decode. exists t. exact U.
    + rewrite bytes_hex_lower. reflexivity.
  - destruct (utf8_decode (map Byte.to_N b)) as [t|] eqn:U.
    + left. apply valid_utf8_decode. exists t. exact U.
    + right. intros V. apply valid_utf8_decode in V as [t V]. congruence.
  - rewrite <- bytes_hex_lower. apply bytes_fromhex_hex.
Qed.

Lemma decode_of_standard_encoding_witness :
  try_decode_base64 (Py.lit "aMOp4oKs") = Ok ([104; 233; 8364]%N, KText)
  /\ try_decode_base64 (Py.lit "/+7/") = Ok (Py.lit "ffeeff", KHex).
Proof.
  split.
  - apply (proj1 (decode_of_standard_encoding
                    (map byte_of_N [104; 195; 169; 226; 130; 172]%N))
             [104; 233; 8364]%N); reflexivity.
  - apply (proj1 (proj2 (decode_of_standard_encoding
                           (map byte_of_N [255; 238; 255]%N)))).
    intros V. apply valid_utf8_decode in V as [t V]. discriminate V.
Defined.

(** ** The request/response fallback *)

Lemma entries_from_length (its : list node) :
  forall i, length (entries_from i its) = length its.
Proof.
  induction its as [|it its IH]; intros i; [reflexivity|].
  cbn [entries_from length]. rewrite IH. reflexivity.
Qed.

(** In an item that holds a request and a response without requests or
    responses of their own, the script finds these two. *)
Lemma pair_item_find (r s : node) (i k : nat) (ar as_ : list (Py.str * Py.str))
    (cr cs : list node) :
  r = Tag i (Py.lit "request") ar cr -> s = Tag k (Py.lit "response") as_ cs ->
  is_empty (Soup.find_all (Py.lit "response") r) = true ->
  Soup.find (Py.lit "request") (pair_item (r, s)) = Some r
  /\ Soup.find (Py.lit "response") (pair_item (r, s)) = Some s.
Proof.
  intros -> -> Fr.
  unfold Soup.find, Soup.find_all in *. unfold pair_item.
  rewrite descendants_Tag. cbn [fst snd flat_map app]. split.
  - cbn [filter Soup.is_named]. rewrite eqb_refl. reflexivity.
  - cbn [filter Soup.is_named].
    change (Py.eqb (Py.lit "request") (Py.lit "response")) with false.
    cbv iota. rewrite filter_app.
    destruct (filter (Soup.is_named (Py.lit "response"))
                (Soup.descendants (Tag i (Py.lit "request") ar cr)));
      [|discriminate Fr].
    cbn [app filter Soup.is_named]. rewrite eqb_refl. reflexivity.
Qed.

(** C6.  In a document without [item], [attackitem], [row] and
    [requestitem] elements, whose elements are distinct objects, the pairs
    are positional: the pair of position [k] is the [k]-th [request] with
    the [k]-th [response] in document order, and there are as many pairs
    as the shorter of the two lists has elements.  The script makes one
    wrapper per pair, holding the request and the response of that pair
    (the very elements: same identity), and the report consists of the
    entries of these wrappers, numbered from 1 in that order; with no pair
    at all it consists of the placeholder.  When no request or response
    holds another request or response, the wrapper of position [k] holds
    the [k]-th request and the [k]-th response exactly as they stand in
    the document, and its entry, numbered [k + 1], is the entry of an item
    made of these two, in which [find] gives the request and the
    response. *)
Theorem pairs_fallback (soup_xml : node) (container : html) :
  NoDup (Soup.ids soup_xml) ->
  items soup_xml = [] ->
  let requests := Soup.find_all (Py.lit "request") soup_xml in
  let responses := Soup.find_all (Py.lit "response") soup_xml in
  let n := Nat.min (length requests) (length responses) in
  let ws := wrappers (pairs soup_xml) [soup_xml] in
  length (pairs soup_xml) = n
  /\ length ws = n
  /\ length (entries_from 1 ws) = n
  /\ (n <> 0 ->
      fill_container soup_xml container
      = Ok (append_all (entries_from 1 ws) container))
  /\ (n = 0 ->
      fill_container soup_xml container
      = Ok (Html.append no_items_message container))
  /\ (forall k r s,
        nth_error requests k = Some r -> nth_error responses k = Some s ->
        nth_error (pairs soup_xml) k = Some (r, s)
        /\ exists w,
             nth_error ws k = Some w /\ wraps (r, s) w
             /\ nth_error (entries_from 1 ws) k = Some (entry_of (S k) w))
  /\ ((forall x, In x (requests ++ responses) -> is_flat x = true) ->
      forall k r s,
        nth_error requests k = Some r -> nth_error responses k = Some s ->
        (exists wid, nth_error ws k = Some (Tag wid (Py.lit "item") [] [r; s]))
        /\ nth_error (entries_from 1 ws) k
           = Some (entry_of (S k) (pair_item (r, s)))
        /\ Soup.find (Py.lit "request") (pair_item (r, s)) = Some r
        /\ Soup.find (Py.lit "response") (pair_item (r, s)) = Some s).
Proof.
  intros ND Hi. cbv zeta.
  assert (W : Forall2 wraps (pairs soup_xml) (wrappers (pairs soup_xml) [soup_xml])).
  { apply wrappers_spec; [|apply pairs_in_forest].
    unfold Soup.forest_ids. simpl. rewrite app_nil_r. exact ND. }
  assert (Hlen : length (pairs soup_xml)
                 = Nat.min (length (Soup.find_all (Py.lit "request") soup_xml))
                           (length (Soup.find_all (Py.lit "response") soup_xml)))
    by apply length_combine.
  assert (Wlen : length (wrappers (pairs soup_xml) [soup_xml])
                 = length (pairs soup_xml))
    by exact (Forall2_length_eq _ _ _ _ _ W).
  split; [exact Hlen|]. split; [rewrite Wlen; exact Hlen|].
  split; [rewrite entries_from_length, Wlen; exact Hlen|].
  split; [|split; [|split]].
  - intros Hn. rewrite fill_container_report. unfold report_entries.
    rewrite Hi. cbn [is_empty negb].
    destruct (pairs soup_xml) as [|p ps] eqn:Ep; [simpl in Hlen; congruence|].
    reflexivity.
  - intros Hn. rewrite fill_container_report. unfold report_entries.
    rewrite Hi. cbn [is_empty negb].
    destruct (pairs soup_xml) as [|p ps] eqn:Ep; [reflexivity|].
    simpl in Hlen. congruence.
  - intros k r s Hr Hs.
    assert (P : nth_error (pairs soup_xml) k = Some (r, s))
      by (apply nth_error_combine; assumption).
    split; [exact P|].
    destruct (Forall2_nth_error _ _ _ _ _ W k (r, s) P) as [w [Hw Ww]].
    exists w. split; [exact Hw|]. split; [exact Ww|].
    rewrite entries_from_nth, Hw. reflexivity.
  - intros Flat k r s Hr Hs.
    assert (P : nth_error (pairs soup_xml) k = Some (r, s))
      by (apply nth_error_combine; assumption).
    pose proof (flat_wrappers soup_xml ND Flat) as F.
    destruct (Forall2_nth_error _ _ _ _ _ F k (r, s) P) as [w [Hw [wid Ew]]].
    cbn [fst snd] in Ew. subst w.
    split; [exists wid; exact Hw|]. split.
    + rewrite (entries_from_wrappers _ _ F), entries_from_nth.
      rewrite (map_nth_error pair_item k (pairs soup_xml) P). reflexivity.
    + apply nth_error_In in Hr, Hs.
      assert (Fr : is_flat r = true) by (apply Flat, in_or_app; left; exact Hr).
      apply is_flat_spec in Fr as [_ Fr].
      apply find_all_In in Hr as [_ [i [ar [cr Er]]]].
      apply find_all_In in Hs as [_ [i' [as_ [cs Es]]]].
      apply (pair_item_find r s i i' ar as_ cr cs Er Es).
      rewrite Fr. reflexivity.
Qed.

Lemma pairs_fallback_witness :
  let text := fun s : string => [Str NavigableString (Py.lit s)] in
  let doc :=
    Tag 0 (Py.lit "[document]") []
      [Tag 1 (Py.lit "root") []
         [Tag 2 (Py.lit "request") [] (text "a"%string);
          Tag 3 (Py.lit "response") [] (text "b"%string);
          Tag 4 (Py.lit "request") [] (text "c"%string);
          Tag 5 (Py.lit "response") [] (text "d"%string);
          Tag 6 (Py.lit "request") [] (text "e"%string)]] in
  let entry := fun (label request response : string) =>
    HTag (Py.lit "div") [(Py.lit "class", Py.lit "entry")]
      [ HTag (Py.lit "div") [(Py.lit "class", Py.lit "hdr")]
          [HTag (Py.lit "div") [(Py.lit "class", Py.lit "kv")]
             [HString (Py.lit label)]];
        plain_block (Py.lit "Request") (Py.lit request);
        plain_block (Py.lit "Response") (Py.lit response) ] in
  fill_container doc empty_container
  = Ok (append_all [entry "Item #1" "a" "b"; entry "Item #2" "c" "d"]%string
          empty_container).
Proof.
  intros text doc entry.
  assert (ND : NoDup (Soup.ids doc)).
  { repeat constructor; simpl; intuition discriminate. }
  pose proof (pairs_fallback doc empty_container ND eq_refl) as H.
  cbv zeta in H. destruct H as (_ & _ & _ & H & _).
  rewrite H by (intros E; vm_compute in E; discriminate E).
  vm_compute. reflexivity.
Defined.

(** ** Reading the document as HTML *)










(** ** Every [&] of the serialization starts a character reference *)






(** ** Normalising the strings keeps the tree as it is otherwise *)







(** ** The tree that is read is the tree that was built *)








(** ** The entries of the report are content of the body *)







(** ** The document *)














(** ** The elements of the tree that is read *)




(** ** The text that is read of a payload *)












